(** * The POSIX cache manager of CernVM-FS (cvmfs/cache.cc, cvmfs/cache.h)

    A shallow embedding of [CacheManager] / [PosixCacheManager]: the
    transactional, content-addressed object store on a local directory.

    The development has three layers.
    - Machine integers, errno values and the in-memory model of the
      operating system that the manager talks to (directory entries,
      inodes, descriptor table, [errno]), with a script of injected
      faults so that the error paths of the code can be exercised, and a
      chronological log of every system call, quota call and atomic
      counter update.
    - The code of cache.cc, function by function, in a state-and-abort
      monad over the manager object and the operating system.
    - The properties of that code. *)

From Stdlib Require Import ZArith Lia Strings.Byte Ascii String List.
From stdpp Require Import base tactics option list gmap strings.

Local Open Scope string_scope.
Local Open Scope list_scope.
Local Open Scope Z_scope.

(** ** Machine integers *)

Definition u64 (x : Z) : Z := x mod 2 ^ 64.
Definition u32 (x : Z) : Z := x mod 2 ^ 32.
Definition i64 (x : Z) : Z := (x + 2 ^ 63) mod 2 ^ 64 - 2 ^ 63.
Definition i32 (x : Z) : Z := (x + 2 ^ 31) mod 2 ^ 32 - 2 ^ 31.

Global Arguments u64 : simpl never.
Global Arguments u32 : simpl never.
Global Arguments i64 : simpl never.
Global Arguments i32 : simpl never.

(** ** errno values (Linux) *)

Definition ENOENT : Z := 2.
Definition EIO : Z := 5.
Definition EBADF : Z := 9.
Definition EEXIST : Z := 17.
Definition EINVAL : Z := 22.
Definition ENOSPC : Z := 28.
Definition EROFS : Z := 30.

(** ** Constants of cache.cc *)

(** [const uint64_t CacheManager::kSizeUnknown = uint64_t(-1)] *)
Definition kSizeUnknown : Z := u64 (-1).

(** [const uint64_t PosixCacheManager::kBigFile = 25*1024*1024] *)
Definition kBigFile : Z := 25 * 1024 * 1024.

(** [sizeof(transaction->buffer)], from [unsigned char buffer[4096]] *)
Definition kBufferSize : Z := 4096.

Inductive CacheModes := kCacheReadWrite | kCacheReadOnly.

Inductive ObjectType := kTypeRegular | kTypeCatalog | kTypePinned | kTypeVolatile.

Global Instance CacheModes_eq_dec : EqDecision CacheModes.
Proof. solve_decision. Defined.

Global Instance ObjectType_eq_dec : EqDecision ObjectType.
Proof. solve_decision. Defined.

(** ** Collaborators that are only consumed *)

(** [shash::Any] (hash.h): only its two renderings are used here. *)
Class ShashAny (hash : Type) := {
  MakePathWithoutSuffix : hash → string;
  ToString : hash → string;
}.

(** [QuotaManager] (quota.h), the abstract class behind [quota_mgr_], as an
    interface over the collaborator's state [Q].  Sizes are [uint64_t]; the
    callers below reduce what the getters return modulo 2^64.
    [NoopQuotaManager] is the state of a freshly constructed
    [NoopQuotaManager()]. *)
Class QuotaManager (hash Q : Type) := {
  GetMaxFileSize : Q → Z;
  GetCapacity : Q → Z;
  Cleanup : Z → Q → bool * Q;
  Pin : hash → Z → string → bool → Q → bool * Q;
  Insert : hash → Z → string → Q → Q;
  InsertVolatile : hash → Z → string → Q → Q;
  Touch : hash → Q → Q;
  Remove : hash → Q → Q;
  NoopQuotaManager : Q;
}.

(** ** The operating system *)

Record inode := { i_data : list byte; i_mode : Z }.

Record OpenFile := { of_ino : nat; of_writable : bool; of_pos : Z }.

(** What the next system call is scripted to do: behave, fail with an errno
    (always positive), or transfer only [k] bytes (for write and pread). *)
Inductive fault := NoFault | FailWith (e : positive) | Partial (k : nat).

Inductive syscall :=
| SysOpen (path : string)
| SysClose (fd : Z)
| SysWrite (fd : Z) (count : Z)
| SysPread (fd : Z) (count offset : Z)
| SysFstat (fd : Z)
| SysLseek (fd : Z)
| SysFtruncate (fd : Z)
| SysUnlink (path : string)
| SysRename (oldpath newpath : string)
| SysLink (oldpath newpath : string)
| SysChmod (path : string) (mode : Z)
| SysMkstemp (template : string)
| SysCopyPath2Path (src dest : string).

Inductive quota_call (hash : Type) :=
| QCleanup (leave_size : Z)
| QPin (id : hash) (size : Z) (description : string) (is_catalog : bool)
| QInsert (id : hash) (size : Z) (description : string)
| QInsertVolatile (id : hash) (size : Z) (description : string)
| QTouch (id : hash)
| QRemove (id : hash).
Arguments QCleanup {hash}.
Arguments QPin {hash}.
Arguments QInsert {hash}.
Arguments QInsertVolatile {hash}.
Arguments QTouch {hash}.
Arguments QRemove {hash}.

(** The log is chronological.  [EvAtomicInc v] and [EvAtomicDec v] record an
    [atomic_inc32] / [atomic_dec32] of [no_inflight_txns_] and the value the
    counter has afterwards, which is what another thread reading the counter
    at that moment sees. *)
Inductive event (hash : Type) :=
| EvAtomicInc (v : Z)
| EvAtomicDec (v : Z)
| EvSys (c : syscall)
| EvQuota (c : quota_call hash).
Arguments EvAtomicInc {hash}.
Arguments EvAtomicDec {hash}.
Arguments EvSys {hash}.
Arguments EvQuota {hash}.

Record World (hash : Type) := mkWorld {
  w_dir : gmap string nat;
  w_inodes : gmap nat inode;
  w_fds : gmap Z OpenFile;
  w_next_ino : nat;
  w_next_fd : nat;
  w_tmp_seq : nat;
  w_errno : Z;
  w_script : list fault;
  w_log : list (event hash);
}.
Arguments mkWorld {hash}.
Arguments w_dir {hash}.
Arguments w_inodes {hash}.
Arguments w_fds {hash}.
Arguments w_next_ino {hash}.
Arguments w_next_fd {hash}.
Arguments w_tmp_seq {hash}.
Arguments w_errno {hash}.
Arguments w_script {hash}.
Arguments w_log {hash}.

(** [memcpy(dst + off, src, n)] on a byte array held as a list. *)
Definition memcpy (dst : list byte) (off : Z) (src : list byte) (n : Z) : list byte :=
  take (Z.to_nat off) dst ++ take (Z.to_nat n) src ++ drop (Z.to_nat (off + n)) dst.

(** Storing [bytes] at offset [pos] of a file (holes read as zero). *)
Definition write_at (data : list byte) (pos : nat) (bytes : list byte) : list byte :=
  take pos data ++ replicate (pos - length data)%nat x00 ++ bytes
    ++ drop (pos + length bytes)%nat data.

(** The unique suffix that mkstemp puts in place of XXXXXX. *)
Fixpoint digits (k n : nat) : string :=
  match k with
  | O => EmptyString
  | S k' => digits k' (n / 10) +:+ String (ascii_of_nat (48 + n mod 10)) EmptyString
  end.

Definition mkstemp_name (template : string) (seq : nat) : string :=
  substring 0 (String.length template - 6) template +:+ digits 6 seq.

Definition is_template (template : string) : bool :=
  bool_decide (substring (String.length template - 6) 6 template = "XXXXXX").

Section OS.
Context {hash : Type}.
Implicit Type w : World hash.

Definition w_emit (ev : event hash) w : World hash :=
  mkWorld (w_dir w) (w_inodes w) (w_fds w) (w_next_ino w) (w_next_fd w)
          (w_tmp_seq w) (w_errno w) (w_script w) (w_log w ++ [ev]).

Definition w_set_errno (e : Z) w : World hash :=
  mkWorld (w_dir w) (w_inodes w) (w_fds w) (w_next_ino w) (w_next_fd w)
          (w_tmp_seq w) e (w_script w) (w_log w).

Definition w_set_dir (d : gmap string nat) w : World hash :=
  mkWorld d (w_inodes w) (w_fds w) (w_next_ino w) (w_next_fd w)
          (w_tmp_seq w) (w_errno w) (w_script w) (w_log w).

Definition w_set_inodes (i : gmap nat inode) w : World hash :=
  mkWorld (w_dir w) i (w_fds w) (w_next_ino w) (w_next_fd w)
          (w_tmp_seq w) (w_errno w) (w_script w) (w_log w).

Definition w_set_fds (f : gmap Z OpenFile) w : World hash :=
  mkWorld (w_dir w) (w_inodes w) f (w_next_ino w) (w_next_fd w)
          (w_tmp_seq w) (w_errno w) (w_script w) (w_log w).

(** A new inode holding [data]; its number is returned. *)
Definition w_new_inode (data : list byte) (mode : Z) w : nat * World hash :=
  (w_next_ino w,
   mkWorld (w_dir w) (<[w_next_ino w := {| i_data := data; i_mode := mode |}]> (w_inodes w))
           (w_fds w) (S (w_next_ino w)) (w_next_fd w)
           (w_tmp_seq w) (w_errno w) (w_script w) (w_log w)).

(** A new descriptor on inode [ino]. *)
Definition w_new_fd (ino : nat) (writable : bool) w : Z * World hash :=
  (Z.of_nat (w_next_fd w),
   mkWorld (w_dir w) (w_inodes w)
           (<[Z.of_nat (w_next_fd w) :=
                {| of_ino := ino; of_writable := writable; of_pos := 0 |}]> (w_fds w))
           (w_next_ino w) (S (w_next_fd w))
           (w_tmp_seq w) (w_errno w) (w_script w) (w_log w)).

Definition w_bump_tmp_seq w : World hash :=
  mkWorld (w_dir w) (w_inodes w) (w_fds w) (w_next_ino w) (w_next_fd w)
          (S (w_tmp_seq w)) (w_errno w) (w_script w) (w_log w).

(** Every system call logs itself and consumes one entry of the script. *)
Definition enter (c : syscall) w : fault * World hash :=
  let w' := w_emit (EvSys c) w in
  match w_script w' with
  | [] => (NoFault, w')
  | f :: rest =>
      (f, mkWorld (w_dir w') (w_inodes w') (w_fds w') (w_next_ino w') (w_next_fd w')
                  (w_tmp_seq w') (w_errno w') rest (w_log w'))
  end.

Definition fail (e : Z) w : Z * World hash := (-1, w_set_errno e w).

Definition file_of_fd (fd : Z) w : option (OpenFile * inode) :=
  match w_fds w !! fd with
  | Some f => match w_inodes w !! of_ino f with
              | Some i => Some (f, i)
              | None => None
              end
  | None => None
  end.

Definition sys_open_rdonly (path : string) w : Z * World hash :=
  match enter (SysOpen path) w with
  | (FailWith e, w1) => fail (Z.pos e) w1
  | (_, w1) =>
      match w_dir w1 !! path with
      | Some ino => w_new_fd ino false w1
      | None => fail ENOENT w1
      end
  end.

Definition sys_close (fd : Z) w : Z * World hash :=
  match enter (SysClose fd) w with
  | (FailWith e, w1) => fail (Z.pos e) w1
  | (_, w1) =>
      match w_fds w1 !! fd with
      | Some _ => (0, w_set_fds (delete fd (w_fds w1)) w1)
      | None => fail EBADF w1
      end
  end.

(** [write(fd, bytes, |bytes|)] at the descriptor's offset. *)
Definition do_write (fd : Z) (bytes : list byte) w : Z * World hash :=
  match file_of_fd fd w with
  | Some (f, i) =>
      if of_writable f then
        let data := write_at (i_data i) (Z.to_nat (of_pos f)) bytes in
        let n := Z.of_nat (length bytes) in
        (n,
         w_set_fds (<[fd := {| of_ino := of_ino f; of_writable := true;
                               of_pos := of_pos f + n |}]> (w_fds w))
           (w_set_inodes (<[of_ino f := {| i_data := data; i_mode := i_mode i |}]> (w_inodes w)) w))
      else fail EBADF w
  | None => fail EBADF w
  end.

Definition sys_write (fd : Z) (bytes : list byte) w : Z * World hash :=
  match enter (SysWrite fd (Z.of_nat (length bytes))) w with
  | (FailWith e, w1) => fail (Z.pos e) w1
  | (Partial k, w1) => do_write fd (take k bytes) w1
  | (NoFault, w1) => do_write fd bytes w1
  end.

(** [pread(fd, buf, count, offset)]: the result and the bytes put in [buf]. *)
Definition sys_pread (fd : Z) (count offset : Z) w : Z * list byte * World hash :=
  match enter (SysPread fd count offset) w with
  | (FailWith e, w1) => (-1, [], w_set_errno (Z.pos e) w1)
  | (flt, w1) =>
      match file_of_fd fd w1 with
      | Some (f, i) =>
          let got := take (Z.to_nat count) (drop (Z.to_nat offset) (i_data i)) in
          let got := match flt with Partial k => take k got | _ => got end in
          (Z.of_nat (length got), got, w1)
      | None => (-1, [], w_set_errno EBADF w1)
      end
  end.

(** [fstat(fd, &info)]: the result and [info.st_size]. *)
Definition sys_fstat (fd : Z) w : Z * Z * World hash :=
  match enter (SysFstat fd) w with
  | (FailWith e, w1) => (-1, 0, w_set_errno (Z.pos e) w1)
  | (_, w1) =>
      match file_of_fd fd w1 with
      | Some (f, i) => (0, Z.of_nat (length (i_data i)), w1)
      | None => (-1, 0, w_set_errno EBADF w1)
      end
  end.

(** [lseek(fd, 0, SEEK_SET)] *)
Definition sys_lseek0 (fd : Z) w : Z * World hash :=
  match enter (SysLseek fd) w with
  | (FailWith e, w1) => fail (Z.pos e) w1
  | (_, w1) =>
      match w_fds w1 !! fd with
      | Some f =>
          (0, w_set_fds (<[fd := {| of_ino := of_ino f; of_writable := of_writable f;
                                    of_pos := 0 |}]> (w_fds w1)) w1)
      | None => fail EBADF w1
      end
  end.

(** [ftruncate(fd, 0)] *)
Definition sys_ftruncate0 (fd : Z) w : Z * World hash :=
  match enter (SysFtruncate fd) w with
  | (FailWith e, w1) => fail (Z.pos e) w1
  | (_, w1) =>
      match file_of_fd fd w1 with
      | Some (f, i) =>
          if of_writable f then
            (0, w_set_inodes (<[of_ino f := {| i_data := []; i_mode := i_mode i |}]> (w_inodes w1)) w1)
          else fail EINVAL w1
      | None => fail EBADF w1
      end
  end.

Definition sys_unlink (path : string) w : Z * World hash :=
  match enter (SysUnlink path) w with
  | (FailWith e, w1) => fail (Z.pos e) w1
  | (_, w1) =>
      match w_dir w1 !! path with
      | Some _ => (0, w_set_dir (delete path (w_dir w1)) w1)
      | None => fail ENOENT w1
      end
  end.

Definition sys_rename (oldpath newpath : string) w : Z * World hash :=
  match enter (SysRename oldpath newpath) w with
  | (FailWith e, w1) => fail (Z.pos e) w1
  | (_, w1) =>
      match w_dir w1 !! oldpath with
      | Some ino => (0, w_set_dir (<[newpath := ino]> (delete oldpath (w_dir w1))) w1)
      | None => fail ENOENT w1
      end
  end.

Definition sys_link (oldpath newpath : string) w : Z * World hash :=
  match enter (SysLink oldpath newpath) w with
  | (FailWith e, w1) => fail (Z.pos e) w1
  | (_, w1) =>
      match w_dir w1 !! oldpath with
      | Some ino =>
          match w_dir w1 !! newpath with
          | Some _ => fail EEXIST w1
          | None => (0, w_set_dir (<[newpath := ino]> (w_dir w1)) w1)
          end
      | None => fail ENOENT w1
      end
  end.

Definition sys_chmod (path : string) (mode : Z) w : Z * World hash :=
  match enter (SysChmod path mode) w with
  | (FailWith e, w1) => fail (Z.pos e) w1
  | (_, w1) =>
      match w_dir w1 !! path with
      | Some ino =>
          match w_inodes w1 !! ino with
          | Some i =>
              (0, w_set_inodes (<[ino := {| i_data := i_data i; i_mode := mode |}]> (w_inodes w1)) w1)
          | None => fail ENOENT w1
          end
      | None => fail ENOENT w1
      end
  end.

(** [mkstemp(template)]: the descriptor (or -1) and the name written back
    into the template.  One candidate name is tried. *)
Definition sys_mkstemp (template : string) w : Z * string * World hash :=
  match enter (SysMkstemp template) w with
  | (FailWith e, w1) => (-1, template, w_set_errno (Z.pos e) w1)
  | (_, w1) =>
      if is_template template then
        let name := mkstemp_name template (w_tmp_seq w1) in
        let w2 := w_bump_tmp_seq w1 in
        match w_dir w2 !! name with
        | Some _ => (-1, template, w_set_errno EEXIST w2)
        | None =>
            let '(ino, w3) := w_new_inode [] 384 w2 in
            let '(fd, w4) := w_new_fd ino true (w_set_dir (<[name := ino]> (w_dir w3)) w3) in
            (fd, name, w4)
        end
      else (-1, template, w_set_errno EINVAL w1)
  end.

End OS.

(** Modelled from the spec: [CopyPath2Path] of util.h, which is not among the
    sources; cache.cc uses it to "copy the staging file into
    quarantaine/<hash-hex>".  It copies the bytes of the file named [src]
    into the file named [dest], creating [dest] when it is absent, and
    returns whether that worked. *)
Definition CopyPath2Path_os {hash : Type} (src dest : string) (w : World hash)
  : bool * World hash :=
  match enter (SysCopyPath2Path src dest) w with
  | (FailWith e, w1) => (false, w_set_errno (Z.pos e) w1)
  | (_, w1) =>
      match w_dir w1 !! src with
      | Some ino =>
          match w_inodes w1 !! ino with
          | Some i =>
              match w_dir w1 !! dest with
              | Some old => (true, w_set_inodes (<[old := i]> (w_inodes w1)) w1)
              | None =>
                  let '(new, w2) := w_new_inode (i_data i) (i_mode i) w1 in
                  (true, w_set_dir (<[dest := new]> (w_dir w2)) w2)
              end
          | None => (false, w_set_errno ENOENT w1)
          end
      | None => (false, w_set_errno ENOENT w1)
      end
  end.

(** ** The manager object and the monad of its methods *)

(** A method returns, stops at a failed [assert], or (loops only) exhausts
    the fuel it was given. *)
Inductive outcome (A : Type) := Ret (a : A) | Aborted | OutOfFuel.
Arguments Ret {A}.
Arguments Aborted {A}.
Arguments OutOfFuel {A}.

(** [struct PosixCacheManager::Transaction] (cache.h) *)
Record Transaction (hash : Type) := mkTransaction {
  buffer : list byte;
  buf_pos : Z;
  txn_size : Z;
  expected_size : Z;
  fd : Z;
  txn_type : ObjectType;
  tmp_path : string;
  final_path : string;
  description : string;
  txn_id : hash;
}.
Arguments mkTransaction {hash}.
Arguments buffer {hash}.
Arguments buf_pos {hash}.
Arguments txn_size {hash}.
Arguments expected_size {hash}.
Arguments fd {hash}.
Arguments txn_type {hash}.
Arguments tmp_path {hash}.
Arguments final_path {hash}.
Arguments description {hash}.
Arguments txn_id {hash}.

(** The data members of [PosixCacheManager] (and [quota_mgr_] of its base),
    and [*cvmfs::repository_name_], which TearDown2ReadOnly reads. *)
Record PosixCacheManager (Q : Type) := mkPosixCacheManager {
  cache_path_ : string;
  txn_template_path_ : string;
  alien_cache_ : bool;
  alien_cache_on_nfs_ : bool;
  cache_mode_ : CacheModes;
  no_inflight_txns_ : Z;
  reports_correct_filesize_ : bool;
  quota_mgr_ : Q;
  repository_name_ : string;
}.
Arguments mkPosixCacheManager {Q}.
Arguments cache_path_ {Q}.
Arguments txn_template_path_ {Q}.
Arguments alien_cache_ {Q}.
Arguments alien_cache_on_nfs_ {Q}.
Arguments cache_mode_ {Q}.
Arguments no_inflight_txns_ {Q}.
Arguments reports_correct_filesize_ {Q}.
Arguments quota_mgr_ {Q}.
Arguments repository_name_ {Q}.

Record State (hash Q : Type) := mkState {
  mgr : PosixCacheManager Q;
  os : World hash;
}.
Arguments mkState {hash Q}.
Arguments mgr {hash Q}.
Arguments os {hash Q}.

Definition M (hash Q A : Type) : Type := State hash Q → outcome (A * State hash Q).

Global Instance M_ret {hash Q} : MRet (M hash Q) := λ A a s, Ret (a, s).

Global Instance M_bind {hash Q} : MBind (M hash Q) := λ A B f m s,
  match m s with
  | Ret (a, s') => f a s'
  | Aborted => Aborted
  | OutOfFuel => OutOfFuel
  end.

Section Monad.
Context {hash Q : Type}.

Definition assert (b : bool) : M hash Q unit :=
  λ s, if b then Ret (tt, s) else Aborted.

Definition out_of_fuel {A} : M hash Q A := λ _, OutOfFuel.

Definition gets {A} (f : PosixCacheManager Q → A) : M hash Q A :=
  λ s, Ret (f (mgr s), s).

Definition errno : M hash Q Z := λ s, Ret (w_errno (os s), s).

(** Lifting of the system calls. *)
Definition sys {A} (f : World hash → A * World hash) : M hash Q A :=
  λ s, let '(a, w) := f (os s) in Ret (a, mkState (mgr s) w).

Definition set_cache_mode (m : CacheModes) : M hash Q unit :=
  λ s, let c := mgr s in
       Ret (tt, mkState (mkPosixCacheManager (cache_path_ c) (txn_template_path_ c)
                           (alien_cache_ c) (alien_cache_on_nfs_ c) m
                           (no_inflight_txns_ c) (reports_correct_filesize_ c)
                           (quota_mgr_ c) (repository_name_ c)) (os s)).

Definition set_quota_mgr (q : Q) (c : PosixCacheManager Q) : PosixCacheManager Q :=
  mkPosixCacheManager (cache_path_ c) (txn_template_path_ c)
    (alien_cache_ c) (alien_cache_on_nfs_ c) (cache_mode_ c)
    (no_inflight_txns_ c) (reports_correct_filesize_ c) q (repository_name_ c).

Definition set_no_inflight_txns (v : Z) (c : PosixCacheManager Q) : PosixCacheManager Q :=
  mkPosixCacheManager (cache_path_ c) (txn_template_path_ c)
    (alien_cache_ c) (alien_cache_on_nfs_ c) (cache_mode_ c)
    v (reports_correct_filesize_ c) (quota_mgr_ c) (repository_name_ c).

(** [atomic_inc32(&no_inflight_txns_)], [atomic_dec32(&no_inflight_txns_)]
    and [atomic_read32(&no_inflight_txns_)] on the [atomic_int32]. *)
Definition atomic_inc32 : M hash Q unit :=
  λ s, let v := i32 (no_inflight_txns_ (mgr s) + 1) in
       Ret (tt, mkState (set_no_inflight_txns v (mgr s)) (w_emit (EvAtomicInc v) (os s))).

Definition atomic_dec32 : M hash Q unit :=
  λ s, let v := i32 (no_inflight_txns_ (mgr s) - 1) in
       Ret (tt, mkState (set_no_inflight_txns v (mgr s)) (w_emit (EvAtomicDec v) (os s))).

Definition atomic_read32 : M hash Q Z := gets no_inflight_txns_.

(** [SafeSleepMs(ms)] only lets time pass. *)
Definition SafeSleepMs (ms : Z) : M hash Q unit := mret tt.

End Monad.

(** ** cache.cc *)

Section Cache.
Context {hash Q : Type} `{ShashAny hash} `{QuotaManager hash Q}.

Abbreviation Txn := (Transaction hash).
Abbreviation Mc := (M hash Q).

(** Calls through [quota_mgr_]: each is logged, then the collaborator's
    answer is taken and its new state stored. *)
Definition quota_call_with {A} (c : quota_call hash) (f : Q → A * Q) : Mc A :=
  λ s, let '(a, q) := f (quota_mgr_ (mgr s)) in
       Ret (a, mkState (set_quota_mgr q (mgr s)) (w_emit (EvQuota c) (os s))).

Definition quota_GetMaxFileSize : Mc Z := gets (λ c, u64 (GetMaxFileSize (quota_mgr_ c))).
Definition quota_GetCapacity : Mc Z := gets (λ c, u64 (GetCapacity (quota_mgr_ c))).
Definition quota_Cleanup (leave_size : Z) : Mc bool :=
  quota_call_with (QCleanup leave_size) (Cleanup leave_size).
Definition quota_Pin (id : hash) (size : Z) (desc : string) (is_catalog : bool) : Mc bool :=
  quota_call_with (QPin id size desc is_catalog) (Pin id size desc is_catalog).
Definition quota_Insert (id : hash) (size : Z) (desc : string) : Mc unit :=
  quota_call_with (QInsert id size desc) (λ q, (tt, Insert id size desc q)).
Definition quota_InsertVolatile (id : hash) (size : Z) (desc : string) : Mc unit :=
  quota_call_with (QInsertVolatile id size desc) (λ q, (tt, InsertVolatile id size desc q)).
Definition quota_Touch (id : hash) : Mc unit :=
  quota_call_with (QTouch id) (λ q, (tt, Touch id q)).
Definition quota_Remove (id : hash) : Mc unit :=
  quota_call_with (QRemove id) (λ q, (tt, Remove id q)).

Definition CopyPath2Path (src dest : string) : Mc bool := sys (CopyPath2Path_os src dest).

(** The constructor [Transaction(id, final_path)]; the bytes of [buffer] are
    not initialised by it and are never read before they are written. *)
Definition new_Transaction (id : hash) (final : string) : Txn :=
  mkTransaction (replicate (Z.to_nat kBufferSize) x00) 0 0 kSizeUnknown (-1)
                kTypeRegular "" final "" id.

Definition set_buf_pos (p : Z) (t : Txn) : Txn :=
  mkTransaction (buffer t) p (txn_size t) (expected_size t) (fd t) (txn_type t)
                (tmp_path t) (final_path t) (description t) (txn_id t).

Definition set_txn_size (n : Z) (t : Txn) : Txn :=
  mkTransaction (buffer t) (buf_pos t) n (expected_size t) (fd t) (txn_type t)
                (tmp_path t) (final_path t) (description t) (txn_id t).

Definition set_buffer (b : list byte) (t : Txn) : Txn :=
  mkTransaction b (buf_pos t) (txn_size t) (expected_size t) (fd t) (txn_type t)
                (tmp_path t) (final_path t) (description t) (txn_id t).

(** [PosixCacheManager::GetPathInCache] *)
Definition GetPathInCache (id : hash) : Mc string :=
  gets (λ c, cache_path_ c +:+ "/" +:+ MakePathWithoutSuffix id).

(** [PosixCacheManager::Flush] *)
Definition Flush (t : Txn) : Mc (Z * Txn) :=
  if decide (buf_pos t = 0) then mret (0, t)
  else
    written ← sys (sys_write (fd t) (take (Z.to_nat (buf_pos t)) (buffer t)));
    let written := i32 written in
    if decide (written < 0) then e ← errno; mret (- e, t)
    else if decide (u32 written ≠ buf_pos t) then
      mret (- EIO, set_buf_pos (u32 (buf_pos t - written)) t)
    else mret (0, set_buf_pos 0 t).

(** [PosixCacheManager::AbortTxn] *)
Definition AbortTxn (t : Txn) : Mc Z :=
  sys (sys_close (fd t));;
  result ← sys (sys_unlink (tmp_path t));
  atomic_dec32;;
  if decide (result = -1) then e ← errno; mret (- e) else mret 0.

(** [PosixCacheManager::Close] *)
Definition Close (fd : Z) : Mc Z :=
  retval ← sys (sys_close fd);
  if decide (retval ≠ 0) then e ← errno; mret (- e) else mret 0.

(** [PosixCacheManager::Rename] *)
Definition Rename (oldpath newpath : string) : Mc Z :=
  on_nfs ← gets alien_cache_on_nfs_;
  if negb on_nfs then
    result ← sys (sys_rename oldpath newpath);
    if decide (result < 0) then e ← errno; mret (- e) else mret 0
  else
    result ← sys (sys_link oldpath newpath);
    e ← errno;
    if bool_decide (result < 0) && negb (bool_decide (e = EEXIST)) then mret (- e)
    else
      result ← sys (sys_unlink oldpath);
      if decide (result < 0) then e ← errno; mret (- e) else mret 0.

Definition is_pinned_type (ty : ObjectType) : bool :=
  bool_decide (ty = kTypePinned) || bool_decide (ty = kTypeCatalog).

(** [PosixCacheManager::CommitTxn] *)
Definition CommitTxn (t : Txn) : Mc Z :=
  '(result, t) ← Flush t;
  sys (sys_close (fd t));;
  if decide (result < 0) then
    sys (sys_unlink (tmp_path t));;
    atomic_dec32;;
    mret result
  else
    reports_correct_filesize ← gets reports_correct_filesize_;
    if bool_decide (txn_size t ≠ expected_size t)
       && (bool_decide (expected_size t ≠ kSizeUnknown)
           && (reports_correct_filesize || bool_decide (txn_size t ≠ 0)))
    then
      cache_path ← gets cache_path_;
      CopyPath2Path (tmp_path t) (cache_path +:+ "/quarantaine/" +:+ ToString (txn_id t));;
      sys (sys_unlink (tmp_path t));;
      atomic_dec32;;
      mret (- EIO)
    else
      retval ← (if is_pinned_type (txn_type t) then
                  quota_Pin (txn_id t) (txn_size t) (description t)
                            (bool_decide (txn_type t = kTypeCatalog))
                else mret true);
      if negb retval then
        sys (sys_unlink (tmp_path t));;
        atomic_dec32;;
        mret (- ENOSPC)
      else
        alien_cache ← gets alien_cache_;
        (if alien_cache : bool then
           retval ← sys (sys_chmod (tmp_path t) 432);
           assert (bool_decide (retval = 0))
         else mret tt);;
        result ← Rename (tmp_path t) (final_path t);
        (if decide (result < 0) then
           sys (sys_unlink (tmp_path t));;
           if is_pinned_type (txn_type t) then quota_Remove (txn_id t) else mret tt
         else
           if decide (txn_type t = kTypeVolatile) then
             quota_InsertVolatile (txn_id t) (txn_size t) (description t)
           else if decide (txn_type t = kTypeRegular) then
             quota_Insert (txn_id t) (txn_size t) (description t)
           else mret tt);;
        atomic_dec32;;
        mret result.

(** [PosixCacheManager::CtrlTxn] *)
Definition CtrlTxn (desc : string) (type : ObjectType) (flags : Z) (t : Txn) : Txn :=
  mkTransaction (buffer t) (buf_pos t) (txn_size t) (expected_size t) (fd t) type
                (tmp_path t) (final_path t) desc (txn_id t).

(** [PosixCacheManager::GetSize] *)
Definition GetSize (fd : Z) : Mc Z :=
  '(retval, st_size) ← sys (λ w, let '(r, sz, w') := sys_fstat fd w in ((r, sz), w'));
  if decide (retval ≠ 0) then e ← errno; mret (- e) else mret st_size.

(** [PosixCacheManager::Open] *)
Definition Open (id : hash) : Mc Z :=
  path ← GetPathInCache id;
  result ← sys (sys_open_rdonly path);
  if decide (result >= 0) then quota_Touch id;; mret result
  else e ← errno; mret (- e).

(** [PosixCacheManager::OpenFromTxn] *)
Definition OpenFromTxn (t : Txn) : Mc (Z * Txn) :=
  '(retval, t) ← Flush t;
  if decide (retval < 0) then mret (retval, t)
  else
    fd_rdonly ← sys (sys_open_rdonly (tmp_path t));
    if decide (fd_rdonly = -1) then e ← errno; mret (- e, t) else mret (fd_rdonly, t).

(** [PosixCacheManager::Pread]: the result and the bytes stored in [buf]. *)
Definition Pread (fd : Z) (size offset : Z) : Mc (Z * list byte) :=
  '(result, data) ← sys (λ w, let '(r, d, w') := sys_pread fd size offset w in ((r, d), w'));
  if decide (result < 0) then e ← errno; mret (- e, data) else mret (result, data).

(** [PosixCacheManager::Reset] *)
Definition Reset (t : Txn) : Mc (Z * Txn) :=
  let t := set_txn_size 0 (set_buf_pos 0 t) in
  retval ← sys (sys_lseek0 (fd t));
  if decide (retval < 0) then e ← errno; mret (- e, t)
  else
    retval ← sys (sys_ftruncate0 (fd t));
    if decide (retval < 0) then e ← errno; mret (- e, t) else mret (0, t).

(** [PosixCacheManager::StartTxn].  The transaction object is constructed
    in the caller's storage only on the path that reaches mkstemp, and is
    destroyed again when mkstemp fails: the storage then holds no
    transaction ([None]). *)
Definition StartTxn (id : hash) (size : Z) : Mc (Z * option Txn) :=
  atomic_inc32;;
  cache_mode ← gets cache_mode_;
  if decide (cache_mode = kCacheReadOnly) then
    atomic_dec32;;
    mret (- EROFS, None)
  else
    early ← (if decide (size ≠ kSizeUnknown) then
               max_file_size ← quota_GetMaxFileSize;
               if decide (size > max_file_size) then
                 atomic_dec32;;
                 mret (Some (- ENOSPC))
               else
                 (if decide (size > kBigFile) then
                    capacity ← quota_GetCapacity;
                    assert (bool_decide (capacity >= size));;
                    quota_Cleanup (u64 (capacity - size));;
                    mret tt
                  else mret tt);;
                 mret None
             else mret None);
    match early with
    | Some err => mret (err, None)
    | None =>
        final ← GetPathInCache id;
        let transaction := new_Transaction id final in
        template ← gets txn_template_path_;
        '(fd, template_path) ←
          sys (λ w, let '(r, p, w') := sys_mkstemp template w in ((r, p), w'));
        if decide (fd = -1) then
          atomic_dec32;;
          e ← errno;
          mret (- e, None)
        else
          mret (fd,
                Some (mkTransaction (buffer transaction) (buf_pos transaction)
                        (txn_size transaction) size fd (txn_type transaction)
                        template_path (final_path transaction)
                        (description transaction) (txn_id transaction)))
    end.

(** The wait loop of TearDown2ReadOnly:
    [while (atomic_read32(&no_inflight_txns_) != 0) SafeSleepMs(50);] *)
Fixpoint drain_loop (fuel : nat) : Mc unit :=
  match fuel with
  | O => out_of_fuel
  | S fuel' =>
      n ← atomic_read32;
      if decide (n ≠ 0) then SafeSleepMs 50;; drain_loop fuel' else mret tt
  end.

(** [PosixCacheManager::TearDown2ReadOnly] *)
Definition TearDown2ReadOnly (fuel : nat) : Mc unit :=
  set_cache_mode kCacheReadOnly;;
  drain_loop fuel;;
  (λ s, Ret (tt, mkState (set_quota_mgr NoopQuotaManager (mgr s)) (os s)));;
  name ← gets repository_name_;
  sys (sys_unlink ("running." +:+ name));;
  mret tt.

(** The loop of Write, [while (written < size) { ... }], and what follows
    it.  [buf] is the caller's memory at the pointer [buf]. *)
Fixpoint Write_loop (fuel : nat) (buf : list byte) (size written : Z) (t : Txn)
  : Mc (Z * Txn) :=
  if decide (written < size) then
    match fuel with
    | O => out_of_fuel
    | S fuel' =>
        '(stop, t) ←
          (if decide (buf_pos t = kBufferSize) then
             '(retval, t) ← Flush t;
             if decide (retval ≠ 0) then
               mret (Some retval, set_txn_size (u64 (txn_size t + written)) t)
             else mret (None, t)
           else mret (None, t));
        match stop with
        | Some retval => mret (retval, t)
        | None =>
            let remaining := u64 (size - written) in
            let space_in_buffer := u64 (kBufferSize - buf_pos t) in
            let batch_size := Z.min remaining space_in_buffer in
            let t := set_buffer (memcpy (buffer t) (buf_pos t) buf batch_size) t in
            let t := set_buf_pos (u32 (buf_pos t + batch_size)) t in
            Write_loop fuel' buf size (u64 (written + batch_size)) t
        end
    end
  else mret (i64 written, set_txn_size (u64 (txn_size t + written)) t).

(** [PosixCacheManager::Write].  Every turn of the loop copies at least one
    byte, so [size] turns are enough (see [Write_loop_fuel]). *)
Definition Write (buf : list byte) (size : Z) (t : Txn) : Mc (Z * Txn) :=
  if bool_decide (expected_size t ≠ kSizeUnknown)
     && bool_decide (u64 (txn_size t + size) > expected_size t)
  then mret (- ENOSPC, t)
  else Write_loop (Z.to_nat size) buf size 0 t.

(** [CacheManager::Open2Mem]: the return value, [*buffer] ([None] is NULL)
    and [*size]. *)
Definition Open2Mem (id : hash) : Mc (bool * option (list byte) * Z) :=
  fd ← Open id;
  if decide (fd < 0) then mret (false, None, 0)
  else
    s ← GetSize fd;
    assert (bool_decide (s >= 0));;
    let size := u64 s in
    '(retval, buffer) ←
      (if decide (size > 0) then
         '(retval, data) ← Pread fd size 0;
         mret (retval, Some data)
       else mret (0, None));
    Close fd;;
    if bool_decide (retval < 0) || bool_decide (u64 retval ≠ size) then
      mret (false, None, 0)
    else mret (true, buffer, size).

(** [CacheManager::CommitFromMem].  [size] is the length of [buffer]. *)
Definition CommitFromMem (id : hash) (buffer : list byte) (size : Z) (desc : string)
  : Mc bool :=
  '(fd, txn) ← StartTxn id size;
  if decide (fd < 0) then mret false
  else
    match txn with
    | None => λ _, Aborted
    | Some txn =>
        let txn := CtrlTxn desc kTypeRegular 0 txn in
        '(retval, txn) ← Write buffer size txn;
        if bool_decide (retval < 0) || bool_decide (u64 retval ≠ size) then
          AbortTxn txn;;
          mret false
        else
          retval ← CommitTxn txn;
          mret (bool_decide (retval = 0))
    end.

(** The constructors [CacheManager()] and
    [PosixCacheManager(cache_path, alien_cache)] (cache.h). *)
Definition new_PosixCacheManager (cache_path : string) (alien_cache : bool)
    (repository_name : string) : PosixCacheManager Q :=
  mkPosixCacheManager cache_path (cache_path +:+ "/txn/fetchXXXXXX") alien_cache false
    kCacheReadWrite 0 true NoopQuotaManager repository_name.

End Cache.

(** ** Observations on the log *)

(** The updates of [no_inflight_txns_] in a log, oldest first: [true] for
    an increment, [false] for a decrement, with the value then stored. *)
Definition counter_updates {hash} (l : list (event hash)) : list (bool * Z) :=
  omap (λ ev, match ev with
              | EvAtomicInc v => Some (true, v)
              | EvAtomicDec v => Some (false, v)
              | _ => None
              end) l.

(** The system calls in a log, oldest first. *)
Definition syscalls {hash} (l : list (event hash)) : list syscall :=
  omap (λ ev, match ev with EvSys c => Some c | _ => None end) l.

Definition is_rename_or_link (c : syscall) : bool :=
  match c with SysRename _ _ | SysLink _ _ => true | _ => false end.

Definition is_pread (c : syscall) : bool :=
  match c with SysPread _ _ _ => true | _ => false end.

(** ** Clients of the manager

    One step of a client that holds the transactions it has started and
    not yet committed or aborted.  A step exists only for a call that
    returns. *)
Section Client.
Context {hash Q : Type} `{ShashAny hash} `{QuotaManager hash Q}.

Inductive step : State hash Q * list (Transaction hash) →
                 State hash Q * list (Transaction hash) → Prop :=
| step_StartTxn_ok id size s fd t s' live :
    StartTxn id size s = Ret ((fd, Some t), s') →
    step (s, live) (s', t :: live)
| step_StartTxn_err id size s err s' live :
    StartTxn id size s = Ret ((err, None), s') →
    step (s, live) (s', live)
| step_CtrlTxn desc type flags s l1 t l2 :
    step (s, l1 ++ t :: l2) (s, l1 ++ CtrlTxn desc type flags t :: l2)
| step_Write buf size s l1 t l2 r t' s' :
    Write buf size t s = Ret ((r, t'), s') →
    step (s, l1 ++ t :: l2) (s', l1 ++ t' :: l2)
| step_Reset s l1 t l2 r t' s' :
    Reset t s = Ret ((r, t'), s') →
    step (s, l1 ++ t :: l2) (s', l1 ++ t' :: l2)
| step_OpenFromTxn s l1 t l2 r t' s' :
    OpenFromTxn t s = Ret ((r, t'), s') →
    step (s, l1 ++ t :: l2) (s', l1 ++ t' :: l2)
| step_CommitTxn s l1 t l2 r s' :
    CommitTxn t s = Ret (r, s') →
    step (s, l1 ++ t :: l2) (s', l1 ++ l2)
| step_AbortTxn s l1 t l2 r s' :
    AbortTxn t s = Ret (r, s') →
    step (s, l1 ++ t :: l2) (s', l1 ++ l2)
| step_Open id s r s' live :
    Open id s = Ret (r, s') → step (s, live) (s', live)
| step_GetSize fd s r s' live :
    GetSize fd s = Ret (r, s') → step (s, live) (s', live)
| step_Pread fd size offset s r s' live :
    Pread fd size offset s = Ret (r, s') → step (s, live) (s', live)
| step_Close fd s r s' live :
    Close fd s = Ret (r, s') → step (s, live) (s', live)
| step_Open2Mem id s r s' live :
    Open2Mem id s = Ret (r, s') → step (s, live) (s', live)
| step_CommitFromMem id buf size desc s r s' live :
    CommitFromMem id buf size desc s = Ret (r, s') → step (s, live) (s', live)
| step_TearDown2ReadOnly fuel s s' live :
    TearDown2ReadOnly fuel s = Ret (tt, s') → step (s, live) (s', live).

Inductive steps : State hash Q * list (Transaction hash) →
                  State hash Q * list (Transaction hash) → Prop :=
| steps_refl c : steps c c
| steps_step c1 c2 c3 : steps c1 c2 → step c2 c3 → steps c1 c3.

End Client.

(** ** cache.cc, the functions of namespace cache

    The free functions that work on the variables of the namespace instead
    of on a manager object. *)

Module cache.

(** The variables of namespace cache that these functions read, and the two
    counters of [CallGuard]. *)
Record Globals := mkGlobals {
  cache_path_ : string;
  alien_cache_ : bool;
  alien_cache_on_nfs_ : bool;
  cache_mode_ : CacheModes;
  num_inflight_calls_ : Z;
  global_drainout_ : Z;
}.

Definition set_cache_mode (m : CacheModes) (g : Globals) : Globals :=
  mkGlobals (cache_path_ g) (alien_cache_ g) (alien_cache_on_nfs_ g) m
            (num_inflight_calls_ g) (global_drainout_ g).

Definition set_num_inflight_calls (v : Z) (g : Globals) : Globals :=
  mkGlobals (cache_path_ g) (alien_cache_ g) (alien_cache_on_nfs_ g) (cache_mode_ g)
            v (global_drainout_ g).

Definition set_global_drainout (v : Z) (g : Globals) : Globals :=
  mkGlobals (cache_path_ g) (alien_cache_ g) (alien_cache_on_nfs_ g) (cache_mode_ g)
            (num_inflight_calls_ g) v.

(** [class CallGuard].  The object holds [drainout_]. *)
Module CallGuard.

(** [CallGuard()]: the value of [drainout_] and the variables. *)
Definition ctor (g : Globals) : bool * Globals :=
  let global_drainout := global_drainout_ g in
  let drainout_ := bool_decide (global_drainout ≠ 0) in
  if negb drainout_
  then (drainout_, set_num_inflight_calls (i32 (num_inflight_calls_ g + 1)) g)
  else (drainout_, g).

(** [~CallGuard()] *)
Definition dtor (drainout_ : bool) (g : Globals) : Globals :=
  if negb drainout_ then set_num_inflight_calls (i32 (num_inflight_calls_ g - 1)) g
  else g.

(** The wait loop of Drainout:
    [while (atomic_read32(&num_inflight_calls_) != 0) SafeSleepMs(50);] *)
Fixpoint Drainout_loop (fuel : nat) (g : Globals) : outcome (unit * Globals) :=
  match fuel with
  | O => OutOfFuel
  | S fuel' =>
      if decide (num_inflight_calls_ g ≠ 0) then Drainout_loop fuel' g else Ret (tt, g)
  end.

(** [CallGuard::Drainout()]; [atomic_cas32(&global_drainout_, 0, 1)] stores
    1 where it finds 0. *)
Definition Drainout (fuel : nat) (g : Globals) : outcome (unit * Globals) :=
  let g := if decide (global_drainout_ g = 0) then set_global_drainout 1 g else g in
  Drainout_loop fuel g.

End CallGuard.

Section Functions.
Context {hash : Type} `{ShashAny hash}.
Implicit Type w : World hash.


(** [cache::TearDown2ReadOnly] *)
Definition TearDown2ReadOnly (fuel : nat) (g : Globals) : outcome (unit * Globals) :=
  CallGuard.Drainout fuel (set_cache_mode kCacheReadOnly g).

(** [cache::GetPathInCache] *)
Definition GetPathInCache (g : Globals) (id : hash) : string :=
  cache_path_ g +:+ "/" +:+ MakePathWithoutSuffix id.

(** [cache::GetTempName] *)
Definition GetTempName (g : Globals) : string :=
  cache_path_ g +:+ "/txn/" +:+ "fetchXXXXXX".

(** [cache::Open] *)
Definition Open (g : Globals) (id : hash) w : Z * World hash :=
  let path := GetPathInCache g id in
  let '(result, w) := sys_open_rdonly path w in
  if decide (result >= 0) then (result, w) else (- w_errno w, w).

(** [cache::StartTransaction]: the result, [*final_path] and [*temp_path],
    which are the caller's strings on entry. *)
Definition StartTransaction (g : Globals) (id : hash) (final_path temp_path : string) w
  : Z * string * string * World hash :=
  if decide (cache_mode_ g = kCacheReadOnly) then (- EROFS, final_path, temp_path, w)
  else
    let final_path := GetPathInCache g id in
    let temp_path := GetTempName g in
    let '(result, template_path, w) := sys_mkstemp temp_path w in
    let result := if decide (result = -1) then - w_errno w else result in
    (result, final_path, template_path, w).

(** [cache::AbortTransaction] *)
Definition AbortTransaction (temp_path : string) w : Z * World hash :=
  let '(result, w) := sys_unlink temp_path w in
  if decide (result = -1) then (- w_errno w, w) else (result, w).

(** [cache::Rename] *)
Definition Rename (g : Globals) (oldpath newpath : string) w : Z * World hash :=
  if negb (alien_cache_on_nfs_ g) then sys_rename oldpath newpath w
  else
    let '(result, w) := sys_link oldpath newpath w in
    if bool_decide (result < 0) && negb (bool_decide (w_errno w = EEXIST)) then (result, w)
    else sys_unlink oldpath w.

(** [cache::CommitTransaction]; the calls to the quota module are commented
    out in the source. *)
Definition CommitTransaction (g : Globals) (final_path temp_path cvmfs_path : string)
    (id : hash) (volatile_content : bool) (size : Z) w : outcome (Z * World hash) :=
  match (if alien_cache_ g
         then let '(retval, w) := sys_chmod temp_path 432 w in
              if bool_decide (retval = 0) then Ret (tt, w) else Aborted
         else Ret (tt, w)) with
  | Ret (_, w) =>
      let '(result, w) := Rename g temp_path final_path w in
      if decide (result < 0) then
        let result := - w_errno w in
        let '(_, w) := sys_unlink temp_path w in
        Ret (result, w)
      else Ret (result, w)
  | Aborted => Aborted
  | OutOfFuel => OutOfFuel
  end.

(** [cache::CommitFromMem] *)
Definition CommitFromMem (g : Globals) (id : hash) (buffer : list byte) (size : Z)
    (cvmfs_path : string) w : outcome (bool * World hash) :=
  let '(fd, final_path, temp_path, w) := StartTransaction g id "" "" w in
  if decide (fd < 0) then Ret (false, w)
  else
    let '(retval, w) := sys_write fd (take (Z.to_nat size) buffer) w in
    let retval := i64 retval in
    let '(_, w) := sys_close fd w in
    if bool_decide (retval < 0) || bool_decide (u64 retval ≠ size) then
      let '(_, w) := AbortTransaction temp_path w in
      Ret (false, w)
    else
      let volatile_content := false in
      match CommitTransaction g final_path temp_path cvmfs_path id volatile_content size w with
      | Ret (r, w) => Ret (bool_decide (r = 0), w)
      | Aborted => Aborted
      | OutOfFuel => OutOfFuel
      end.

End Functions.

End cache.



(** ** Concrete collaborators, for running the code *)

(** Modelled from the spec: [shash::Any] of hash.h, which is not among the
    sources, as the hexadecimal digest; "path derivation:
    <two-hex-prefix>/<remaining-hex>". *)
Global Instance hex_ShashAny : ShashAny string := {|
  MakePathWithoutSuffix h := substring 0 2 h +:+ "/" +:+ substring 2 (String.length h - 2) h;
  ToString h := h;
|}.

(** Modelled from the spec: a quota collaborator of quota.h, which is not
    among the sources, with fixed answers; the no-op implementation
    "satisfying all of the above with trivial success behaviour" never
    refuses and has no limits. *)
Record FixedQuota := mkFixedQuota {
  fq_max_file_size : Z;
  fq_capacity : Z;
  fq_pin : bool;
}.

Global Instance FixedQuota_QuotaManager : QuotaManager string FixedQuota := {|
  GetMaxFileSize := fq_max_file_size;
  GetCapacity := fq_capacity;
  Cleanup _ q := (true, q);
  Pin _ _ _ _ q := (fq_pin q, q);
  Insert _ _ _ q := q;
  InsertVolatile _ _ _ q := q;
  Touch _ q := q;
  Remove _ q := q;
  NoopQuotaManager := mkFixedQuota (2 ^ 64 - 1) (2 ^ 64 - 1) true;
|}.

(** A machine on which nothing exists yet and the given faults will occur. *)
Definition boot (script : list fault) : World string :=
  mkWorld ∅ ∅ ∅ 0 3 0 0 script [].

(** A fresh manager on /var/lib/cvmfs/shared. *)
Definition fresh (alien : bool) (script : list fault) : State string FixedQuota :=
  mkState (new_PosixCacheManager "/var/lib/cvmfs/shared" alien "example.cern.ch") (boot script).

(** The same after the alien cache was found on NFS, as Create does. *)
Definition fresh_on_nfs (script : list fault) : State string FixedQuota :=
  let s := fresh true script in
  let c := mgr s in
  mkState (mkPosixCacheManager (cache_path_ c) (txn_template_path_ c) true true
             (cache_mode_ c) (no_inflight_txns_ c) (reports_correct_filesize_ c)
             (quota_mgr_ c) (repository_name_ c)) (os s).

Definition with_quota (q : FixedQuota) (s : State string FixedQuota) : State string FixedQuota :=
  mkState (set_quota_mgr q (mgr s)) (os s).

(** 4096 bytes 'A' followed by one byte 'B'. *)
Definition blob_4097 : list byte := replicate 4096 "A"%byte ++ ["B"%byte].

Definition h1 : string := "a1b2c3d4e5f60718293a4b5c6d7e8f9012345678".

(** The state a call leaves behind, and what it returned. *)
Definition state_after {A} (m : M string FixedQuota A) (s : State string FixedQuota)
  : State string FixedQuota :=
  match m s with Ret (_, s') => s' | _ => s end.

Definition result_of {A} (m : M string FixedQuota A) (s : State string FixedQuota)
  : option A :=
  match m s with Ret (a, _) => Some a | _ => None end.

(** The transaction a successful StartTxn has constructed. *)
Definition txn_of (m : M string FixedQuota (Z * option (Transaction string)))
    (s : State string FixedQuota) : Transaction string :=
  match m s with
  | Ret ((_, Some t), _) => t
  | _ => new_Transaction h1 ""
  end.

Definition txn_after (m : M string FixedQuota (Z * Transaction string))
    (s : State string FixedQuota) : Transaction string :=
  match m s with
  | Ret ((_, t), _) => t
  | _ => new_Transaction h1 ""
  end.

(** A fresh manager after TearDown2ReadOnly. *)
Definition drained : State string FixedQuota :=
  state_after (TearDown2ReadOnly 1) (fresh false []).

(** A transaction that expects one byte in all. *)
Definition txn_expecting_1 : Transaction string :=
  mkTransaction (replicate 4096 x00) 0 0 1 3 kTypeRegular
    "/var/lib/cvmfs/shared/txn/fetch000000"
    "/var/lib/cvmfs/shared/a1/b2c3d4e5f60718293a4b5c6d7e8f9012345678" "" h1.

(** A transaction of unknown size, just started. *)
Definition started : State string FixedQuota :=
  state_after (StartTxn h1 kSizeUnknown) (fresh false []).
Definition started_txn : Transaction string :=
  txn_of (StartTxn h1 kSizeUnknown) (fresh false []).
Definition committed : State string FixedQuota :=
  state_after (CommitTxn started_txn) started.

(** Three bytes written where five were announced. *)
Definition short_txn0 : Transaction string := txn_of (StartTxn h1 5) (fresh false []).
Definition short_state0 : State string FixedQuota :=
  state_after (StartTxn h1 5) (fresh false []).
Definition short_txn : Transaction string :=
  txn_after (Write ["a"; "b"; "c"]%byte 3 short_txn0) short_state0.
Definition short_flushed : State string FixedQuota :=
  state_after (Flush short_txn) short_state0.
Definition short_flushed_txn : Transaction string :=
  txn_after (Flush short_txn) short_state0.

(** A catalog of three bytes with a quota collaborator that refuses to pin. *)
Definition no_pin : FixedQuota := mkFixedQuota (2 ^ 64 - 1) (2 ^ 64 - 1) false.
Definition cat_state0 : State string FixedQuota :=
  state_after (StartTxn h1 3) (with_quota no_pin (fresh false [])).
Definition cat_txn : Transaction string :=
  txn_after (Write ["a"; "b"; "c"]%byte 3
               (CtrlTxn "catalog" kTypeCatalog 0
                  (txn_of (StartTxn h1 3) (with_quota no_pin (fresh false [])))))
            cat_state0.
Definition cat_flushed : State string FixedQuota := state_after (Flush cat_txn) cat_state0.
Definition cat_flushed_txn : Transaction string := txn_after (Flush cat_txn) cat_state0.

(** An alien cache on NFS where the sixth system call, the unlink that
    follows the link in Rename, fails with EIO; "hello" and a newline are
    being committed. *)
Definition nfs_state0 : State string FixedQuota :=
  state_after (StartTxn h1 6)
    (fresh_on_nfs [NoFault; NoFault; NoFault; NoFault; NoFault; FailWith 5]).
Definition nfs_txn : Transaction string :=
  txn_after (Write ["h"; "e"; "l"; "l"; "o"; "010"]%byte 6
               (txn_of (StartTxn h1 6)
                  (fresh_on_nfs [NoFault; NoFault; NoFault; NoFault; NoFault; FailWith 5])))
            nfs_state0.
Definition nfs_flushed : State string FixedQuota := state_after (Flush nfs_txn) nfs_state0.
Definition nfs_flushed_txn : Transaction string := txn_after (Flush nfs_txn) nfs_state0.
Definition nfs_closed : State string FixedQuota :=
  state_after (sys (sys_close (fd nfs_txn))) nfs_flushed.
Definition nfs_chmoded : State string FixedQuota :=
  state_after (sys (sys_chmod (tmp_path nfs_txn) 432)) nfs_closed.
Definition nfs_renamed : State string FixedQuota :=
  state_after (Rename (tmp_path nfs_txn) (final_path nfs_txn)) nfs_chmoded.

Definition nfs_linked : World string :=
  (sys_link (tmp_path nfs_txn) (final_path nfs_txn) (os nfs_chmoded)).2.
Definition nfs_unlinked : World string :=
  (sys_unlink (tmp_path nfs_txn) nfs_linked).2.

(** A big file for a quota collaborator with room. *)
Definition roomy : FixedQuota := mkFixedQuota (2 ^ 40) (2 ^ 40) true.

(** A committed object of size zero. *)
Definition with_empty_object : State string FixedQuota :=
  state_after (CommitFromMem h1 [] 0 "empty") (fresh false []).

(** The blob of 4097 bytes committed from memory, and written to a
    transaction of unknown size that is then flushed by OpenFromTxn. *)
Definition blob_committed : State string FixedQuota :=
  state_after (CommitFromMem h1 blob_4097 4097 "blob") (fresh false []).
Definition blob_written : State string FixedQuota :=
  state_after (Write blob_4097 4097 started_txn) started.
Definition blob_written_txn : Transaction string :=
  txn_after (Write blob_4097 4097 started_txn) started.
Definition blob_flushed : State string FixedQuota :=
  state_after (OpenFromTxn blob_written_txn) blob_written.

(** The bytes of the file of that name. *)
Definition file_contents (path : string) (s : State string FixedQuota)
  : option (list byte) :=
  ino ← w_dir (os s) !! path; i_data <$> w_inodes (os s) !! ino.

(** Three bytes announced and written, for a regular object and for a
    catalog, and the object committed. *)
Definition abc : list byte := ["a"; "b"; "c"]%byte.
Definition abc_state0 : State string FixedQuota :=
  state_after (StartTxn h1 3) (fresh false []).
Definition abc_txn : Transaction string :=
  txn_after (Write abc 3 (txn_of (StartTxn h1 3) (fresh false []))) abc_state0.
Definition abc_catalog_txn : Transaction string := CtrlTxn "catalog" kTypeCatalog 0 abc_txn.
Definition abc_committed : State string FixedQuota :=
  state_after (CommitTxn abc_txn) abc_state0.

(** The object opened for reading. *)
Definition abc_opened : State string FixedQuota := state_after (Open h1) abc_committed.

(** A transaction whose buffer is full. *)
Definition full_txn : Transaction string :=
  txn_after (Write (replicate 4096 "A"%byte) 4096 started_txn) started.

(** Three bytes wait where the write will fail with ENOSPC, and where it
    will take one byte only. *)
Definition enospc_state0 : State string FixedQuota :=
  state_after (StartTxn h1 5) (fresh false [NoFault; FailWith 28]).
Definition partial_state0 : State string FixedQuota :=
  state_after (StartTxn h1 5) (fresh false [NoFault; Partial 1]).

(** The variables of namespace cache for the same directory, a staging
    file made by StartTransaction, and the variables after the drain-out. *)
Definition legacy_globals : cache.Globals :=
  cache.mkGlobals "/var/lib/cvmfs/shared" false false kCacheReadWrite 0 0.
Definition legacy_started : World string :=
  (cache.StartTransaction legacy_globals h1 "" "" (boot [])).2.
Definition legacy_failed : World string :=
  match cache.CommitTransaction legacy_globals "/var/lib/cvmfs/shared/a1/b2" "/nowhere" ""
          h1 false 0 (boot []) with
  | Ret (_, w) => w
  | _ => boot []
  end.

(** ** Vocabulary of the properties *)

(** [f] is one system call [c]: it appends exactly that entry to the log. *)
Definition one_syscall {hash A} (c : syscall) (f : World hash → A * World hash) : Prop :=
  ∀ w, w_log (f w).2 = w_log w ++ [EvSys c].

(** [wp strict m post s]: the call [m] in state [s] returns only with a
    result and a state that satisfy [post]; when [strict], it does return. *)
Definition wp {hash Q A} (strict : bool) (m : M hash Q A)
    (post : A → State hash Q → Prop) (s : State hash Q) : Prop :=
  match m s with
  | Ret (a, s') => post a s'
  | _ => strict = false
  end.

(** What a sequence of updates ([true] increments) makes of the counter,
    and what it leaves in the log. *)
Fixpoint counter_after (c : Z) (ups : list bool) : Z :=
  match ups with
  | [] => c
  | b :: ups' => counter_after (if b then i32 (c + 1) else i32 (c - 1)) ups'
  end.

Fixpoint counter_trace (c : Z) (ups : list bool) : list (bool * Z) :=
  match ups with
  | [] => []
  | b :: ups' =>
      let c' := if b then i32 (c + 1) else i32 (c - 1) in (b, c') :: counter_trace c' ups'
  end.

(** From [s] to [s'] the counter went through exactly the updates [ups];
    of the manager's other members only the quota collaborator may differ. *)
Definition effect {hash Q} (ups : list bool) (s s' : State hash Q) : Prop :=
  (∃ q, mgr s' = set_no_inflight_txns (counter_after (no_inflight_txns_ (mgr s)) ups)
                   (set_quota_mgr q (mgr s)))
  ∧ counter_updates (w_log (os s')) =
      counter_updates (w_log (os s)) ++ counter_trace (no_inflight_txns_ (mgr s)) ups.

(** The transaction with another expected size. *)
Definition set_expected_size {hash} (n : Z) (t : Transaction hash) : Transaction hash :=
  mkTransaction (buffer t) (buf_pos t) (txn_size t) n (fd t) (txn_type t)
                (tmp_path t) (final_path t) (description t) (txn_id t).

(** The calls through [quota_mgr_] in a log, oldest first. *)
Definition quota_calls {hash} (l : list (event hash)) : list (quota_call hash) :=
  omap (λ ev, match ev with EvQuota c => Some c | _ => None end) l.

(** The bytes that wait in the buffer of a transaction. *)
Definition pending {hash} (t : Transaction hash) : list byte :=
  take (Z.to_nat (buf_pos t)) (buffer t).

(** The staging file of [t]: it is named [tmp_path t], is the inode [ino]
    holding [data], and [fd t] is open on it for writing, at its end. *)
Definition staged {hash} (t : Transaction hash) (w : World hash) (ino : nat)
    (data : list byte) : Prop :=
  w_dir w !! tmp_path t = Some ino
  ∧ (∃ mode, w_inodes w !! ino = Some {| i_data := data; i_mode := mode |})
  ∧ w_fds w !! fd t =
      Some {| of_ino := ino; of_writable := true; of_pos := Z.of_nat (length data) |}.

(** What [Create] fixes for the life of a manager: where the cache is and
    of which kind. *)
Definition configuration {Q} (c : PosixCacheManager Q)
  : string * string * bool * bool * bool * string :=
  (cache_path_ c, txn_template_path_ c, alien_cache_ c, alien_cache_on_nfs_ c,
   reports_correct_filesize_ c, repository_name_ c).


(** * Properties *)

(** ** Machine integers *)

Lemma i32_small x : - 2 ^ 31 ≤ x < 2 ^ 31 → i32 x = x.
Proof. intros Hx. unfold i32. rewrite Z.mod_small by lia. lia. Qed.

Lemma i32_range x : - 2 ^ 31 ≤ i32 x < 2 ^ 31.
Proof. unfold i32. pose proof (Z.mod_pos_bound (x + 2 ^ 31) (2 ^ 32)). lia. Qed.

Lemma i32_add_l x y : i32 (i32 x + y) = i32 (x + y).
Proof.
  unfold i32.
  replace (x + 2 ^ 31) with (x + 2 ^ 31 + 0) by lia.
  f_equal.
  replace ((x + 2 ^ 31 + 0) `mod` 2 ^ 32 - 2 ^ 31 + y + 2 ^ 31)
    with ((x + 2 ^ 31 + 0) `mod` 2 ^ 32 + y) by lia.
  rewrite Zplus_mod_idemp_l. f_equal. lia.
Qed.

Lemma i32_inc_dec x : i32 (i32 (x + 1) - 1) = i32 x.
Proof.
  replace (i32 (x + 1) - 1) with (i32 (x + 1) + (-1)) by lia.
  rewrite i32_add_l. f_equal. lia.
Qed.

Lemma u64_small x : 0 ≤ x < 2 ^ 64 → u64 x = x.
Proof. intros Hx. unfold u64. by rewrite Z.mod_small. Qed.

Lemma u64_range x : 0 ≤ u64 x < 2 ^ 64.
Proof. unfold u64. apply Z.mod_pos_bound. lia. Qed.

Lemma u32_small x : 0 ≤ x < 2 ^ 32 → u32 x = x.
Proof. intros Hx. unfold u32. by rewrite Z.mod_small. Qed.

Lemma u32_range x : 0 ≤ u32 x < 2 ^ 32.
Proof. unfold u32. apply Z.mod_pos_bound. lia. Qed.

Lemma i64_small x : - 2 ^ 63 ≤ x < 2 ^ 63 → i64 x = x.
Proof. intros Hx. unfold i64. rewrite Z.mod_small by lia. lia. Qed.

(** ** The monad *)

Section MonadFacts.
Context {hash Q : Type}.
Implicit Type s : State hash Q.

Lemma bind_eq {A B} (m : M hash Q A) (f : A → M hash Q B) s :
  (m ≫= f) s = match m s with
               | Ret (a, s') => f a s'
               | Aborted => Aborted
               | OutOfFuel => OutOfFuel
               end.
Proof. reflexivity. Qed.

Lemma bind_Ret {A B} (m : M hash Q A) (f : A → M hash Q B) s a s' :
  m s = Ret (a, s') → (m ≫= f) s = f a s'.
Proof. intros Hm. rewrite bind_eq, Hm. reflexivity. Qed.

Lemma bind_Ret_inv {A B} (m : M hash Q A) (f : A → M hash Q B) s b s2 :
  (m ≫= f) s = Ret (b, s2) → ∃ a s1, m s = Ret (a, s1) ∧ f a s1 = Ret (b, s2).
Proof.
  rewrite bind_eq. destruct (m s) as [[a s1]| |]; [|done..]. eauto.
Qed.

Lemma bind_ext {A B} (m : M hash Q A) (f g : A → M hash Q B) s :
  (∀ a s', m s = Ret (a, s') → f a s' = g a s') → (m ≫= f) s = (m ≫= g) s.
Proof. intros Hfg. rewrite !bind_eq. destruct (m s) as [[a s']| |]; auto. Qed.

Lemma sys_mgr {A} (f : World hash → A * World hash) s a s' :
  sys (Q:=Q) f s = Ret (a, s') → mgr s' = mgr s.
Proof. unfold sys. destruct (f (os s)). by intros [= _ <-]. Qed.

Lemma bind_gets {A B} (f : PosixCacheManager Q → A) (k : A → M hash Q B) s :
  (gets f ≫= k) s = k (f (mgr s)) s.
Proof. reflexivity. Qed.

Lemma mgr_eta (c : PosixCacheManager Q) :
  mkPosixCacheManager (cache_path_ c) (txn_template_path_ c) (alien_cache_ c)
    (alien_cache_on_nfs_ c) (cache_mode_ c) (no_inflight_txns_ c)
    (reports_correct_filesize_ c) (quota_mgr_ c) (repository_name_ c) = c.
Proof. by destruct c. Qed.

Lemma set_no_inflight_txns_id (c : PosixCacheManager Q) v :
  v = no_inflight_txns_ c → set_no_inflight_txns v c = c.
Proof. intros ->. apply mgr_eta. Qed.

Lemma set_no_inflight_txns_twice (c : PosixCacheManager Q) v v' :
  set_no_inflight_txns v (set_no_inflight_txns v' c) = set_no_inflight_txns v c.
Proof. reflexivity. Qed.

End MonadFacts.

(** ** The operating system: what each call logs *)

Section OSFacts.
Context {hash : Type}.
Implicit Type w : World hash.


Ltac os_crush :=
  intros w; cbv beta delta [enter fail w_new_fd w_new_inode do_write file_of_fd] ; simpl;
  repeat (case_match; simpl in *; simplify_eq; try done).

Lemma sys_open_rdonly_log path : one_syscall (SysOpen path) (sys_open_rdonly (hash:=hash) path).
Proof. unfold sys_open_rdonly. os_crush. Qed.

Lemma sys_close_log fd : one_syscall (SysClose fd) (sys_close (hash:=hash) fd).
Proof. unfold sys_close. os_crush. Qed.

Lemma sys_write_log fd bytes :
  one_syscall (SysWrite fd (Z.of_nat (length bytes))) (sys_write (hash:=hash) fd bytes).
Proof. unfold sys_write. os_crush. Qed.

Lemma sys_pread_log fd count offset :
  one_syscall (SysPread fd count offset)
    (λ w, let '(r, d, w') := sys_pread (hash:=hash) fd count offset w in ((r, d), w')).
Proof. unfold sys_pread. os_crush. Qed.

Lemma sys_fstat_log fd :
  one_syscall (SysFstat fd)
    (λ w, let '(r, sz, w') := sys_fstat (hash:=hash) fd w in ((r, sz), w')).
Proof. unfold sys_fstat. os_crush. Qed.

Lemma sys_lseek0_log fd : one_syscall (SysLseek fd) (sys_lseek0 (hash:=hash) fd).
Proof. unfold sys_lseek0. os_crush. Qed.

Lemma sys_ftruncate0_log fd : one_syscall (SysFtruncate fd) (sys_ftruncate0 (hash:=hash) fd).
Proof. unfold sys_ftruncate0. os_crush. Qed.

Lemma sys_unlink_log path : one_syscall (SysUnlink path) (sys_unlink (hash:=hash) path).
Proof. unfold sys_unlink. os_crush. Qed.

Lemma sys_rename_log old new :
  one_syscall (SysRename old new) (sys_rename (hash:=hash) old new).
Proof. unfold sys_rename. os_crush. Qed.

Lemma sys_link_log old new : one_syscall (SysLink old new) (sys_link (hash:=hash) old new).
Proof. unfold sys_link. os_crush. Qed.

Lemma sys_chmod_log path mode :
  one_syscall (SysChmod path mode) (sys_chmod (hash:=hash) path mode).
Proof. unfold sys_chmod. os_crush. Qed.

Lemma sys_mkstemp_log template :
  one_syscall (SysMkstemp template)
    (λ w, let '(r, p, w') := sys_mkstemp (hash:=hash) template w in ((r, p), w')).
Proof. unfold sys_mkstemp. os_crush. Qed.

Lemma CopyPath2Path_os_log src dest :
  one_syscall (SysCopyPath2Path src dest) (CopyPath2Path_os (hash:=hash) src dest).
Proof. unfold CopyPath2Path_os. os_crush. Qed.

Lemma counter_updates_app (l1 l2 : list (event hash)) :
  counter_updates (l1 ++ l2) = counter_updates l1 ++ counter_updates l2.
Proof. apply omap_app. Qed.

Lemma syscalls_app (l1 l2 : list (event hash)) :
  syscalls (l1 ++ l2) = syscalls l1 ++ syscalls l2.
Proof. apply omap_app. Qed.

Lemma counter_updates_snoc_inc (l : list (event hash)) v :
  counter_updates (l ++ [EvAtomicInc v]) = counter_updates l ++ [(true, v)].
Proof. apply counter_updates_app. Qed.

Lemma counter_updates_snoc_dec (l : list (event hash)) v :
  counter_updates (l ++ [EvAtomicDec v]) = counter_updates l ++ [(false, v)].
Proof. apply counter_updates_app. Qed.

Lemma counter_updates_snoc_sys (l : list (event hash)) c :
  counter_updates (l ++ [EvSys c]) = counter_updates l.
Proof. rewrite counter_updates_app. apply app_nil_r. Qed.

Lemma counter_updates_snoc_quota (l : list (event hash)) c :
  counter_updates (l ++ [EvQuota c]) = counter_updates l.
Proof. rewrite counter_updates_app. apply app_nil_r. Qed.

Lemma one_syscall_counter_updates {A} c (f : World hash → A * World hash) w :
  one_syscall c f → counter_updates (w_log (f w).2) = counter_updates (w_log w).
Proof.
  intros Hf. rewrite Hf. apply counter_updates_snoc_sys.
Qed.

End OSFacts.

Global Arguments counter_updates : simpl never.

Create HintDb os_log.

Global Hint Resolve sys_open_rdonly_log sys_close_log sys_write_log sys_pread_log
  sys_fstat_log sys_lseek0_log sys_ftruncate0_log sys_unlink_log sys_rename_log
  sys_link_log sys_chmod_log sys_mkstemp_log CopyPath2Path_os_log : os_log.

(** ** Weakest preconditions *)

Section Hoare.
Context {hash Q : Type}.
Implicit Type s : State hash Q.


Lemma wp_Ret {A} strict (m : M hash Q A) post s a s' :
  wp strict m post s → m s = Ret (a, s') → post a s'.
Proof. unfold wp. intros Hwp Heq. by rewrite Heq in Hwp. Qed.

Lemma wp_returns {A} (m : M hash Q A) post s :
  wp true m post s → ∃ a s', m s = Ret (a, s') ∧ post a s'.
Proof. unfold wp. destruct (m s) as [[a s']| |]; [eauto|done..]. Qed.

Lemma wp_returns_eq {A} (m : M hash Q A) s a s' :
  wp true m (λ b s'', b = a ∧ s'' = s') s → m s = Ret (a, s').
Proof. intros (b & s'' & -> & -> & ->)%wp_returns. done. Qed.

Lemma wp_mono {A} strict (m : M hash Q A) (post post' : A → State hash Q → Prop) s :
  wp strict m post s → (∀ a s', post a s' → post' a s') → wp strict m post' s.
Proof. unfold wp. destruct (m s) as [[a s']| |]; auto. Qed.

Lemma wp_frame {A} (m : M hash Q A) (post : A → State hash Q → Prop) s :
  (∀ a s', m s = Ret (a, s') → post a s') → wp false m post s.
Proof. unfold wp. destruct (m s) as [[a s']| |]; auto. Qed.

Lemma wp_known {A} strict (m : M hash Q A) post s a s' :
  m s = Ret (a, s') → post a s' → wp strict m post s.
Proof. unfold wp. by intros ->. Qed.

Lemma wp_ret {A} strict (a : A) post s : post a s → wp strict (mret a) post s.
Proof. done. Qed.

Lemma wp_bind {A B} strict (m : M hash Q A) (f : A → M hash Q B) post s :
  wp strict m (λ a s', wp strict (f a) post s') s → wp strict (m ≫= f) post s.
Proof. unfold wp. rewrite bind_eq. by destruct (m s) as [[a s']| |]. Qed.

Lemma wp_gets {A} strict (f : PosixCacheManager Q → A) post s :
  post (f (mgr s)) s → wp strict (gets f) post s.
Proof. done. Qed.

Lemma wp_errno strict post s : post (w_errno (os s)) s → wp strict errno post s.
Proof. done. Qed.

Lemma wp_assert b post s : (b = true → post tt s) → wp false (assert b) post s.
Proof. unfold wp, assert. destruct b; auto. Qed.

Lemma wp_assert_strict b post s : b = true → post tt s → wp true (assert b) post s.
Proof. unfold wp, assert. by intros ->. Qed.

Lemma wp_out_of_fuel {A} post s : wp false (out_of_fuel (A:=A)) post s.
Proof. done. Qed.

Lemma wp_SafeSleepMs strict ms post s : post tt s → wp strict (SafeSleepMs ms) post s.
Proof. done. Qed.

Lemma wp_sys {A} strict c (f : World hash → A * World hash) post s :
  one_syscall c f →
  (∀ a w', f (os s) = (a, w') →
           w_log w' = w_log (os s) ++ [EvSys c] →
           post a (mkState (mgr s) w')) →
  wp strict (sys f) post s.
Proof.
  intros Hf Hpost. unfold wp, sys.
  pose proof (Hf (os s)) as Hlog.
  destruct (f (os s)) as [a w'] eqn:Heq. by apply Hpost.
Qed.

Lemma wp_sys_known {A} strict (f : World hash → A * World hash) post s a w' :
  f (os s) = (a, w') → post a (mkState (mgr s) w') → wp strict (sys f) post s.
Proof. intros Hf Hpost. unfold wp, sys. by rewrite Hf. Qed.

Lemma wp_atomic_inc32 strict post s :
  post tt (mkState (set_no_inflight_txns (i32 (no_inflight_txns_ (mgr s) + 1)) (mgr s))
             (w_emit (EvAtomicInc (i32 (no_inflight_txns_ (mgr s) + 1))) (os s))) →
  wp strict atomic_inc32 post s.
Proof. done. Qed.

Lemma wp_atomic_dec32 strict post s :
  post tt (mkState (set_no_inflight_txns (i32 (no_inflight_txns_ (mgr s) - 1)) (mgr s))
             (w_emit (EvAtomicDec (i32 (no_inflight_txns_ (mgr s) - 1))) (os s))) →
  wp strict atomic_dec32 post s.
Proof. done. Qed.

Lemma wp_atomic_read32 strict post s :
  post (no_inflight_txns_ (mgr s)) s → wp strict atomic_read32 post s.
Proof. done. Qed.

Lemma wp_set_cache_mode strict m post s :
  post tt (mkState (mkPosixCacheManager (cache_path_ (mgr s)) (txn_template_path_ (mgr s))
                      (alien_cache_ (mgr s)) (alien_cache_on_nfs_ (mgr s)) m
                      (no_inflight_txns_ (mgr s)) (reports_correct_filesize_ (mgr s))
                      (quota_mgr_ (mgr s)) (repository_name_ (mgr s))) (os s)) →
  wp strict (set_cache_mode m) post s.
Proof. done. Qed.

Lemma wp_quota_call_with {A} strict c (f : Q → A * Q) post s :
  (∀ a q, f (quota_mgr_ (mgr s)) = (a, q) →
          post a (mkState (set_quota_mgr q (mgr s)) (w_emit (EvQuota c) (os s)))) →
  wp strict (quota_call_with c f) post s.
Proof.
  intros Hpost. unfold wp, quota_call_with.
  destruct (f (quota_mgr_ (mgr s))) as [a q] eqn:Heq. by apply Hpost.
Qed.

End Hoare.

Global Arguments wp : simpl never.

(** ** The in-flight counter through the methods *)


Ltac wp_prim :=
  lazymatch goal with
  | |- wp _ (mbind _ _) _ _ => apply wp_bind
  | |- wp _ (mret _) _ _ => apply wp_ret
  | |- wp _ (gets _) _ _ => apply wp_gets
  | |- wp _ errno _ _ => apply wp_errno
  | |- wp _ (assert _) _ _ => first [apply wp_assert; intros ? | apply wp_assert_strict; [try done|]]
  | |- wp _ out_of_fuel _ _ => apply wp_out_of_fuel
  | |- wp _ (SafeSleepMs _) _ _ => apply wp_SafeSleepMs
  | |- wp _ atomic_inc32 _ _ => apply wp_atomic_inc32
  | |- wp _ atomic_dec32 _ _ => apply wp_atomic_dec32
  | |- wp _ atomic_read32 _ _ => apply wp_atomic_read32
  | |- wp _ (set_cache_mode _) _ _ => apply wp_set_cache_mode
  | |- wp _ (quota_call_with _ _) _ _ => apply wp_quota_call_with; intros ? ? ?
  | |- wp _ (quota_GetMaxFileSize) _ _ => apply wp_gets
  | |- wp _ (quota_GetCapacity) _ _ => apply wp_gets
  | |- wp _ (GetPathInCache _) _ _ => apply wp_gets
  | |- wp _ (quota_Cleanup _) _ _ => unfold quota_Cleanup
  | |- wp _ (quota_Pin _ _ _ _) _ _ => unfold quota_Pin
  | |- wp _ (quota_Insert _ _ _) _ _ => unfold quota_Insert
  | |- wp _ (quota_InsertVolatile _ _ _) _ _ => unfold quota_InsertVolatile
  | |- wp _ (quota_Touch _) _ _ => unfold quota_Touch
  | |- wp _ (quota_Remove _) _ _ => unfold quota_Remove
  | |- wp _ (CopyPath2Path _ _) _ _ =>
      eapply wp_sys; [apply CopyPath2Path_os_log | intros ? ? ? ?]
  | |- wp _ (sys _) _ _ => eapply wp_sys; [solve [eauto with os_log] | intros ? ? ? ?]
  | |- wp _ (if ?c then _ else _) _ _ => destruct c eqn:?
  | |- wp _ (match ?x with _ => _ end) _ _ => destruct x eqn:?
  | |- wp _ (let '(_, _) := ?x in _) _ _ => destruct x eqn:?
  end.

Ltac st_simpl :=
  cbv beta;
  cbn [mgr os fst snd cache_path_ txn_template_path_ alien_cache_ alien_cache_on_nfs_
       cache_mode_ no_inflight_txns_ reports_correct_filesize_ quota_mgr_
       repository_name_ set_no_inflight_txns set_quota_mgr
       w_log w_errno w_emit] in *.

Ltac wp_go := repeat (wp_prim; st_simpl).

Ltac effect_done :=
  split;
  [ lazymatch goal with
    | |- ∃ q, mgr {| mgr := ?m; os := _ |} = _ => exists (quota_mgr_ m); reflexivity
    end
  | cbn;
    repeat first
      [ progress cbn [w_log w_emit]
      | rewrite counter_updates_snoc_inc
      | rewrite counter_updates_snoc_dec
      | rewrite counter_updates_snoc_sys
      | rewrite counter_updates_snoc_quota
      | match goal with
        | H : counter_updates (w_log ?w) = _ |- context [counter_updates (w_log ?w)] =>
            rewrite H
        | H : w_log ?w = _ |- context [w_log ?w] => rewrite H
        end ];
    rewrite ?app_nil_r, <- ?app_assoc; try reflexivity ].

Section Counter.
Context {hash Q : Type} `{ShashAny hash} `{QuotaManager hash Q}.
Implicit Type s : State hash Q.
Implicit Type t : Transaction hash.

Lemma effect_refl s : effect [] s s.
Proof.
  destruct s as [[] w]. split; [eexists; cbn; reflexivity|]. cbn. by rewrite app_nil_r.
Qed.

Lemma Flush_effect t s :
  wp false (Flush t) (λ _ s', effect [] s s') s.
Proof.
  destruct s as [[] w]. unfold Flush. wp_go; effect_done.
Qed.

Lemma counter_after_app c u1 u2 :
  counter_after c (u1 ++ u2) = counter_after (counter_after c u1) u2.
Proof. revert c. induction u1 as [|b u1 IH]; intros c; cbn; [done|]. apply IH. Qed.

Lemma counter_trace_app c u1 u2 :
  counter_trace c (u1 ++ u2) = counter_trace c u1 ++ counter_trace (counter_after c u1) u2.
Proof.
  revert c. induction u1 as [|b u1 IH]; intros c; cbn; [done|]. by rewrite IH.
Qed.

Lemma effect_trans u1 u2 s s1 s2 :
  effect u1 s s1 → effect u2 s1 s2 → effect (u1 ++ u2) s s2.
Proof.
  destruct s as [[] w], s1 as [c1 w1], s2 as [c2 w2].
  intros [[q1 Hm1] Hl1] [[q2 Hm2] Hl2]. cbn in *. subst c1. cbn in *. subst c2.
  split.
  - exists q2. cbn. by rewrite counter_after_app.
  - cbn. rewrite Hl2, Hl1, counter_trace_app, <- app_assoc. done.
Qed.

Lemma effect_counter ups s s' :
  effect ups s s' →
  no_inflight_txns_ (mgr s') = counter_after (no_inflight_txns_ (mgr s)) ups.
Proof. intros [[q ->] _]. done. Qed.

Lemma effect_cache_mode ups s s' :
  effect ups s s' → cache_mode_ (mgr s') = cache_mode_ (mgr s).
Proof. intros [[q ->] _]. done. Qed.

Lemma Rename_effect old new s :
  wp false (Rename old new) (λ _ s', effect [] s s') s.
Proof.
  destruct s as [[] w]. unfold Rename. wp_go; effect_done.
Qed.

Lemma AbortTxn_effect t s :
  wp false (AbortTxn t) (λ _ s', effect [false] s s') s.
Proof.
  destruct s as [[] w]. unfold AbortTxn. wp_go; effect_done.
Qed.

End Counter.

(** Using the effect of a method that is called by another one: the state
    it returns is made explicit again. *)
Ltac effect_intro :=
  let Hm := fresh "Hm" in
  let Hl := fresh "Hl" in
  intros ? [? ?] [[? Hm] Hl]; cbn in Hm, Hl; subst; st_simpl.

Tactic Notation "wp_call" open_constr(L) :=
  eapply wp_mono; [apply L|]; effect_intro.

Ltac wp_method :=
  lazymatch goal with
  | |- wp _ (Flush _) _ _ => wp_call Flush_effect
  | |- wp _ (Rename _ _) _ _ => wp_call Rename_effect
  | |- wp _ (AbortTxn _) _ _ => wp_call AbortTxn_effect
  | _ => wp_prim
  end.

Ltac wp_run := repeat (wp_method; st_simpl).

Section Counter2.
Context {hash Q : Type} `{ShashAny hash} `{QuotaManager hash Q}.
Implicit Type s : State hash Q.
Implicit Type t : Transaction hash.

Lemma CommitTxn_effect t s :
  wp false (CommitTxn t) (λ _ s', effect [false] s s') s.
Proof.
  destruct s as [[] w]. unfold CommitTxn. wp_run; effect_done.
Qed.

Lemma sys_mkstemp_result template (w : World hash) r p w' :
  sys_mkstemp template w = (r, p, w') → (r = -1 ∧ 0 < w_errno w') ∨ 0 ≤ r.
Proof.
  unfold sys_mkstemp, enter, w_new_inode, w_new_fd. cbn.
  repeat (case_match; cbn in *; simplify_eq; try done);
    intros; simplify_eq; cbn; unfold EEXIST, EINVAL; lia.
Qed.

Lemma StartTxn_effect id size s :
  wp false (StartTxn id size)
     (λ '(r, ot) s', match ot with
                     | Some _ => 0 ≤ r ∧ effect [true] s s'
                     | None => r < 0 ∧ effect [true; false] s s'
                     end) s.
Proof.
  destruct s as [[] w]. unfold StartTxn. wp_run.
  all: try (split; [unfold EROFS, ENOSPC; lia | effect_done]).
  all: match goal with
       | Hc : context [sys_mkstemp ?tp ?w0] |- _ =>
           destruct (sys_mkstemp tp w0) as [[? ?] ?] eqn:Hmk; simplify_eq;
           apply sys_mkstemp_result in Hmk
       end.
  all: (split; [lia | effect_done]).
Qed.

Lemma Write_loop_effect fuel buf size written t s :
  wp false (Write_loop fuel buf size written t) (λ _ s', effect [] s s') s.
Proof.
  revert written t s. induction fuel as [|fuel IH]; intros written t s.
  - destruct s as [[] w]. cbn. wp_run; effect_done.
  - destruct s as [[] w]. cbn [Write_loop]. wp_run; try effect_done.
    all: eapply wp_mono; [apply IH|]; effect_intro; effect_done.
Qed.

Lemma Write_effect buf size t s :
  wp false (Write buf size t) (λ _ s', effect [] s s') s.
Proof.
  unfold Write. case_match.
  - apply wp_ret, effect_refl.
  - apply Write_loop_effect.
Qed.

Lemma Reset_effect t s : wp false (Reset t) (λ _ s', effect [] s s') s.
Proof. destruct s as [[] w]. unfold Reset. wp_run; effect_done. Qed.

Lemma OpenFromTxn_effect t s : wp false (OpenFromTxn t) (λ _ s', effect [] s s') s.
Proof. destruct s as [[] w]. unfold OpenFromTxn. wp_run; effect_done. Qed.

Lemma Open_effect id s : wp false (Open id) (λ _ s', effect [] s s') s.
Proof. destruct s as [[] w]. unfold Open. wp_run; effect_done. Qed.

Lemma GetSize_effect fd s : wp false (GetSize fd) (λ _ s', effect [] s s') s.
Proof. destruct s as [[] w]. unfold GetSize. wp_run; effect_done. Qed.

Lemma Pread_effect fd size offset s : wp false (Pread fd size offset) (λ _ s', effect [] s s') s.
Proof. destruct s as [[] w]. unfold Pread. wp_run; effect_done. Qed.

Lemma Close_effect fd s : wp false (Close fd) (λ _ s', effect [] s s') s.
Proof. destruct s as [[] w]. unfold Close. wp_run; effect_done. Qed.

End Counter2.

Ltac wp_method ::=
  lazymatch goal with
  | |- wp _ (Flush _) _ _ => wp_call Flush_effect
  | |- wp _ (Rename _ _) _ _ => wp_call Rename_effect
  | |- wp _ (AbortTxn _) _ _ => wp_call AbortTxn_effect
  | |- wp _ (CommitTxn _) _ _ => wp_call CommitTxn_effect
  | |- wp _ (Write _ _ _) _ _ => wp_call Write_effect
  | |- wp _ (Open _) _ _ => wp_call Open_effect
  | |- wp _ (GetSize _) _ _ => wp_call GetSize_effect
  | |- wp _ (Pread _ _ _) _ _ => wp_call Pread_effect
  | |- wp _ (Close _) _ _ => wp_call Close_effect
  | _ => wp_prim
  end.

Section Counter3.
Context {hash Q : Type} `{ShashAny hash} `{QuotaManager hash Q}.
Implicit Type s : State hash Q.
Implicit Type t : Transaction hash.

Lemma Open2Mem_effect id s : wp false (Open2Mem id) (λ _ s', effect [] s s') s.
Proof. destruct s as [[] w]. unfold Open2Mem. wp_run; effect_done. Qed.

Lemma CommitFromMem_effect id buf size desc s :
  wp false (CommitFromMem id buf size desc) (λ _ s', effect [true; false] s s') s.
Proof.
  destruct s as [[] w]. unfold CommitFromMem.
  apply wp_bind. eapply wp_mono; [apply StartTxn_effect|].
  intros [r [t|]] [c1 w1]; cbv beta.
  - intros [Hr [[q Hm] Hl]]; cbn in Hm, Hl; subst. wp_run; try effect_done. lia.
  - intros [Hr [[q Hm] Hl]]; cbn in Hm, Hl; subst. wp_run; try effect_done. lia.
Qed.

Lemma drain_loop_effect fuel s :
  wp false (drain_loop fuel) (λ _ s', s' = s ∧ no_inflight_txns_ (mgr s) = 0) s.
Proof.
  induction fuel as [|fuel IH]; cbn [drain_loop]; wp_go.
  - apply IH.
  - split; [done|]. by apply dec_stable.
Qed.

Lemma TearDown2ReadOnly_effect fuel s :
  wp false (TearDown2ReadOnly fuel)
     (λ _ s', cache_mode_ (mgr s') = kCacheReadOnly
              ∧ no_inflight_txns_ (mgr s) = 0
              ∧ no_inflight_txns_ (mgr s') = 0
              ∧ counter_updates (w_log (os s')) = counter_updates (w_log (os s))) s.
Proof.
  destruct s as [[] w]. unfold TearDown2ReadOnly.
  wp_go. eapply wp_mono; [apply drain_loop_effect|].
  intros _ s' [-> Hz]. cbn in Hz. subst.
  apply wp_bind. unfold wp at 1. cbn.
  wp_go. cbn. repeat split; try done.
  match goal with Hlog : w_log _ = _ |- _ => rewrite Hlog end.
  apply counter_updates_snoc_sys.
Qed.

Lemma drain_loop_returns fuel s :
  no_inflight_txns_ (mgr s) = 0 → drain_loop (S fuel) s = Ret (tt, s).
Proof.
  intros Hz. cbn. rewrite bind_eq. cbn. rewrite Hz. done.
Qed.

Lemma TearDown2ReadOnly_returns fuel s :
  no_inflight_txns_ (mgr s) = 0 → ∃ s', TearDown2ReadOnly (S fuel) s = Ret (tt, s').
Proof.
  intros Hz. unfold TearDown2ReadOnly.
  rewrite bind_eq. cbn [set_cache_mode]. rewrite bind_eq.
  rewrite drain_loop_returns by done.
  rewrite bind_eq. rewrite bind_eq. cbn [gets mgr].
  rewrite bind_eq. unfold sys. cbn [os].
  destruct (sys_unlink _ _) as [r w']. eauto.
Qed.

End Counter3.

(** ** Invariants of a client's run *)

(** What the effect lemma of a method says about a run of it at hand. *)
Tactic Notation "from_run" open_constr(L) "as" simple_intropattern(pat) :=
  match goal with
  | Hrun : _ = Ret _ |- _ =>
      let Hn := fresh in
      pose proof (wp_Ret _ _ _ _ _ _ L Hrun) as Hn; cbv beta in Hn; revert Hn; intros pat
  end.

Section Runs.
Context {hash Q : Type} `{ShashAny hash} `{QuotaManager hash Q}.
Implicit Type s : State hash Q.
Implicit Type live : list (Transaction hash).

Lemma counter_after_length (n : nat) (ups : list bool) (m : nat) c :
  c = i32 (Z.of_nat n) →
  (ups = [] ∧ m = n) ∨ (ups = [true] ∧ m = S n) ∨ (ups = [false] ∧ n = S m)
  ∨ (ups = [true; false] ∧ m = n) →
  counter_after c ups = i32 (Z.of_nat m).
Proof.
  intros -> [[-> ->]|[[-> ->]|[[-> ->]|[-> ->]]]]; cbn.
  - done.
  - rewrite i32_add_l. f_equal. lia.
  - replace (i32 (Z.of_nat (S m)) - 1) with (i32 (Z.of_nat (S m)) + -1) by lia.
    rewrite i32_add_l. f_equal. lia.
  - rewrite i32_inc_dec. apply i32_small, i32_range.
Qed.

Lemma step_invariants s live s' live' :
  step (s, live) (s', live') →
  (cache_mode_ (mgr s) = kCacheReadOnly → cache_mode_ (mgr s') = kCacheReadOnly)
  ∧ (no_inflight_txns_ (mgr s) = i32 (Z.of_nat (length live)) →
     no_inflight_txns_ (mgr s') = i32 (Z.of_nat (length live'))).
Proof.
  assert (Hgen : ∀ ups, effect ups s s' →
            (ups = [] ∧ length live' = length live)
            ∨ (ups = [true] ∧ length live' = S (length live))
            ∨ (ups = [false] ∧ length live = S (length live'))
            ∨ (ups = [true; false] ∧ length live' = length live) →
            (cache_mode_ (mgr s) = kCacheReadOnly → cache_mode_ (mgr s') = kCacheReadOnly)
            ∧ (no_inflight_txns_ (mgr s) = i32 (Z.of_nat (length live)) →
               no_inflight_txns_ (mgr s') = i32 (Z.of_nat (length live')))).
  { intros ups Heff Hups. split.
    - intros Hro. by rewrite (effect_cache_mode _ _ _ Heff).
    - intros Hc. rewrite (effect_counter _ _ _ Heff).
      by apply (counter_after_length (length live)). }
  inversion 1; subst.
  - from_run (StartTxn_effect _ _ _) as [_ Heff].
    eapply Hgen; [done|]. cbn. auto.
  - from_run (StartTxn_effect _ _ _) as [_ Heff].
    eapply Hgen; [done|]. auto 10.
  - apply (Hgen []); [apply effect_refl|]. left. by rewrite !length_app.
  - from_run (Write_effect _ _ _ _) as Heff.
    eapply Hgen; [done|]. left. by rewrite !length_app.
  - from_run (Reset_effect _ _) as Heff.
    eapply Hgen; [done|]. left. by rewrite !length_app.
  - from_run (OpenFromTxn_effect _ _) as Heff.
    eapply Hgen; [done|]. left. by rewrite !length_app.
  - from_run (CommitTxn_effect _ _) as Heff.
    eapply Hgen; [done|]. right; right; left. rewrite !length_app. cbn. split; [done|lia].
  - from_run (AbortTxn_effect _ _) as Heff.
    eapply Hgen; [done|]. right; right; left. rewrite !length_app. cbn. split; [done|lia].
  - from_run (Open_effect _ _) as Heff. eapply Hgen; [done|]. auto.
  - from_run (GetSize_effect _ _) as Heff. eapply Hgen; [done|]. auto.
  - from_run (Pread_effect _ _ _ _) as Heff. eapply Hgen; [done|]. auto.
  - from_run (Close_effect _ _) as Heff. eapply Hgen; [done|]. auto.
  - from_run (Open2Mem_effect _ _) as Heff. eapply Hgen; [done|]. auto.
  - from_run (CommitFromMem_effect _ _ _ _ _) as Heff. eapply Hgen; [done|]. auto 10.
  - from_run (TearDown2ReadOnly_effect _ _) as (Hro & Hz & Hz' & _).
    split; [done|]. intros Hc. congruence.
Qed.

Lemma steps_invariants c c' :
  steps c c' →
  (cache_mode_ (mgr c.1) = kCacheReadOnly → cache_mode_ (mgr c'.1) = kCacheReadOnly)
  ∧ (no_inflight_txns_ (mgr c.1) = i32 (Z.of_nat (length c.2)) →
     no_inflight_txns_ (mgr c'.1) = i32 (Z.of_nat (length c'.2))).
Proof.
  induction 1 as [c|c1 c2 c3 Hsteps IH Hstep]; [done|].
  destruct c2 as [s2 l2], c3 as [s3 l3].
  apply step_invariants in Hstep. cbn [fst snd] in *.
  destruct IH as [IH1 IH2], Hstep as [Hs1 Hs2]. split; auto.
Qed.

(** C9.  The in-flight-transactions counter is balanced.  A StartTxn that
    returns a descriptor (a non-negative value) has incremented the counter
    exactly once; a StartTxn that returns an error has incremented and then
    decremented it exactly once; every CommitTxn and every AbortTxn that
    returns, on whatever path, has decremented it exactly once.  Hence after
    any run of calls the counter is the number of transactions started and
    not yet committed or aborted (as an int32), and with none of them left
    the wait loop of TearDown2ReadOnly ends at once; it only ever ends with
    the counter at zero. *)
Theorem inflight_counter_balanced :
  (∀ id size (s : State hash Q) r ot s',
     StartTxn id size s = Ret ((r, ot), s') →
     let c := no_inflight_txns_ (mgr s) in
     (0 ≤ r ∨ r < 0)
     ∧ (0 ≤ r →
        is_Some ot
        ∧ no_inflight_txns_ (mgr s') = i32 (c + 1)
        ∧ counter_updates (w_log (os s')) =
            counter_updates (w_log (os s)) ++ [(true, i32 (c + 1))])
     ∧ (r < 0 →
        ot = None
        ∧ no_inflight_txns_ (mgr s') = i32 c
        ∧ counter_updates (w_log (os s')) =
            counter_updates (w_log (os s)) ++ [(true, i32 (c + 1)); (false, i32 c)]))
  ∧ (∀ t (s : State hash Q) r s',
       CommitTxn t s = Ret (r, s') →
       let c := no_inflight_txns_ (mgr s) in
       no_inflight_txns_ (mgr s') = i32 (c - 1)
       ∧ counter_updates (w_log (os s')) =
           counter_updates (w_log (os s)) ++ [(false, i32 (c - 1))])
  ∧ (∀ t (s : State hash Q) r s',
       AbortTxn t s = Ret (r, s') →
       let c := no_inflight_txns_ (mgr s) in
       no_inflight_txns_ (mgr s') = i32 (c - 1)
       ∧ counter_updates (w_log (os s')) =
           counter_updates (w_log (os s)) ++ [(false, i32 (c - 1))])
  ∧ (∀ (s0 : State hash Q) live0 s live,
       steps (s0, live0) (s, live) →
       no_inflight_txns_ (mgr s0) = i32 (Z.of_nat (length live0)) →
       no_inflight_txns_ (mgr s) = i32 (Z.of_nat (length live))
       ∧ (Z.of_nat (length live) < 2 ^ 31 →
          no_inflight_txns_ (mgr s) = Z.of_nat (length live))
       ∧ (live = [] → ∀ fuel, ∃ s', TearDown2ReadOnly (S fuel) s = Ret (tt, s')))
  ∧ (∀ fuel (s : State hash Q) s',
       TearDown2ReadOnly fuel s = Ret (tt, s') → no_inflight_txns_ (mgr s) = 0).
Proof.
  split; [|split; [|split; [|split]]].
  - intros id size s r ot s' Hrun c.
    from_run (StartTxn_effect _ _ _) as Heff.
    destruct ot as [t|]; destruct Heff as [Hr [[q Hm] Hl]].
    + split; [lia|]. split; [|lia]. intros _. split; [done|]. by rewrite Hm.
    + split; [lia|]. split; [lia|]. intros _. split; [done|].
      rewrite Hm, Hl. cbn. by rewrite !i32_inc_dec.
  - intros t s r s' Hrun c. from_run (CommitTxn_effect _ _) as [[q Hm] Hl].
    by rewrite Hm, Hl.
  - intros t s r s' Hrun c. from_run (AbortTxn_effect _ _) as [[q Hm] Hl].
    by rewrite Hm, Hl.
  - intros s0 live0 s live Hsteps Hc0.
    apply steps_invariants in Hsteps as [_ Hc]. cbn in Hc. specialize (Hc Hc0).
    split; [done|]. split.
    + intros Hlt. rewrite Hc. apply i32_small. lia.
    + intros -> fuel. by apply TearDown2ReadOnly_returns.
  - intros fuel s s' Hrun. from_run (TearDown2ReadOnly_effect _ _) as (_ & Hz & _).
    done.
Qed.

(** C2, as amended.  While the cache mode is read-only, and so at any point
    after TearDown2ReadOnly has returned, StartTxn returns -EROFS and
    starts no transaction; it makes no system call and no quota call, so no
    staging file is created; it does increment the in-flight counter and
    decrements it again before returning, so that the counter (an int32)
    has its old value after the call, and nothing else of the manager or of
    the operating system has changed. *)
Theorem StartTxn_read_only id size (s : State hash Q) :
  (cache_mode_ (mgr s) = kCacheReadOnly
   ∨ ∃ fuel s0 s1 live1 live,
       TearDown2ReadOnly fuel s0 = Ret (tt, s1) ∧ steps (s1, live1) (s, live)) →
  - 2 ^ 31 ≤ no_inflight_txns_ (mgr s) < 2 ^ 31 →
  let c := no_inflight_txns_ (mgr s) in
  StartTxn id size s =
    Ret ((- EROFS, None),
         mkState (mgr s) (w_emit (EvAtomicDec c) (w_emit (EvAtomicInc (i32 (c + 1))) (os s)))).
Proof.
  intros Hro Hrange c.
  assert (Hmode : cache_mode_ (mgr s) = kCacheReadOnly).
  { destruct Hro as [?|(fuel & s0 & s1 & live1 & live & Hrun & Hsteps)]; [done|].
    from_run (TearDown2ReadOnly_effect _ _) as (Hro1 & _).
    apply steps_invariants in Hsteps as [Hinv _]. by apply Hinv. }
  subst c. destruct s as [[] w]. cbn in *. subst.
  apply wp_returns_eq. unfold StartTxn. wp_go; try done.
  split; [done|]. cbn. by rewrite i32_inc_dec, i32_small.
Qed.

End Runs.

(** ** Write *)

Section WriteFacts.
Context {hash Q : Type} `{ShashAny hash} `{QuotaManager hash Q}.
Implicit Type s : State hash Q.
Implicit Type t : Transaction hash.

Lemma sys_write_result fd bytes (w : World hash) r w' :
  sys_write fd bytes w = (r, w') →
  (r = -1 ∧ 0 < w_errno w') ∨ (0 ≤ r ≤ Z.of_nat (length bytes)).
Proof.
  unfold sys_write, enter, do_write, file_of_fd, fail. cbn.
  repeat (case_match; cbn in *; simplify_eq; try done);
    intros; simplify_eq; cbn; unfold EBADF; rewrite ?length_take; lia.
Qed.

(** A flush of a full buffer that reports success has emptied the buffer. *)
Lemma Flush_full_ok t s t' s' :
  buf_pos t = kBufferSize →
  Flush t s = Ret ((0, t'), s') →
  buf_pos t' = 0.
Proof.
  intros Hfull. unfold Flush. rewrite decide_False by (rewrite Hfull; done).
  rewrite bind_eq. unfold sys.
  destruct (sys_write _ _ _) as [r w'] eqn:Hw.
  apply sys_write_result in Hw. rewrite length_take, Hfull in Hw.
  assert (Hr : i32 r = r).
  { apply i32_small. unfold kBufferSize in Hw. lia. }
  rewrite Hr. repeat case_decide; rewrite ?bind_eq; unfold mret, M_ret; cbn;
    intros Heq; simplify_eq; cbn; first [done | lia | unfold EIO in *; lia].
Qed.

Lemma Flush_returns t s : ∃ r t' s', Flush t s = Ret ((r, t'), s').
Proof.
  unfold Flush. case_decide; [by eexists _, _, _|].
  rewrite bind_eq. unfold sys. destruct (sys_write _ _ _) as [r w'].
  repeat case_decide; rewrite ?bind_eq; cbn; by eexists _, _, _.
Qed.

Lemma Write_loop_fuel fuel buf size written t s :
  0 ≤ written → size < 2 ^ 64 → size - written ≤ Z.of_nat fuel →
  0 ≤ buf_pos t < 2 ^ 32 →
  ∃ r t' s', Write_loop fuel buf size written t s = Ret ((r, t'), s').
Proof.
  revert written t s. induction fuel as [|fuel IH]; intros written t s Hw Hsize Hfuel Hpos.
  { cbn. rewrite decide_False by lia. by eexists _, _, _. }
  cbn [Write_loop]. case_decide as Hlt; [|by eexists _, _, _].
  assert (Hstep : ∀ t0 s0, 0 ≤ buf_pos t0 < 2 ^ 32 → buf_pos t0 ≠ kBufferSize →
            ∃ r t' s',
              Write_loop fuel buf size
                (u64 (written + Z.min (u64 (size - written)) (u64 (kBufferSize - buf_pos t0))))
                (set_buf_pos
                   (u32 (buf_pos t0
                         + Z.min (u64 (size - written)) (u64 (kBufferSize - buf_pos t0))))
                   (set_buffer
                      (memcpy (buffer t0) (buf_pos t0) buf
                         (Z.min (u64 (size - written)) (u64 (kBufferSize - buf_pos t0))))
                      t0)) s0
              = Ret ((r, t'), s')).
  { intros t0 s0 Hpos0 Hne.
    assert (Hrem : u64 (size - written) = size - written) by (apply u64_small; lia).
    assert (Hspace : 1 ≤ u64 (kBufferSize - buf_pos t0)).
    { unfold kBufferSize in *. destruct (decide (buf_pos t0 < 4096)).
      - rewrite u64_small by lia. lia.
      - unfold u64. replace (4096 - buf_pos t0) with ((4096 - buf_pos t0 + 2 ^ 64) - 1 * 2 ^ 64)
          by lia.
        rewrite Zminus_mod, Z_mod_mult, Z.sub_0_r, Zmod_mod.
        rewrite Z.mod_small by lia. lia. }
    rewrite Hrem.
    apply IH.
    - pose proof (u64_range (written + Z.min (size - written) (u64 (kBufferSize - buf_pos t0)))).
      lia.
    - done.
    - rewrite u64_small by lia. lia.
    - cbn. apply u32_range. }
  rewrite bind_eq. case_decide as Hfull.
  - rewrite bind_eq. destruct (Flush_returns t s) as (r & t1 & s1 & Hflush).
    rewrite Hflush. case_decide as Hr.
    + cbn. by eexists _, _, _.
    + subst r. cbn [mret M_ret].
      pose proof (Flush_full_ok _ _ _ _ Hfull Hflush) as Hzero.
      destruct (Hstep t1 s1) as (r & t' & s' & Heq); [rewrite Hzero; lia|by rewrite Hzero|].
      exists r, t', s'. exact Heq.
  - cbn [mret M_ret].
    destruct (Hstep t s) as (r & t' & s' & Heq); [done..|].
    exists r, t', s'. exact Heq.
Qed.

(** Write always returns: the fuel that the embedding gives its loop never
    runs out, for a [size] that is a uint64 and a fill level that is an
    unsigned. *)
Lemma Write_returns buf size t s :
  0 ≤ size < 2 ^ 64 → 0 ≤ buf_pos t < 2 ^ 32 →
  ∃ r t' s', Write buf size t s = Ret ((r, t'), s').
Proof.
  intros Hsize Hpos. unfold Write. case_match; [by eexists _, _, _|].
  apply Write_loop_fuel; [done|lia|lia|done].
Qed.

(** C3.  When the expected size of the transaction is known and the
    accumulated size plus the [size] bytes to write (the sum the code
    forms, in uint64) exceeds it, Write returns -ENOSPC and the
    transaction (accumulated size, buffer, fill level) as well as the
    manager and the operating system (so the staging file) are as before
    the call. *)
Theorem Write_over_expected_size buf size t s :
  expected_size t ≠ kSizeUnknown →
  u64 (txn_size t + size) > expected_size t →
  Write buf size t s = Ret ((- ENOSPC, t), s).
Proof.
  intros Hknown Hover. unfold Write.
  rewrite !bool_decide_eq_true_2 by done. reflexivity.
Qed.

(** The same with the exact sum, which is the uint64 sum whenever it fits. *)
Lemma Write_over_expected_size_exact buf size t s :
  expected_size t ≠ kSizeUnknown →
  0 ≤ txn_size t + size < 2 ^ 64 →
  txn_size t + size > expected_size t →
  Write buf size t s = Ret ((- ENOSPC, t), s).
Proof.
  intros Hknown Hfit Hover. unfold Write.
  rewrite u64_small by done. rewrite !bool_decide_eq_true_2 by done. reflexivity.
Qed.

End WriteFacts.

(** Bringing the log of the state reached into the form
    [w_log w ++ [e1; ...; en]]. *)
Ltac log_norm :=
  repeat first
    [ progress cbn [w_log w_emit os mgr]
    | match goal with
      | Hlog : w_log ?w = _ |- context [w_log ?w] => rewrite Hlog
      end ];
  rewrite <- ?app_assoc; cbn [app].

(** ** StartTxn *)

Section StartTxnFacts.
Context {hash Q : Type} `{ShashAny hash} `{QuotaManager hash Q}.
Implicit Type s : State hash Q.

(** C7.  In read-write mode and with a known expected size: when the size
    exceeds the quota collaborator's GetMaxFileSize, StartTxn returns
    -ENOSPC having done nothing but increment and decrement the in-flight
    counter (no system call, so no staging file); when it does not, but
    exceeds kBigFile (25 MiB), and the capacity is at least the size (what
    the code asserts), StartTxn returns and has called
    Cleanup(GetCapacity() - size) before its one mkstemp. *)
Theorem StartTxn_size_checks id size s :
  cache_mode_ (mgr s) = kCacheReadWrite →
  size ≠ kSizeUnknown →
  let c := no_inflight_txns_ (mgr s) in
  let q := quota_mgr_ (mgr s) in
  (size > u64 (GetMaxFileSize q) →
   StartTxn id size s =
     Ret ((- ENOSPC, None),
          mkState (set_no_inflight_txns (i32 (i32 (c + 1) - 1)) (mgr s))
            (w_emit (EvAtomicDec (i32 (i32 (c + 1) - 1)))
               (w_emit (EvAtomicInc (i32 (c + 1))) (os s)))))
  ∧ (size ≤ u64 (GetMaxFileSize q) → size > kBigFile → size ≤ u64 (GetCapacity q) →
     ∃ r s' rest,
       StartTxn id size s = Ret (r, s')
       ∧ w_log (os s') =
           w_log (os s)
           ++ [EvAtomicInc (i32 (c + 1));
               EvQuota (QCleanup (u64 (GetCapacity q) - size));
               EvSys (SysMkstemp (txn_template_path_ (mgr s)))]
           ++ rest
       ∧ syscalls rest = []).
Proof.
  intros Hrw Hknown c q. subst c q. destruct s as [[] w]. cbn in *. subst.
  split.
  - intros Hbig. apply wp_returns_eq. unfold StartTxn. wp_go; try done.
  - intros Hfits Hbig Hcap.
    assert (Hleave : u64 (u64 (GetCapacity quota_mgr_0) - size)
                     = u64 (GetCapacity quota_mgr_0) - size).
    { apply u64_small. pose proof (u64_range (GetCapacity quota_mgr_0)).
      unfold kBigFile in Hbig. lia. }
    enough (Hwp : wp true (StartTxn id size)
              (λ _ s', ∃ rest,
                 w_log (os s') =
                   w_log w
                   ++ [EvAtomicInc (i32 (no_inflight_txns_0 + 1));
                       EvQuota (QCleanup (u64 (GetCapacity quota_mgr_0) - size));
                       EvSys (SysMkstemp txn_template_path_0)]
                   ++ rest
                 ∧ syscalls rest = [])
              (mkState (mkPosixCacheManager cache_path_0 txn_template_path_0
                          alien_cache_0 alien_cache_on_nfs_0 kCacheReadWrite
                          no_inflight_txns_0 reports_correct_filesize_0 quota_mgr_0
                          repository_name_0) w)).
    { apply wp_returns in Hwp as (r & s' & Hrun & rest & Hlog & Hsys).
      by exists r, s', rest. }
    unfold StartTxn. wp_go; try done; try lia.
    all: try (apply bool_decide_eq_true_2; lia).
    all: log_norm; rewrite Hleave.
    + by eexists [_].
    + by exists [].
Qed.

End StartTxnFacts.

(** ** The operating system when no fault is scripted *)

Section OSNoFault.
Context {hash : Type}.
Implicit Type w : World hash.

Lemma enter_ok c w : w_script w = [] → enter c w = (NoFault, w_emit (EvSys c) w).
Proof. unfold enter. cbn. by intros ->. Qed.

Lemma sys_open_rdonly_ok path w ino :
  w_script w = [] → w_dir w !! path = Some ino →
  sys_open_rdonly path w = w_new_fd ino false (w_emit (EvSys (SysOpen path)) w).
Proof.
  intros Hs Hd. unfold sys_open_rdonly. rewrite enter_ok by done. cbn. by rewrite Hd.
Qed.

Lemma sys_fstat_ok fd w f i :
  w_script w = [] → w_fds w !! fd = Some f → w_inodes w !! of_ino f = Some i →
  sys_fstat fd w = (0, Z.of_nat (length (i_data i)), w_emit (EvSys (SysFstat fd)) w).
Proof.
  intros Hs Hf Hi. unfold sys_fstat, file_of_fd. rewrite enter_ok by done. cbn.
  by rewrite Hf, Hi.
Qed.

Lemma sys_pread_ok fd count offset w f i :
  w_script w = [] → w_fds w !! fd = Some f → w_inodes w !! of_ino f = Some i →
  sys_pread fd count offset w =
    (Z.of_nat (length (take (Z.to_nat count) (drop (Z.to_nat offset) (i_data i)))),
     take (Z.to_nat count) (drop (Z.to_nat offset) (i_data i)),
     w_emit (EvSys (SysPread fd count offset)) w).
Proof.
  intros Hs Hf Hi. unfold sys_pread, file_of_fd. rewrite enter_ok by done. cbn.
  by rewrite Hf, Hi.
Qed.

Lemma sys_close_ok fd w f :
  w_script w = [] → w_fds w !! fd = Some f →
  sys_close fd w =
    (0, w_set_fds (delete fd (w_fds w)) (w_emit (EvSys (SysClose fd)) w)).
Proof.
  intros Hs Hf. unfold sys_close. rewrite enter_ok by done. cbn. by rewrite Hf.
Qed.

End OSNoFault.

(** Running a method on a machine whose answers are known: every system
    call is resolved by the lemma that gives its result, every test by
    arithmetic. *)
Ltac os_side :=
  cbn;
  first [ assumption | reflexivity | apply lookup_insert_eq | eassumption
        | by rewrite lookup_insert_eq ].

Ltac os_known :=
  cbn [os];
  first
    [ eassumption
    | erewrite sys_open_rdonly_ok by os_side; reflexivity
    | erewrite sys_fstat_ok by os_side; reflexivity
    | erewrite sys_pread_ok by os_side; reflexivity
    | erewrite sys_close_ok by os_side; reflexivity ].

Ltac known_side := first [ done | lia | unfold u64, u32, i32, i64; cbn; lia ].

Ltac wp_exec_step :=
  lazymatch goal with
  | Hknown : ?m ?s = Ret _ |- wp _ ?m _ ?s => eapply wp_known; [exact Hknown|]
  | |- wp _ (sys _) _ _ => eapply wp_sys_known; [os_known|]
  | |- wp _ (if decide ?P is left _ then _ else _) _ _ =>
      first [ rewrite (decide_True (P:=P)) by known_side
            | rewrite (decide_False (P:=P)) by known_side ]
  | |- wp _ (if ?b then _ else _) _ _ =>
      first [ progress cbn [orb andb negb]
            | rewrite bool_decide_eq_true_2 by known_side
            | rewrite bool_decide_eq_false_2 by known_side ]
  | |- wp _ (assert ?b) _ _ =>
      first [ apply wp_assert_strict; [first [done | apply bool_decide_eq_true_2; known_side]|]
            | apply wp_assert; intros _ ]
  | _ => wp_prim
  end.

Ltac wp_cbn :=
  cbv beta;
  cbn [mgr os fst snd w_new_fd w_new_inode w_emit w_log w_errno w_script w_dir
       w_inodes w_fds w_next_fd w_next_ino w_tmp_seq w_set_fds w_set_dir
       w_set_inodes w_set_errno w_bump_tmp_seq length i_data i_mode of_ino
       of_pos of_writable Z.of_nat] in *.

(** The same where some answers are not known: those calls are taken as
    they come, and tests on them split the proof. *)
Ltac wp_mixed := repeat (first [wp_exec_step | wp_prim]; wp_cbn).

Ltac wp_exec :=
  repeat (wp_exec_step; cbv beta;
          cbn [mgr os fst snd w_new_fd w_new_inode w_emit w_log w_errno w_script w_dir
               w_inodes w_fds w_next_fd w_next_ino w_tmp_seq w_set_fds w_set_dir
               w_set_inodes w_set_errno w_bump_tmp_seq length i_data i_mode of_ino
               of_pos of_writable Z.of_nat] in * ).

(** ** Open2Mem *)

Section Open2MemFacts.
Context {hash Q : Type} `{ShashAny hash} `{QuotaManager hash Q}.
Implicit Type s : State hash Q.

Lemma sys_Ret {A} (f : World hash → A * World hash) s a w' :
  f (os s) = (a, w') → sys (Q:=Q) f s = Ret (a, mkState (mgr s) w').
Proof. unfold sys. by intros ->. Qed.

Lemma Close_returns fd s : ∃ r s', Close fd s = Ret (r, s').
Proof.
  unfold Close. rewrite bind_eq. unfold sys.
  destruct (sys_close fd (os s)) as [r w']. case_decide; cbn; eauto.
Qed.

(** C10.  Open2Mem on a committed object of size zero, with no fault from
    the operating system, returns true with a NULL buffer and size 0, and
    makes exactly the calls open, Touch, fstat and close: no pread.
    Whenever it returns false, the buffer is NULL and the size 0; it does
    return false when Open fails and when the read is short (or fails). *)
Theorem Open2Mem_outcomes id s :
  (∀ ino mode,
     let path := cache_path_ (mgr s) +:+ "/" +:+ MakePathWithoutSuffix id in
     w_dir (os s) !! path = Some ino →
     w_inodes (os s) !! ino = Some {| i_data := []; i_mode := mode |} →
     w_script (os s) = [] →
     ∃ s' fd,
       Open2Mem id s = Ret ((true, None, 0), s')
       ∧ w_log (os s') = w_log (os s) ++ [EvSys (SysOpen path); EvQuota (QTouch id);
                                           EvSys (SysFstat fd); EvSys (SysClose fd)])
  ∧ (∀ buf size s', Open2Mem id s = Ret ((false, buf, size), s') → buf = None ∧ size = 0)
  ∧ (∀ fd s1, Open id s = Ret (fd, s1) → fd < 0 →
              Open2Mem id s = Ret ((false, None, 0), s1))
  ∧ (∀ fd s1 sz s2 n data s3,
       Open id s = Ret (fd, s1) → 0 ≤ fd →
       GetSize fd s1 = Ret (sz, s2) → 0 < sz < 2 ^ 64 →
       Pread fd sz 0 s2 = Ret ((n, data), s3) → n < sz →
       ∃ s', Open2Mem id s = Ret ((false, None, 0), s')).
Proof.
  split; [|split; [|split]].
  - intros ino mode path Hdir Hino Hscript. subst path.
    destruct s as [c w]. cbn [mgr os] in *.
    enough (Hwp : wp true (Open2Mem id)
              (λ r s', r = (true, None, 0)
                       ∧ ∃ fd, w_log (os s') =
                           w_log w ++ [EvSys (SysOpen (cache_path_ c +:+ "/"
                                                       +:+ MakePathWithoutSuffix id));
                                       EvQuota (QTouch id);
                                       EvSys (SysFstat fd); EvSys (SysClose fd)])
              (mkState c w)).
    { apply wp_returns in Hwp as (r & s' & Hrun & -> & fd & Hlog). eauto. }
    unfold Open2Mem, Open, GetSize, Close. wp_exec.
    split; [done|]. eexists. cbn. by rewrite <- !app_assoc.
  - intros buf size s' Hrun.
    enough (Hwp : wp false (Open2Mem id)
                    (λ '(ok, buf, size) _, ok = false → buf = None ∧ size = 0) s).
    { by apply (wp_Ret _ _ _ _ _ _ Hwp Hrun). }
    destruct s as [[] w]. unfold Open2Mem. wp_run; done.
  - intros fd s1 Hopen Hfd. unfold Open2Mem.
    rewrite (bind_Ret _ _ _ _ _ Hopen). by rewrite decide_True.
  - intros fd s1 sz s2 n data s3 Hopen Hfd Hsize Hsz Hread Hshort.
    enough (Hwp : wp true (Open2Mem id) (λ r _, r = (false, None, 0)) s).
    { apply wp_returns in Hwp as (r & s' & Hrun & ->). eauto. }
    unfold Open2Mem. wp_exec. rewrite (u64_small sz) by lia. wp_exec.
    destruct (Close_returns fd s3) as (r & s' & Hclose). wp_exec.
    destruct (decide (n < 0)).
    + rewrite (bool_decide_eq_true_2 (n < 0)) by done. by wp_exec.
    + rewrite (bool_decide_eq_false_2 (n < 0)) by done.
      rewrite bool_decide_eq_true_2; [by wp_exec|]. rewrite u64_small by lia. lia.
Qed.

End Open2MemFacts.

(** ** CommitTxn *)

Section OSFrames.
Context {hash : Type}.
Implicit Type w : World hash.

Lemma sys_write_frame fd bytes w r w' :
  sys_write fd bytes w = (r, w') →
  w_dir w' = w_dir w ∧ (w_script w = [] → w_script w' = []).
Proof.
  unfold sys_write, enter, do_write, file_of_fd, fail. cbn.
  repeat (case_match; cbn in *; simplify_eq; try done);
    intros; simplify_eq; cbn; done.
Qed.

Lemma sys_close_frame fd w r w' :
  sys_close fd w = (r, w') →
  w_dir w' = w_dir w ∧ (w_script w = [] → w_script w' = []).
Proof.
  unfold sys_close, enter, fail. cbn.
  repeat (case_match; cbn in *; simplify_eq; try done);
    intros; simplify_eq; cbn; done.
Qed.

Lemma sys_unlink_frame path w r w' :
  sys_unlink path w = (r, w') →
  (w_dir w' = delete path (w_dir w) ∨ w_dir w' = w_dir w)
  ∧ (w_script w = [] → w_script w' = [] ∧ w_dir w' = delete path (w_dir w)).
Proof.
  unfold sys_unlink, enter, fail. cbn.
  repeat (case_match; cbn in *; simplify_eq; try done);
    intros; simplify_eq; cbn; (split; [by auto|]); try done.
  intros _. split; [done|]. symmetry. by apply delete_id.
Qed.

Lemma sys_unlink_errno path w r w' :
  sys_unlink path w = (r, w') → r < 0 → 0 < w_errno w'.
Proof.
  unfold sys_unlink, enter, fail. cbn.
  repeat (case_match; cbn in *; simplify_eq; try done);
    intros; simplify_eq; cbn; unfold ENOENT; lia.
Qed.

End OSFrames.

Section CommitTxnFacts.
Context {hash Q : Type} `{ShashAny hash} `{QuotaManager hash Q}.
Implicit Type s : State hash Q.
Implicit Type t : Transaction hash.

(** What Flush leaves alone: the manager, the directory, and all of the
    transaction but the fill level of its buffer; it makes at most one
    system call, a write. *)
Lemma Flush_frame t s res t1 s1 :
  Flush t s = Ret ((res, t1), s1) →
  mgr s1 = mgr s
  ∧ t1 = set_buf_pos (buf_pos t1) t
  ∧ w_dir (os s1) = w_dir (os s)
  ∧ (∃ evs, w_log (os s1) = w_log (os s) ++ evs
            ∧ (evs = [] ∨ ∃ n, evs = [EvSys (SysWrite (fd t) n)]))
  ∧ (w_script (os s) = [] → w_script (os s1) = []).
Proof.
  unfold Flush. destruct t; cbn [buf_pos fd buffer set_buf_pos].
  case_decide.
  { intros [= <- <- <-]. subst. repeat split; try done. exists []. rewrite app_nil_r. auto. }
  rewrite bind_eq. unfold sys.
  destruct (sys_write _ _ _) as [r w'] eqn:Hw.
  pose proof (sys_write_log fd0 (take (Z.to_nat buf_pos0) buffer0) (os s)) as Hlog.
  rewrite Hw in Hlog. cbn in Hlog.
  apply sys_write_frame in Hw as [Hdir Hscript].
  repeat case_decide; rewrite ?bind_eq; cbn; intros [= <- <- <-]; cbn.
  all: split; [done|]; split; [done|]; split; [done|]; split; [|done].
  all: eexists; split; [exact Hlog|]; right; by eexists.
Qed.


Lemma Flush_set_expected_size n t s :
  Flush (set_expected_size n t) s =
    match Flush t s with
    | Ret ((r, t1), s1) => Ret ((r, set_expected_size n t1), s1)
    | Aborted => Aborted
    | OutOfFuel => OutOfFuel
    end.
Proof.
  unfold Flush. cbn [set_expected_size buf_pos fd buffer].
  case_decide; [done|]. rewrite !bind_eq.
  destruct (sys _ s) as [[r s1]| |]; [|done..].
  repeat case_decide; rewrite ?bind_eq; done.
Qed.

(** C4.  Let the flush at the start of CommitTxn succeed, the expected size
    be known and the accumulated size differ from it.  If filesize
    reporting is reliable or the accumulated size is not 0, CommitTxn
    closes the staging descriptor, calls CopyPath2Path from the staging
    file to quarantaine/<hash>, unlinks the staging file, decrements the
    in-flight counter and returns -EIO, and does nothing else.  If
    filesize reporting is flagged unreliable and the accumulated size is 0,
    the check is skipped: CommitTxn proceeds exactly as for the same
    transaction without an expected size. *)
Theorem CommitTxn_size_mismatch t s res t1 s1 :
  Flush t s = Ret ((res, t1), s1) →
  ¬ res < 0 →
  expected_size t ≠ kSizeUnknown →
  txn_size t ≠ expected_size t →
  let quarantaine := cache_path_ (mgr s) +:+ "/quarantaine/" +:+ ToString (txn_id t) in
  (reports_correct_filesize_ (mgr s) = true ∨ txn_size t ≠ 0 →
   ∃ s', CommitTxn t s = Ret (- EIO, s')
         ∧ w_log (os s') =
             w_log (os s1)
             ++ [EvSys (SysClose (fd t));
                 EvSys (SysCopyPath2Path (tmp_path t) quarantaine);
                 EvSys (SysUnlink (tmp_path t));
                 EvAtomicDec (i32 (no_inflight_txns_ (mgr s) - 1))])
  ∧ (reports_correct_filesize_ (mgr s) = false ∧ txn_size t = 0 →
     CommitTxn t s = CommitTxn (set_expected_size kSizeUnknown t) s).
Proof.
  intros Hflush Hok Hknown Hmis quarantaine. subst quarantaine.
  destruct (Flush_frame _ _ _ _ _ Hflush) as (Hm & Ht1 & _).
  unfold set_buf_pos in Ht1. split.
  - intros Hcheck.
    enough (Hwp : wp true (CommitTxn t)
              (λ r s', r = - EIO
                       ∧ w_log (os s') =
                           w_log (os s1)
                           ++ [EvSys (SysClose (fd t));
                               EvSys (SysCopyPath2Path (tmp_path t)
                                        (cache_path_ (mgr s) +:+ "/quarantaine/"
                                         +:+ ToString (txn_id t)));
                               EvSys (SysUnlink (tmp_path t));
                               EvAtomicDec (i32 (no_inflight_txns_ (mgr s) - 1))]) s).
    { apply wp_returns in Hwp as (r & s' & Hrun & -> & Hlog). eauto. }
    unfold CommitTxn. apply wp_bind. eapply wp_known; [exact Hflush|]. cbv beta.
    rewrite Ht1. cbn [fd tmp_path txn_size expected_size txn_id txn_type description
                         final_path].
    apply wp_bind. wp_prim. wp_cbn. rewrite decide_False by done.
    apply wp_bind. apply wp_gets. wp_cbn. rewrite Hm.
    rewrite (bool_decide_eq_true_2 (txn_size t ≠ expected_size t)) by done.
    rewrite (bool_decide_eq_true_2 (expected_size t ≠ kSizeUnknown)) by done.
    match goal with
    | |- context [?rcf || bool_decide ?P] => assert (rcf || bool_decide P = true) as ->
    end.
    { destruct Hcheck as [->|Hnz]; [done|].
      rewrite (bool_decide_eq_true_2 _ Hnz). apply orb_true_r. }
    cbn [andb]. wp_go. split; [done|]. rewrite ?Hm. log_norm. done.
  - intros [Hrep Hzero]. unfold CommitTxn.
    rewrite (bind_eq (Flush t)), (bind_eq (Flush (set_expected_size _ t))).
    rewrite Flush_set_expected_size, Hflush.
    rewrite Ht1. cbn [fd tmp_path txn_size expected_size txn_id txn_type description
                         final_path set_expected_size].
    apply bind_ext. intros rc s2 Hm2%sys_mgr.
    destruct (decide (res < 0)); [done|].
    rewrite !bind_gets. rewrite Hzero, Hm2, Hm, Hrep.
    rewrite (bool_decide_eq_false_2 (0 ≠ 0)) by (intros Hne; by apply Hne).
    rewrite (bool_decide_eq_false_2 (kSizeUnknown ≠ kSizeUnknown))
      by (intros Hne; by apply Hne).
    cbn [orb]. by rewrite !andb_false_r.
Qed.

Lemma Rename_log strict old new s :
  wp strict (Rename old new)
     (λ _ s', mgr s' = mgr s ∧ ∃ evs, w_log (os s') = w_log (os s) ++ evs) s.
Proof.
  unfold Rename. wp_go; (split; [done|]); log_norm; eauto.
Qed.

Lemma size_check_passes t (reports_correct_filesize : bool) :
  ¬ (txn_size t ≠ expected_size t ∧ expected_size t ≠ kSizeUnknown
     ∧ (reports_correct_filesize = true ∨ txn_size t ≠ 0)) →
  bool_decide (txn_size t ≠ expected_size t)
  && (bool_decide (expected_size t ≠ kSizeUnknown)
      && (reports_correct_filesize || bool_decide (txn_size t ≠ 0))) = false.
Proof.
  intros Hno. apply not_true_is_false. intros Hyes. apply Hno.
  apply andb_prop in Hyes as [H1 Hyes]. apply andb_prop in Hyes as [H2 H3].
  apply bool_decide_eq_true in H1, H2. apply orb_prop in H3.
  split; [done|]. split; [done|]. destruct H3 as [?|H3]; [by left|].
  apply bool_decide_eq_true in H3. by right.
Qed.

Lemma is_pinned_type_true ty :
  ty = kTypePinned ∨ ty = kTypeCatalog → is_pinned_type ty = true.
Proof. by intros [->| ->]. Qed.

(** C5.  For a transaction of type Pinned or Catalog: whatever CommitTxn
    does before it returns, it makes no rename and no link that is not
    preceded by the quota collaborator's
    Pin(hash, size, description, is_catalog).  When the flush at its start
    succeeds and the size check passes, Pin is called right after the
    staging descriptor is closed.  If Pin then returns false, CommitTxn
    unlinks the staging file, decrements the in-flight counter and returns
    -ENOSPC having made no other call (so no rename and no link); no name
    that was absent before is present afterwards, so no file appears at the
    canonical path; and where the operating system injects no fault the
    staging name is gone. *)
Theorem CommitTxn_pin t s :
  txn_type t = kTypePinned ∨ txn_type t = kTypeCatalog →
  let pin := EvQuota (QPin (txn_id t) (txn_size t) (description t)
                           (bool_decide (txn_type t = kTypeCatalog))) in
  (∀ r s', CommitTxn t s = Ret (r, s') →
     ∃ evs, w_log (os s') = w_log (os s) ++ evs
            ∧ (filter is_rename_or_link (syscalls evs) = []
               ∨ ∃ pre rest, evs = pre ++ [pin] ++ rest
                             ∧ filter is_rename_or_link (syscalls pre) = []))
  ∧ (∀ res t1 s1,
       Flush t s = Ret ((res, t1), s1) →
       ¬ res < 0 →
       ¬ (txn_size t ≠ expected_size t ∧ expected_size t ≠ kSizeUnknown
          ∧ (reports_correct_filesize_ (mgr s) = true ∨ txn_size t ≠ 0)) →
       (∀ r s', CommitTxn t s = Ret (r, s') →
          ∃ rest, w_log (os s') = w_log (os s1) ++ [EvSys (SysClose (fd t)); pin] ++ rest)
       ∧ (∀ q, Pin (txn_id t) (txn_size t) (description t)
                   (bool_decide (txn_type t = kTypeCatalog)) (quota_mgr_ (mgr s))
               = (false, q) →
          ∃ s', CommitTxn t s = Ret (- ENOSPC, s')
                ∧ w_log (os s') =
                    w_log (os s1)
                    ++ [EvSys (SysClose (fd t)); pin; EvSys (SysUnlink (tmp_path t));
                        EvAtomicDec (i32 (no_inflight_txns_ (mgr s) - 1))]
                ∧ (∀ p, w_dir (os s) !! p = None → w_dir (os s') !! p = None)
                ∧ (w_script (os s) = [] → w_dir (os s') !! tmp_path t = None))).
Proof.
  intros Hty%is_pinned_type_true pin. subst pin. split.
  { intros r s' Hrun.
    enough (Hwp : wp false (CommitTxn t)
              (λ _ s', ∃ evs,
                 w_log (os s') = w_log (os s) ++ evs
                 ∧ (filter is_rename_or_link (syscalls evs) = []
                    ∨ ∃ pre rest,
                        evs = pre ++ [EvQuota (QPin (txn_id t) (txn_size t) (description t)
                                                 (bool_decide (txn_type t = kTypeCatalog)))]
                              ++ rest
                        ∧ filter is_rename_or_link (syscalls pre) = [])) s).
    { exact (wp_Ret _ _ _ _ _ _ Hwp Hrun). }
    unfold CommitTxn. apply wp_bind, wp_frame. intros [res t1] s1 Hflush.
    destruct (Flush_frame _ _ _ _ _ Hflush) as (Hm & Ht1 & _ & (evs & Hevs & Hwrite) & _).
    unfold set_buf_pos in Ht1. rewrite Ht1.
    cbn [fd tmp_path txn_size expected_size txn_id txn_type description final_path].
    rewrite Hty. wp_go.
    all: try (eapply wp_mono; [apply Rename_log|]; intros ? [? ?] [? [? ?]]; wp_cbn; wp_go).
    all: log_norm; eexists; (split; [reflexivity|]).
    all: destruct Hwrite as [->|[nwritten ->]]; cbn [app].
    all: first
      [ by left
      | right;
        lazymatch goal with
        | |- ∃ pre rest, ?a :: ?b :: EvQuota (QPin ?i ?z ?d ?c) :: ?l = _ ∧ _ =>
            by exists [a; b], l
        | |- ∃ pre rest, ?a :: EvQuota (QPin ?i ?z ?d ?c) :: ?l = _ ∧ _ =>
            by exists [a], l
        end ]. }
  intros res t1 s1 Hflush Hok Hcheck%size_check_passes.
  destruct (Flush_frame _ _ _ _ _ Hflush) as (Hm & Ht1 & Hdir & _ & Hscript).
  unfold set_buf_pos in Ht1. split.
  - intros r s' Hrun.
    enough (Hwp : wp false (CommitTxn t)
              (λ _ s', ∃ rest,
                 w_log (os s') =
                   w_log (os s1)
                   ++ [EvSys (SysClose (fd t));
                       EvQuota (QPin (txn_id t) (txn_size t) (description t)
                                     (bool_decide (txn_type t = kTypeCatalog)))]
                   ++ rest) s).
    { exact (wp_Ret _ _ _ _ _ _ Hwp Hrun). }
    unfold CommitTxn. apply wp_bind. eapply wp_known; [exact Hflush|]. cbv beta.
    rewrite Ht1. cbn [fd tmp_path txn_size expected_size txn_id txn_type description
                         final_path].
    apply wp_bind. wp_prim. wp_cbn. rewrite decide_False by done.
    apply wp_bind. apply wp_gets. wp_cbn. rewrite Hm, Hcheck, Hty.
    apply wp_bind. wp_go.
    all: try (eapply wp_mono; [apply Rename_log|]; intros ? [? ?] [? [? ?]]; wp_cbn; wp_go).
    all: log_norm; by eexists.
  - intros q HPin.
    enough (Hwp : wp true (CommitTxn t)
              (λ r s', r = - ENOSPC
                 ∧ w_log (os s') =
                     w_log (os s1)
                     ++ [EvSys (SysClose (fd t));
                         EvQuota (QPin (txn_id t) (txn_size t) (description t)
                                       (bool_decide (txn_type t = kTypeCatalog)));
                         EvSys (SysUnlink (tmp_path t));
                         EvAtomicDec (i32 (no_inflight_txns_ (mgr s) - 1))]
                 ∧ (∀ p, w_dir (os s) !! p = None → w_dir (os s') !! p = None)
                 ∧ (w_script (os s) = [] → w_dir (os s') !! tmp_path t = None)) s).
    { apply wp_returns in Hwp as (r & s' & Hrun & -> & Hrest). eauto. }
    unfold CommitTxn. apply wp_bind. eapply wp_known; [exact Hflush|]. cbv beta.
    rewrite Ht1. cbn [fd tmp_path txn_size expected_size txn_id txn_type description
                         final_path].
    apply wp_bind. wp_prim. wp_cbn. rewrite decide_False by done.
    apply wp_bind. apply wp_gets. wp_cbn. rewrite Hm, Hcheck, Hty.
    apply wp_bind. unfold quota_Pin. apply wp_quota_call_with. intros ok q0 HP.
    wp_cbn. rewrite ?Hm in HP. rewrite HPin in HP. injection HP as <- <-. cbn [negb].
    wp_go.
    match goal with Hc : sys_close _ _ = _ |- _ => apply sys_close_frame in Hc as [Hd1 Hs1] end.
    match goal with Hu : sys_unlink _ _ = _ |- _ => apply sys_unlink_frame in Hu as [Hd2 Hs2] end.
    cbn [w_dir w_emit w_script] in *.
    split; [done|]. split; [rewrite ?Hm; log_norm; done|]. split.
    + intros p Hp. rewrite <- Hdir, <- Hd1 in Hp.
      destruct Hd2 as [-> | ->]; [|done].
      destruct (decide (tmp_path t = p)) as [->|Hne].
      * apply lookup_delete_eq.
      * by rewrite lookup_delete_ne.
    + intros Hnil. destruct Hs2 as [_ ->]; [auto|]. apply lookup_delete_eq.
Qed.

(** C6, as amended.  In the alien-cache-on-NFS variant of Rename (link, then
    unlink): a link that fails with EEXIST is treated as success, the
    unlink follows and Rename returns 0 when it succeeds; but when the
    unlink of the old name fails, after a link that succeeded or failed
    with EEXIST, Rename returns the negated errno of the unlink, a negative
    value; and a CommitTxn on an alien cache that gets as far as Rename
    (flush, size check, pin and chmod passed) returns what Rename
    returned, so an unlink error there makes the commit fail. *)
Theorem Rename_on_nfs :
  (∀ old new (s : State hash Q) r1 w1 r2 w2,
     alien_cache_on_nfs_ (mgr s) = true →
     sys_link old new (os s) = (r1, w1) →
     sys_unlink old w1 = (r2, w2) →
     (r1 < 0 ∧ w_errno w1 ≠ EEXIST →
      Rename old new s = Ret (- w_errno w1, mkState (mgr s) w1))
     ∧ (r1 < 0 ∧ w_errno w1 = EEXIST ∧ ¬ r2 < 0 →
        Rename old new s = Ret (0, mkState (mgr s) w2))
     ∧ ((¬ r1 < 0 ∨ w_errno w1 = EEXIST) ∧ r2 < 0 →
        Rename old new s = Ret (- w_errno w2, mkState (mgr s) w2)
        ∧ - w_errno w2 < 0))
  ∧ (∀ t (s : State hash Q) res t1 s1 rc s2 s3 s4 r s5,
       alien_cache_ (mgr s) = true →
       Flush t s = Ret ((res, t1), s1) →
       ¬ res < 0 →
       ¬ (txn_size t ≠ expected_size t ∧ expected_size t ≠ kSizeUnknown
          ∧ (reports_correct_filesize_ (mgr s) = true ∨ txn_size t ≠ 0)) →
       sys (sys_close (fd t)) s1 = Ret (rc, s2) →
       (if is_pinned_type (txn_type t)
        then quota_Pin (txn_id t) (txn_size t) (description t)
                       (bool_decide (txn_type t = kTypeCatalog))
        else mret true) s2 = Ret (true, s3) →
       sys (sys_chmod (tmp_path t) 432) s3 = Ret (0, s4) →
       Rename (tmp_path t) (final_path t) s4 = Ret (r, s5) →
       ∃ s', CommitTxn t s = Ret (r, s')).
Proof.
  split.
  - intros old new s r1 w1 r2 w2 Hnfs Hlink Hunlink.
    split; [|split].
    + intros [Hr1 Herr]. apply wp_returns_eq. unfold Rename.
      apply wp_bind, wp_gets. rewrite Hnfs. cbn [negb]. by wp_exec.
    + intros (Hr1 & Herr & Hr2). apply wp_returns_eq. unfold Rename.
      apply wp_bind, wp_gets. rewrite Hnfs. cbn [negb]. by wp_exec.
    + intros [Hr1 Hr2]. split; [|apply sys_unlink_errno in Hunlink; lia].
      apply wp_returns_eq. unfold Rename.
      apply wp_bind, wp_gets. rewrite Hnfs. cbn [negb].
      destruct Hr1 as [Hr1|Herr]; [by wp_exec|].
      wp_exec. rewrite (bool_decide_eq_true_2 (w_errno w1 = EEXIST)) by done.
      rewrite andb_false_r. by wp_exec.
  - intros t s res t1 s1 rc s2 s3 s4 r s5 Halien Hflush Hok Hcheck%size_check_passes
      Hclose Hpin Hchmod Hrename.
    destruct (Flush_frame _ _ _ _ _ Hflush) as (Hm & Ht1 & _).
    unfold set_buf_pos in Ht1.
    enough (Hwp : wp true (CommitTxn t) (λ r' _, r' = r) s).
    { apply wp_returns in Hwp as (r' & s' & Hrun & ->). eauto. }
    unfold CommitTxn. apply wp_bind. eapply wp_known; [exact Hflush|]. cbv beta.
    rewrite Ht1. cbn [fd tmp_path txn_size expected_size txn_id txn_type description
                         final_path].
    apply wp_bind. eapply wp_known; [exact Hclose|]. rewrite decide_False by done.
    apply wp_bind, wp_gets. rewrite (sys_mgr _ _ _ _ Hclose), Hm, Hcheck.
    apply wp_bind. eapply wp_known; [exact Hpin|]. cbn [negb].
    assert (Halien3 : alien_cache_ (mgr s3) = true).
    { rewrite <- Halien, <- Hm, <- (sys_mgr _ _ _ _ Hclose).
      destruct (is_pinned_type (txn_type t)); [|by injection Hpin as <-].
      unfold quota_Pin, quota_call_with in Hpin.
      destruct (Pin _ _ _ _ _) in Hpin. by injection Hpin as _ <-. }
    apply wp_bind, wp_gets. rewrite Halien3.
    apply wp_bind. apply wp_bind. eapply wp_known; [exact Hchmod|].
    apply wp_assert_strict; [done|].
    apply wp_bind. eapply wp_known; [exact Hrename|].
    wp_go; done.
Qed.

End CommitTxnFacts.

(** ** The properties at concrete inputs *)

Lemma Write_over_expected_size_witness :
  expected_size txn_expecting_1 ≠ kSizeUnknown
  ∧ u64 (txn_size txn_expecting_1 + 2) > expected_size txn_expecting_1
  ∧ Write [x00; x01] 2 txn_expecting_1 (fresh false [])
    = Ret ((- ENOSPC, txn_expecting_1), fresh false []).
Proof.
  assert (H1 : expected_size txn_expecting_1 ≠ kSizeUnknown) by (vm_compute; discriminate).
  assert (H2 : u64 (txn_size txn_expecting_1 + 2) > expected_size txn_expecting_1)
    by (vm_compute; reflexivity).
  split; [exact H1|]. split; [exact H2|].
  exact (Write_over_expected_size [x00; x01] 2 txn_expecting_1 (fresh false []) H1 H2).
Defined.

Lemma StartTxn_read_only_witness :
  TearDown2ReadOnly 1 (fresh false []) = Ret (tt, drained)
  ∧ - 2 ^ 31 ≤ no_inflight_txns_ (mgr drained) < 2 ^ 31
  ∧ StartTxn h1 1024 drained
    = Ret ((- EROFS, None),
           mkState (mgr drained)
             (w_emit (EvAtomicDec 0) (w_emit (EvAtomicInc 1) (os drained)))).
Proof.
  assert (H1 : TearDown2ReadOnly 1 (fresh false []) = Ret (tt, drained))
    by (vm_compute; reflexivity).
  assert (H2 : - 2 ^ 31 ≤ no_inflight_txns_ (mgr drained) < 2 ^ 31)
    by (vm_compute; split; [discriminate|reflexivity]).
  split; [exact H1|]. split; [exact H2|].
  apply (StartTxn_read_only h1 1024 drained); [|exact H2].
  right. exists 1%nat, (fresh false []), drained, [], []. split; [exact H1|].
  apply steps_refl.
Defined.

(** C2 as first stated does not hold: on a drained manager StartTxn returns
    -EROFS, but the counter has been 1 in between, not 0 throughout. *)
Lemma StartTxn_read_only_increments :
  ¬ (∀ r s', StartTxn h1 1024 drained = Ret (r, s') →
       r = (- EROFS, None)
       ∧ ∀ b v, (b, v) ∈ counter_updates (w_log (os s')) →
                v = no_inflight_txns_ (mgr drained)).
Proof.
  intros Hclaim.
  destruct (StartTxn h1 1024 drained) as [[r s']| |] eqn:Hrun;
    vm_compute in Hrun; [|discriminate..].
  injection Hrun as <- <-.
  destruct (Hclaim _ _ eq_refl) as [_ Hvalues].
  specialize (Hvalues true 1). vm_compute in Hvalues.
  enough (1 = 0) by discriminate. apply Hvalues. left.
Qed.

Lemma run_StartTxn_started :
  StartTxn h1 kSizeUnknown (fresh false []) = Ret ((3, Some started_txn), started).
Proof. vm_compute. reflexivity. Qed.

Lemma run_CommitTxn_started : CommitTxn started_txn started = Ret (0, committed).
Proof. vm_compute. reflexivity. Qed.

Lemma inflight_counter_balanced_witness :
  no_inflight_txns_ (mgr started) = 1
  ∧ no_inflight_txns_ (mgr committed) = 0
  ∧ ∃ s', TearDown2ReadOnly 1 committed = Ret (tt, s').
Proof.
  destruct (inflight_counter_balanced (hash:=string) (Q:=FixedQuota))
    as (Hstart & Hcommit & _ & Hsteps & _).
  split; [|split].
  - destruct (Hstart _ _ _ _ _ _ run_StartTxn_started) as (_ & Hok & _).
    destruct Hok as (_ & Hc & _); [discriminate|]. exact Hc.
  - apply (Hcommit _ _ _ _ run_CommitTxn_started).
  - assert (Hrun : steps (fresh false [], []) (committed, [])).
    { eapply steps_step; [eapply steps_step; [apply steps_refl|]|].
      - eapply step_StartTxn_ok. exact run_StartTxn_started.
      - apply (step_CommitTxn started [] started_txn [] 0 committed).
        exact run_CommitTxn_started. }
    destruct (Hsteps _ _ _ _ Hrun eq_refl) as (_ & _ & Hdrain).
    apply Hdrain. reflexivity.
Defined.

Lemma StartTxn_size_checks_witness :
  let s := with_quota roomy (fresh false []) in
  let size := 30 * 1024 * 1024 in
  cache_mode_ (mgr s) = kCacheReadWrite
  ∧ size ≠ kSizeUnknown
  ∧ ∃ r s' rest,
      StartTxn h1 size s = Ret (r, s')
      ∧ w_log (os s') =
          [EvAtomicInc 1; EvQuota (QCleanup (2 ^ 40 - size));
           EvSys (SysMkstemp "/var/lib/cvmfs/shared/txn/fetchXXXXXX")] ++ rest
      ∧ syscalls rest = [].
Proof.
  intros s size.
  assert (H1 : cache_mode_ (mgr s) = kCacheReadWrite) by reflexivity.
  assert (H2 : size ≠ kSizeUnknown) by (vm_compute; discriminate).
  split; [exact H1|]. split; [exact H2|].
  destruct (StartTxn_size_checks h1 size s H1 H2) as [_ Hbig].
  apply Hbig; vm_compute; first [discriminate | reflexivity].
Defined.

Lemma run_Flush_short :
  Flush short_txn short_state0 = Ret ((0, short_flushed_txn), short_flushed).
Proof. vm_compute. reflexivity. Qed.

Lemma CommitTxn_size_mismatch_witness :
  Flush short_txn short_state0 = Ret ((0, short_flushed_txn), short_flushed)
  ∧ ¬ 0 < 0
  ∧ expected_size short_txn ≠ kSizeUnknown
  ∧ txn_size short_txn ≠ expected_size short_txn
  ∧ ∃ s', CommitTxn short_txn short_state0 = Ret (- EIO, s')
          ∧ w_log (os s') =
              w_log (os short_flushed)
              ++ [EvSys (SysClose 3);
                  EvSys (SysCopyPath2Path "/var/lib/cvmfs/shared/txn/fetch000000"
                           ("/var/lib/cvmfs/shared" +:+ "/quarantaine/" +:+ h1));
                  EvSys (SysUnlink "/var/lib/cvmfs/shared/txn/fetch000000");
                  EvAtomicDec 0].
Proof.
  assert (H2 : ¬ 0 < 0) by discriminate.
  assert (H3 : expected_size short_txn ≠ kSizeUnknown) by (vm_compute; discriminate).
  assert (H4 : txn_size short_txn ≠ expected_size short_txn) by (vm_compute; discriminate).
  split; [exact run_Flush_short|]. split; [exact H2|]. split; [exact H3|].
  split; [exact H4|].
  destruct (CommitTxn_size_mismatch short_txn short_state0 0 short_flushed_txn
              short_flushed run_Flush_short H2 H3 H4) as [Hmismatch _].
  apply Hmismatch. left. reflexivity.
Defined.

Lemma run_Flush_cat : Flush cat_txn cat_state0 = Ret ((0, cat_flushed_txn), cat_flushed).
Proof. vm_compute. reflexivity. Qed.

Lemma CommitTxn_pin_witness :
  (txn_type cat_txn = kTypePinned ∨ txn_type cat_txn = kTypeCatalog)
  ∧ Flush cat_txn cat_state0 = Ret ((0, cat_flushed_txn), cat_flushed)
  ∧ ∃ s', CommitTxn cat_txn cat_state0 = Ret (- ENOSPC, s')
          ∧ w_log (os s') =
              w_log (os cat_flushed)
              ++ [EvSys (SysClose (fd cat_txn));
                  EvQuota (QPin (txn_id cat_txn) (txn_size cat_txn) (description cat_txn)
                                (bool_decide (txn_type cat_txn = kTypeCatalog)));
                  EvSys (SysUnlink (tmp_path cat_txn));
                  EvAtomicDec (i32 (no_inflight_txns_ (mgr cat_state0) - 1))]
          ∧ (∀ p, w_dir (os cat_state0) !! p = None → w_dir (os s') !! p = None)
          ∧ (w_script (os cat_state0) = [] → w_dir (os s') !! tmp_path cat_txn = None).
Proof.
  assert (H1 : txn_type cat_txn = kTypePinned ∨ txn_type cat_txn = kTypeCatalog)
    by (right; vm_compute; reflexivity).
  assert (H2 : ¬ 0 < 0) by (intros Hlt; discriminate Hlt).
  assert (H3 : ¬ (txn_size cat_txn ≠ expected_size cat_txn
                  ∧ expected_size cat_txn ≠ kSizeUnknown
                  ∧ (reports_correct_filesize_ (mgr cat_state0) = true
                     ∨ txn_size cat_txn ≠ 0))).
  { intros [Hne _]. apply Hne. vm_compute. reflexivity. }
  assert (H5 : Pin (txn_id cat_txn) (txn_size cat_txn) (description cat_txn)
                 (bool_decide (txn_type cat_txn = kTypeCatalog))
                 (quota_mgr_ (mgr cat_state0)) = (false, no_pin))
    by (vm_compute; reflexivity).
  split; [exact H1|]. split; [exact run_Flush_cat|].
  destruct (CommitTxn_pin cat_txn cat_state0 H1) as [_ Hpast].
  destruct (Hpast 0 cat_flushed_txn cat_flushed run_Flush_cat H2 H3) as [_ Hrefused].
  exact (Hrefused no_pin H5).
Defined.

Lemma run_nfs_Flush : Flush nfs_txn nfs_state0 = Ret ((0, nfs_flushed_txn), nfs_flushed).
Proof. vm_compute. reflexivity. Qed.

Lemma run_nfs_close : sys (sys_close (fd nfs_txn)) nfs_flushed = Ret (0, nfs_closed).
Proof. vm_compute. reflexivity. Qed.

Lemma run_nfs_pin :
  (if is_pinned_type (txn_type nfs_txn)
   then quota_Pin (txn_id nfs_txn) (txn_size nfs_txn) (description nfs_txn)
                  (bool_decide (txn_type nfs_txn = kTypeCatalog))
   else mret true) nfs_closed = Ret (true, nfs_closed).
Proof. vm_compute. reflexivity. Qed.

Lemma run_nfs_chmod :
  sys (sys_chmod (tmp_path nfs_txn) 432) nfs_closed = Ret (0, nfs_chmoded).
Proof. vm_compute. reflexivity. Qed.

Lemma run_nfs_link :
  sys_link (tmp_path nfs_txn) (final_path nfs_txn) (os nfs_chmoded) = (0, nfs_linked).
Proof. vm_compute. reflexivity. Qed.

Lemma run_nfs_unlink : sys_unlink (tmp_path nfs_txn) nfs_linked = (-1, nfs_unlinked).
Proof. vm_compute. reflexivity. Qed.

Lemma run_nfs_Rename :
  Rename (tmp_path nfs_txn) (final_path nfs_txn) nfs_chmoded = Ret (-5, nfs_renamed).
Proof. vm_compute. reflexivity. Qed.

Lemma Rename_on_nfs_witness :
  alien_cache_on_nfs_ (mgr nfs_chmoded) = true
  ∧ sys_link (tmp_path nfs_txn) (final_path nfs_txn) (os nfs_chmoded) = (0, nfs_linked)
  ∧ sys_unlink (tmp_path nfs_txn) nfs_linked = (-1, nfs_unlinked)
  ∧ Rename (tmp_path nfs_txn) (final_path nfs_txn) nfs_chmoded
    = Ret (- w_errno nfs_unlinked, mkState (mgr nfs_chmoded) nfs_unlinked)
  ∧ - w_errno nfs_unlinked < 0
  ∧ ∃ s', CommitTxn nfs_txn nfs_state0 = Ret (-5, s').
Proof.
  destruct (Rename_on_nfs (hash:=string) (Q:=FixedQuota)) as [HRename HCommit].
  assert (H1 : alien_cache_on_nfs_ (mgr nfs_chmoded) = true) by (vm_compute; reflexivity).
  split; [exact H1|]. split; [exact run_nfs_link|]. split; [exact run_nfs_unlink|].
  destruct (HRename (tmp_path nfs_txn) (final_path nfs_txn) nfs_chmoded 0 nfs_linked (-1)
              nfs_unlinked H1 run_nfs_link run_nfs_unlink) as (_ & _ & Hfails).
  destruct Hfails as [Hrun Hneg];
    [split; [left; intros Hlt; discriminate Hlt|reflexivity]|].
  split; [exact Hrun|]. split; [exact Hneg|].
  apply (HCommit nfs_txn nfs_state0 0 nfs_flushed_txn nfs_flushed 0 nfs_closed nfs_closed
           nfs_chmoded (-5) nfs_renamed).
  - vm_compute. reflexivity.
  - exact run_nfs_Flush.
  - intros Hlt. discriminate Hlt.
  - intros [Hne _]. apply Hne. vm_compute. reflexivity.
  - exact run_nfs_close.
  - exact run_nfs_pin.
  - exact run_nfs_chmod.
  - exact run_nfs_Rename.
Defined.

(** C6 as first stated does not hold: on an alien cache on NFS, with the
    link done and the unlink of the old name failing with EIO, neither
    Rename nor the enclosing CommitTxn returns success, although the object
    is in place under its canonical name. *)
Lemma Rename_on_nfs_unlink_fails :
  (sys_link (tmp_path nfs_txn) (final_path nfs_txn) (os nfs_chmoded)).1 = 0
  ∧ ¬ (∀ r s', Rename (tmp_path nfs_txn) (final_path nfs_txn) nfs_chmoded = Ret (r, s') →
               r = 0)
  ∧ ¬ (∀ r s', CommitTxn nfs_txn nfs_state0 = Ret (r, s') → r = 0)
  ∧ file_contents (final_path nfs_txn) (state_after (CommitTxn nfs_txn) nfs_state0)
    = Some ["h"; "e"; "l"; "l"; "o"; "010"]%byte.
Proof.
  split; [vm_compute; reflexivity|]. split; [|split].
  - intros Hclaim. specialize (Hclaim _ _ run_nfs_Rename). discriminate Hclaim.
  - intros Hclaim.
    assert (Hrun : CommitTxn nfs_txn nfs_state0
                   = Ret (-5, state_after (CommitTxn nfs_txn) nfs_state0))
      by (vm_compute; reflexivity).
    specialize (Hclaim _ _ Hrun). discriminate Hclaim.
  - vm_compute. reflexivity.
Qed.

Lemma Open2Mem_outcomes_witness :
  let path := cache_path_ (mgr with_empty_object) +:+ "/" +:+ MakePathWithoutSuffix h1 in
  w_dir (os with_empty_object) !! path = Some 0%nat
  ∧ w_inodes (os with_empty_object) !! 0%nat = Some {| i_data := []; i_mode := 384 |}
  ∧ w_script (os with_empty_object) = []
  ∧ ∃ s' fd,
      Open2Mem h1 with_empty_object = Ret ((true, None, 0), s')
      ∧ w_log (os s') =
          w_log (os with_empty_object)
          ++ [EvSys (SysOpen path); EvQuota (QTouch h1);
              EvSys (SysFstat fd); EvSys (SysClose fd)].
Proof.
  intros path.
  assert (H1 : w_dir (os with_empty_object) !! path = Some 0%nat)
    by (vm_compute; reflexivity).
  assert (H2 : w_inodes (os with_empty_object) !! 0%nat
               = Some {| i_data := []; i_mode := 384 |}) by (vm_compute; reflexivity).
  assert (H3 : w_script (os with_empty_object) = []) by (vm_compute; reflexivity).
  split; [exact H1|]. split; [exact H2|]. split; [exact H3|].
  destruct (Open2Mem_outcomes h1 with_empty_object) as [Hzero _].
  exact (Hzero 0%nat 384 H1 H2 H3).
Defined.

(** C1 fails on the code.  A blob of 4097 bytes, 4096 times 'A' and then
    'B', is committed with CommitFromMem, which succeeds; Open2Mem then
    succeeds with size 4097 but the buffer holds 4097 times 'A': the last
    byte is not the one that was committed. *)
Theorem CommitFromMem_Open2Mem_loses_bytes :
  result_of (CommitFromMem h1 blob_4097 4097 "blob") (fresh false []) = Some true
  ∧ result_of (Open2Mem h1) blob_committed = Some (true, Some (replicate 4097 "A"%byte), 4097)
  ∧ replicate 4097 "A"%byte ≠ blob_4097.
Proof.
  split; [vm_compute; reflexivity|]. split; [vm_compute; reflexivity|].
  intros Heq. apply (f_equal (λ l, l !! 4096%nat)) in Heq. vm_compute in Heq.
  discriminate Heq.
Qed.

(** C8 fails on the code.  One Write of those 4097 bytes to a transaction
    just started succeeds and returns 4097; after the flush by OpenFromTxn
    the staging file holds 4097 times 'A', not the bytes written. *)
Theorem Write_repeats_first_bytes :
  result_of (Write blob_4097 4097 started_txn) started = Some (4097, blob_written_txn)
  ∧ (∃ fd, result_of (OpenFromTxn blob_written_txn) blob_written
           = Some (fd, txn_after (OpenFromTxn blob_written_txn) blob_written)
           ∧ 0 ≤ fd)
  ∧ file_contents (tmp_path started_txn) blob_flushed = Some (replicate 4097 "A"%byte)
  ∧ replicate 4097 "A"%byte ≠ blob_4097.
Proof.
  split; [vm_compute; reflexivity|]. split; [|split].
  - exists 4. split; [vm_compute; reflexivity|intros Hgt; discriminate Hgt].
  - vm_compute. reflexivity.
  - intros Heq. apply (f_equal (λ l, l !! 4096%nat)) in Heq. vm_compute in Heq.
    discriminate Heq.
Qed.

(** * Further properties of the code *)


Section WriteMore.
Context {hash Q : Type} `{ShashAny hash} `{QuotaManager hash Q}.
Implicit Type s : State hash Q.
Implicit Type t : Transaction hash.

Lemma Write_loop_done fuel buf size written t s :
  ¬ written < size →
  Write_loop fuel buf size written t s
  = Ret ((i64 written, set_txn_size (u64 (txn_size t + written)) t), s).
Proof. intros Hge. destruct fuel; cbn [Write_loop]; by rewrite decide_False. Qed.

Lemma txn_eta t :
  mkTransaction (buffer t) (buf_pos t) (txn_size t) (expected_size t) (fd t) (txn_type t)
    (tmp_path t) (final_path t) (description t) (txn_id t) = t.
Proof. by destruct t. Qed.

Lemma memcpy_nothing dst off src : memcpy dst off src 0 = dst.
Proof. unfold memcpy. rewrite Z.add_0_r. cbn. apply take_drop. Qed.

Lemma Write_check_passes t size :
  ¬ (expected_size t ≠ kSizeUnknown ∧ u64 (txn_size t + size) > expected_size t) →
  bool_decide (expected_size t ≠ kSizeUnknown)
  && bool_decide (u64 (txn_size t + size) > expected_size t) = false.
Proof.
  intros Hno. apply not_true_is_false. intros Hyes. apply Hno.
  apply andb_prop in Hyes as [H1 H2]. apply bool_decide_eq_true in H1, H2. done.
Qed.

Lemma Write_buffered_aux buf size t s :
  0 ≤ buf_pos t → 0 ≤ size → buf_pos t + size ≤ kBufferSize →
  ¬ (expected_size t ≠ kSizeUnknown ∧ u64 (txn_size t + size) > expected_size t) →
  Write buf size t s =
    Ret ((size,
          set_txn_size (u64 (txn_size t + size))
            (set_buf_pos (buf_pos t + size)
               (set_buffer (memcpy (buffer t) (buf_pos t) buf size) t))), s).
Proof.
  intros Hpos Hsize Hfits Hcheck%Write_check_passes. unfold Write. rewrite Hcheck.
  unfold kBufferSize in *.
  destruct (decide (size = 0)) as [->|Hnz].
  { rewrite Write_loop_done by lia.
    rewrite memcpy_nothing, !Z.add_0_r, i64_small by lia.
    by destruct t. }
  destruct (Z.to_nat size) as [|fuel] eqn:Hfuel; [lia|].
  cbn [Write_loop]. unfold kBufferSize. rewrite (decide_True (P:=0 < size)) by lia.
  rewrite bind_eq. rewrite (decide_False (P:=buf_pos t = 4096)) by lia. cbn [mret M_ret].
  rewrite Z.sub_0_r, (u64_small size) by lia.
  rewrite (u64_small (4096 - buf_pos t)) by lia.
  rewrite Z.min_l by lia. rewrite Z.add_0_l, (u64_small size) by lia.
  rewrite Write_loop_done by lia.
  rewrite i64_small by lia. cbn [set_buf_pos set_buffer buf_pos txn_size buffer].
  rewrite u32_small by lia. done.
Qed.

(** X1.  A Write that fits into what is left of the buffer and stays
    within an expected size is only buffered: it returns the number of
    bytes, copies them behind the bytes that wait already, adds them to the
    size of the transaction, and makes no system call. *)
Theorem Write_buffered buf size t s :
  0 ≤ buf_pos t → 0 ≤ size → buf_pos t + size ≤ kBufferSize →
  ¬ (expected_size t ≠ kSizeUnknown ∧ u64 (txn_size t + size) > expected_size t) →
  Write buf size t s =
    Ret ((size,
          set_txn_size (u64 (txn_size t + size))
            (set_buf_pos (buf_pos t + size)
               (set_buffer (memcpy (buffer t) (buf_pos t) buf size) t))), s).
Proof. exact (Write_buffered_aux buf size t s). Qed.

End WriteMore.

(** ** The operating system when no fault is scripted, continued *)

Section OSNoFault2.
Context {hash : Type}.
Implicit Type w : World hash.

Lemma write_at_end data bytes : write_at data (length data) bytes = data ++ bytes.
Proof.
  unfold write_at. rewrite firstn_all, Nat.sub_diag. cbn.
  rewrite drop_ge by lia. by rewrite app_nil_r.
Qed.

Lemma sys_write_ok fd bytes w f i :
  w_script w = [] → w_fds w !! fd = Some f → of_writable f = true →
  w_inodes w !! of_ino f = Some i →
  sys_write fd bytes w =
    (Z.of_nat (length bytes),
     w_set_fds (<[fd := {| of_ino := of_ino f; of_writable := true;
                           of_pos := of_pos f + Z.of_nat (length bytes) |}]> (w_fds w))
       (w_set_inodes
          (<[of_ino f := {| i_data := write_at (i_data i) (Z.to_nat (of_pos f)) bytes;
                            i_mode := i_mode i |}]> (w_inodes w))
          (w_emit (EvSys (SysWrite fd (Z.of_nat (length bytes)))) w))).
Proof.
  intros Hs Hf Hw Hi. unfold sys_write, do_write, file_of_fd. rewrite enter_ok by done.
  cbn. by rewrite Hf, Hi, Hw.
Qed.

Lemma sys_open_rdonly_miss path w :
  w_script w = [] → w_dir w !! path = None →
  sys_open_rdonly path w = (-1, w_set_errno ENOENT (w_emit (EvSys (SysOpen path)) w)).
Proof.
  intros Hs Hd. unfold sys_open_rdonly. rewrite enter_ok by done. cbn. by rewrite Hd.
Qed.

Lemma sys_unlink_ok path w ino :
  w_script w = [] → w_dir w !! path = Some ino →
  sys_unlink path w =
    (0, w_set_dir (delete path (w_dir w)) (w_emit (EvSys (SysUnlink path)) w)).
Proof.
  intros Hs Hd. unfold sys_unlink. rewrite enter_ok by done. cbn. by rewrite Hd.
Qed.

Lemma sys_rename_ok old new w ino :
  w_script w = [] → w_dir w !! old = Some ino →
  sys_rename old new w =
    (0, w_set_dir (<[new := ino]> (delete old (w_dir w)))
          (w_emit (EvSys (SysRename old new)) w)).
Proof.
  intros Hs Hd. unfold sys_rename. rewrite enter_ok by done. cbn. by rewrite Hd.
Qed.

Lemma sys_link_ok old new w ino :
  w_script w = [] → w_dir w !! old = Some ino → w_dir w !! new = None →
  sys_link old new w =
    (0, w_set_dir (<[new := ino]> (w_dir w)) (w_emit (EvSys (SysLink old new)) w)).
Proof.
  intros Hs Hd Hn. unfold sys_link. rewrite enter_ok by done. cbn. by rewrite Hd, Hn.
Qed.

Lemma sys_chmod_ok path mode w ino i :
  w_script w = [] → w_dir w !! path = Some ino → w_inodes w !! ino = Some i →
  sys_chmod path mode w =
    (0, w_set_inodes (<[ino := {| i_data := i_data i; i_mode := mode |}]> (w_inodes w))
          (w_emit (EvSys (SysChmod path mode)) w)).
Proof.
  intros Hs Hd Hi. unfold sys_chmod. rewrite enter_ok by done. cbn. by rewrite Hd, Hi.
Qed.

Lemma sys_lseek0_ok fd w f :
  w_script w = [] → w_fds w !! fd = Some f →
  sys_lseek0 fd w =
    (0, w_set_fds (<[fd := {| of_ino := of_ino f; of_writable := of_writable f;
                              of_pos := 0 |}]> (w_fds w))
          (w_emit (EvSys (SysLseek fd)) w)).
Proof.
  intros Hs Hf. unfold sys_lseek0. rewrite enter_ok by done. cbn. by rewrite Hf.
Qed.

Lemma sys_ftruncate0_ok fd w f i :
  w_script w = [] → w_fds w !! fd = Some f → of_writable f = true →
  w_inodes w !! of_ino f = Some i →
  sys_ftruncate0 fd w =
    (0, w_set_inodes (<[of_ino f := {| i_data := []; i_mode := i_mode i |}]> (w_inodes w))
          (w_emit (EvSys (SysFtruncate fd)) w)).
Proof.
  intros Hs Hf Hw Hi. unfold sys_ftruncate0, file_of_fd. rewrite enter_ok by done. cbn.
  by rewrite Hf, Hi, Hw.
Qed.

Lemma sys_mkstemp_ok template w :
  w_script w = [] → is_template template = true →
  w_dir w !! mkstemp_name template (w_tmp_seq w) = None →
  sys_mkstemp template w =
    (Z.of_nat (w_next_fd w), mkstemp_name template (w_tmp_seq w),
     mkWorld (<[mkstemp_name template (w_tmp_seq w) := w_next_ino w]> (w_dir w))
       (<[w_next_ino w := {| i_data := []; i_mode := 384 |}]> (w_inodes w))
       (<[Z.of_nat (w_next_fd w) :=
            {| of_ino := w_next_ino w; of_writable := true; of_pos := 0 |}]> (w_fds w))
       (S (w_next_ino w)) (S (w_next_fd w)) (S (w_tmp_seq w)) (w_errno w) []
       (w_log w ++ [EvSys (SysMkstemp template)])).
Proof.
  intros Hs Ht Hd. unfold sys_mkstemp. rewrite enter_ok by done. cbn.
  rewrite Ht. cbn. rewrite Hd. cbn. by rewrite Hs.
Qed.

Lemma sys_unlink_result path w r w' :
  sys_unlink path w = (r, w') →
  (r = 0 ∧ w_dir w' !! path = None) ∨ (r = -1 ∧ 0 < w_errno w').
Proof.
  unfold sys_unlink, enter, fail. cbn.
  repeat (case_match; cbn in *; simplify_eq; try done);
    intros; simplify_eq; cbn;
    first [ left; split; [done|apply lookup_delete_eq]
          | right; split; [done|unfold ENOENT; lia] ].
Qed.

Ltac errno_crush :=
  cbv beta delta [enter fail w_new_fd w_new_inode do_write file_of_fd]; cbn;
  repeat (case_match; cbn in *; simplify_eq; try done);
  intros; simplify_eq; cbn;
  unfold ENOENT, EBADF, EEXIST, EINVAL in *; lia.

Lemma sys_lseek0_errno fd w r w' : sys_lseek0 fd w = (r, w') → r < 0 → 0 < w_errno w'.
Proof. unfold sys_lseek0. errno_crush. Qed.

Lemma sys_ftruncate0_errno fd w r w' :
  sys_ftruncate0 fd w = (r, w') → r < 0 → 0 < w_errno w'.
Proof. unfold sys_ftruncate0. errno_crush. Qed.


Lemma sys_rename_errno old new w r w' :
  sys_rename old new w = (r, w') → r < 0 → 0 < w_errno w'.
Proof. unfold sys_rename. errno_crush. Qed.

Lemma sys_link_errno old new w r w' :
  sys_link old new w = (r, w') → r < 0 → 0 < w_errno w'.
Proof. unfold sys_link. errno_crush. Qed.

Lemma sys_close_errno fd w r w' :
  sys_close fd w = (r, w') → r = 0 ∨ (r = -1 ∧ 0 < w_errno w').
Proof. unfold sys_close. errno_crush. Qed.


End OSNoFault2.

Ltac os_side ::=
  cbn;
  first [ assumption | reflexivity | apply lookup_insert_eq | eassumption
        | by rewrite lookup_insert_eq
        | by rewrite lookup_delete_eq
        | by rewrite lookup_insert_ne ].

Ltac os_known ::=
  cbn [os];
  first
    [ eassumption
    | erewrite sys_open_rdonly_ok by os_side; reflexivity
    | erewrite sys_open_rdonly_miss by os_side; reflexivity
    | erewrite sys_fstat_ok by os_side; reflexivity
    | erewrite sys_pread_ok by os_side; reflexivity
    | erewrite sys_close_ok by os_side; reflexivity
    | erewrite sys_write_ok by os_side; reflexivity
    | erewrite sys_unlink_ok by os_side; reflexivity
    | erewrite sys_rename_ok by os_side; reflexivity
    | erewrite sys_link_ok by os_side; reflexivity
    | erewrite sys_chmod_ok by os_side; reflexivity
    | erewrite sys_lseek0_ok by os_side; reflexivity
    | erewrite sys_ftruncate0_ok by os_side; reflexivity
    | cbv beta; erewrite sys_mkstemp_ok by os_side; reflexivity ].

Lemma wp_returns_with {hash Q A} (m : M hash Q A) (a : A) (P : State hash Q → Prop) s :
  wp true m (λ r s', r = a ∧ P s') s → ∃ s', m s = Ret (a, s') ∧ P s'.
Proof. intros (r & s' & Hrun & -> & HP)%wp_returns. eauto. Qed.

(** Symbolic execution that also keeps the manager in normal form. *)
Ltac wp_sym := repeat (first [wp_exec_step | wp_prim]; wp_cbn; st_simpl).

Section FlushMore.
Context {hash Q : Type} `{ShashAny hash} `{QuotaManager hash Q}.
Implicit Type s : State hash Q.
Implicit Type t : Transaction hash.

Lemma pending_length t :
  0 ≤ buf_pos t ≤ Z.of_nat (length (buffer t)) →
  Z.of_nat (length (pending t)) = buf_pos t.
Proof. intros Hpos. unfold pending. rewrite length_take. lia. Qed.

Lemma Flush_appends_aux t s ino data :
  staged t (os s) ino data →
  w_script (os s) = [] →
  0 ≤ buf_pos t ≤ kBufferSize →
  buf_pos t ≤ Z.of_nat (length (buffer t)) →
  ∃ s', Flush t s = Ret ((0, set_buf_pos 0 t), s')
        ∧ staged (set_buf_pos 0 t) (os s') ino (data ++ pending t)
        ∧ mgr s' = mgr s
        ∧ w_dir (os s') = w_dir (os s)
        ∧ w_script (os s') = []
        ∧ w_next_fd (os s') = w_next_fd (os s)
        ∧ w_log (os s') =
            w_log (os s)
            ++ (if decide (buf_pos t = 0) then []
                else [EvSys (SysWrite (fd t) (buf_pos t))]).
Proof.
  intros (Hdir & [mode Hino] & Hfd) Hscript Hpos Hlen. unfold kBufferSize in *.
  unfold Flush. destruct (decide (buf_pos t = 0)) as [Hz|Hnz].
  - exists s. assert (Ht : set_buf_pos 0 t = t) by (destruct t; cbn in *; by subst).
    rewrite Ht. unfold pending. rewrite Hz. cbn. rewrite !app_nil_r.
    repeat split; try done. by exists mode.
  - pose proof (pending_length t ltac:(lia)) as Hplen. fold (pending t).
    rewrite bind_eq.
    erewrite sys_Ret;
      [|eapply sys_write_ok; [exact Hscript|exact Hfd|reflexivity|exact Hino]].
    cbn [of_ino of_pos i_data i_mode]. rewrite Hplen.
    rewrite i32_small by lia. rewrite decide_False by lia.
    rewrite u32_small by lia. rewrite decide_False by (intros Hne; by apply Hne).
    eexists. split; [reflexivity|]. unfold staged. wp_cbn. cbn [fd tmp_path set_buf_pos].
    repeat split; try done.
    + exists mode. rewrite lookup_insert_eq. by rewrite Nat2Z.id, write_at_end.
    + rewrite lookup_insert_eq. rewrite length_app. do 2 f_equal. lia.
Qed.

(** X2.  When no system call fails, Flush appends the bytes that wait
    in the buffer to the staging file, returns 0 and leaves the buffer
    empty.  It writes at most once, and not at all when no byte waits; the
    directory and the manager are as before. *)
Theorem Flush_appends t s ino data :
  staged t (os s) ino data →
  w_script (os s) = [] →
  0 ≤ buf_pos t ≤ kBufferSize →
  buf_pos t ≤ Z.of_nat (length (buffer t)) →
  ∃ s', Flush t s = Ret ((0, set_buf_pos 0 t), s')
        ∧ staged (set_buf_pos 0 t) (os s') ino (data ++ pending t)
        ∧ mgr s' = mgr s
        ∧ w_dir (os s') = w_dir (os s)
        ∧ w_script (os s') = []
        ∧ w_next_fd (os s') = w_next_fd (os s)
        ∧ w_log (os s') =
            w_log (os s)
            ++ (if decide (buf_pos t = 0) then []
                else [EvSys (SysWrite (fd t) (buf_pos t))]).
Proof. exact (Flush_appends_aux t s ino data). Qed.

End FlushMore.

Section FlushOutcomes.
Context {hash Q : Type} `{ShashAny hash} `{QuotaManager hash Q}.
Implicit Type s : State hash Q.
Implicit Type t : Transaction hash.

Lemma Flush_outcomes_aux t s :
  (buf_pos t = 0 → Flush t s = Ret ((0, t), s))
  ∧ (0 < buf_pos t ≤ kBufferSize →
     ∀ r w', sys_write (fd t) (pending t) (os s) = (r, w') →
       (r < 0 →
        Flush t s = Ret ((- w_errno w', t), mkState (mgr s) w') ∧ - w_errno w' < 0)
       ∧ (0 ≤ r → r ≠ buf_pos t →
          Flush t s = Ret ((- EIO, set_buf_pos (buf_pos t - r) t), mkState (mgr s) w')
          ∧ r < buf_pos t)
       ∧ (r = buf_pos t →
          Flush t s = Ret ((0, set_buf_pos 0 t), mkState (mgr s) w'))).
Proof.
  split.
  { intros Hz. unfold Flush. by rewrite decide_True. }
  intros Hpos r w' Hw. unfold kBufferSize in *.
  pose proof (sys_write_result _ _ _ _ _ Hw) as Hr.
  assert (Hlen : Z.of_nat (length (pending t)) ≤ buf_pos t).
  { unfold pending. rewrite length_take. lia. }
  assert (Hrun : Flush t s =
            (let written := i32 r in
             if decide (written < 0) then e ← errno; mret (- e, t)
             else if decide (u32 written ≠ buf_pos t) then
               mret (- EIO, set_buf_pos (u32 (buf_pos t - written)) t)
             else mret (0, set_buf_pos 0 t)) (mkState (mgr s) w')).
  { unfold Flush. rewrite decide_False by lia. fold (pending t).
    rewrite bind_eq. by rewrite (sys_Ret _ _ _ _ Hw). }
  rewrite Hrun. cbv zeta. rewrite i32_small by lia.
  split; [|split].
  - intros Hneg. rewrite decide_True by done. split; [done|]. lia.
  - intros Hnn Hne. rewrite decide_False by lia. rewrite u32_small by lia.
    rewrite decide_True by done. rewrite u32_small by lia. split; [done|lia].
  - intros ->. rewrite decide_False by lia. rewrite u32_small by lia.
    rewrite decide_False; [done|]. intros Hne. by apply Hne.
Qed.

(** X3.  The outcomes of Flush.  With an empty buffer it returns 0
    without a system call.  Otherwise it writes the waiting bytes once: a
    failed write returns -errno and keeps the transaction, a short write
    returns -EIO and lowers buf_pos by the number of bytes written, a
    complete write returns 0 and empties the buffer. *)
Theorem Flush_outcomes t s :
  (buf_pos t = 0 → Flush t s = Ret ((0, t), s))
  ∧ (0 < buf_pos t ≤ kBufferSize →
     ∀ r w', sys_write (fd t) (pending t) (os s) = (r, w') →
       (r < 0 →
        Flush t s = Ret ((- w_errno w', t), mkState (mgr s) w') ∧ - w_errno w' < 0)
       ∧ (0 ≤ r → r ≠ buf_pos t →
          Flush t s = Ret ((- EIO, set_buf_pos (buf_pos t - r) t), mkState (mgr s) w')
          ∧ r < buf_pos t)
       ∧ (r = buf_pos t →
          Flush t s = Ret ((0, set_buf_pos 0 t), mkState (mgr s) w'))).
Proof. exact (Flush_outcomes_aux t s). Qed.

End FlushOutcomes.

Section StartTxnMore.
Context {hash Q : Type} `{ShashAny hash} `{QuotaManager hash Q}.
Implicit Type s : State hash Q.
Implicit Type t : Transaction hash.

Lemma StartTxn_staging_aux id size s :
  cache_mode_ (mgr s) = kCacheReadWrite →
  size = kSizeUnknown
  ∨ (size ≤ u64 (GetMaxFileSize (quota_mgr_ (mgr s)))
     ∧ (size ≤ kBigFile ∨ size ≤ u64 (GetCapacity (quota_mgr_ (mgr s))))) →
  w_script (os s) = [] →
  is_template (txn_template_path_ (mgr s)) = true →
  let name := mkstemp_name (txn_template_path_ (mgr s)) (w_tmp_seq (os s)) in
  let fd := Z.of_nat (w_next_fd (os s)) in
  let t := mkTransaction (replicate (Z.to_nat kBufferSize) x00) 0 0 size fd kTypeRegular
             name (cache_path_ (mgr s) +:+ "/" +:+ MakePathWithoutSuffix id) "" id in
  w_dir (os s) !! name = None →
  ∃ s', StartTxn id size s = Ret ((fd, Some t), s')
        ∧ staged t (os s') (w_next_ino (os s)) []
        ∧ w_dir (os s') = <[name := w_next_ino (os s)]> (w_dir (os s))
        ∧ w_fds (os s') =
            <[fd := {| of_ino := w_next_ino (os s); of_writable := true; of_pos := 0 |}]>
              (w_fds (os s))
        ∧ w_script (os s') = []
        ∧ w_next_fd (os s') = S (w_next_fd (os s))
        ∧ ∃ q, mgr s' = set_no_inflight_txns (i32 (no_inflight_txns_ (mgr s) + 1))
                          (set_quota_mgr q (mgr s)).
Proof.
  intros Hrw Hearly Hscript Htemplate name fd t Hfresh. subst name fd t.
  destruct s as [[cp tp ac nfs cm c rcf q0 rn] w]. cbn in *. subst.
  enough (Hwp : wp true (StartTxn id size)
            (λ r s', r = (Z.of_nat (w_next_fd w),
                          Some (mkTransaction (replicate (Z.to_nat kBufferSize) x00) 0 0 size
                                  (Z.of_nat (w_next_fd w)) kTypeRegular
                                  (mkstemp_name tp (w_tmp_seq w))
                                  (cp +:+ "/" +:+ MakePathWithoutSuffix id) "" id))
                     ∧ staged (mkTransaction (replicate (Z.to_nat kBufferSize) x00) 0 0 size
                                  (Z.of_nat (w_next_fd w)) kTypeRegular
                                  (mkstemp_name tp (w_tmp_seq w))
                                  (cp +:+ "/" +:+ MakePathWithoutSuffix id) "" id)
                         (os s') (w_next_ino w) []
                     ∧ w_dir (os s') =
                         <[mkstemp_name tp (w_tmp_seq w) := w_next_ino w]>
                           (w_dir w)
                     ∧ w_fds (os s') =
                         <[Z.of_nat (w_next_fd w) :=
                             {| of_ino := w_next_ino w; of_writable := true; of_pos := 0 |}]>
                           (w_fds w)
                     ∧ w_script (os s') = []
                     ∧ w_next_fd (os s') = S (w_next_fd w)
                     ∧ ∃ q, mgr s' =
                              set_no_inflight_txns (i32 (c + 1))
                                (set_quota_mgr q
                                   (mkPosixCacheManager cp tp
                                      ac nfs kCacheReadWrite
                                      c rcf
                                      q0 rn)))
            (mkState (mkPosixCacheManager cp tp
                        ac nfs kCacheReadWrite
                        c rcf q0
                        rn) w)).
  { apply wp_returns in Hwp as (r & s' & Hrun & -> & Hrest). eauto. }
  unfold StartTxn.
  assert (Hfin : ∀ (l : list (event hash)) t,
            t = mkTransaction (replicate (Z.to_nat kBufferSize) x00) 0 0 size
                  (Z.of_nat (w_next_fd w)) kTypeRegular (mkstemp_name tp (w_tmp_seq w))
                  (cp +:+ "/" +:+ MakePathWithoutSuffix id) "" id →
            staged t
              (mkWorld (<[mkstemp_name tp (w_tmp_seq w) := w_next_ino w]> (w_dir w))
                 (<[w_next_ino w := {| i_data := []; i_mode := 384 |}]> (w_inodes w))
                 (<[Z.of_nat (w_next_fd w) :=
                      {| of_ino := w_next_ino w; of_writable := true; of_pos := 0 |}]>
                    (w_fds w))
                 (S (w_next_ino w)) (S (w_next_fd w)) (S (w_tmp_seq w)) (w_errno w) [] l)
              (w_next_ino w) []).
  { intros l t ->. unfold staged. cbn. rewrite !lookup_insert_eq. eauto. }
  destruct Hearly as [->|[Hmax Hbig]].
  - wp_exec. st_simpl. cbn. split; [done|]. split; [by eapply Hfin|].
    repeat split; try done. by exists q0.
  - wp_sym.
    all: split; [done|]; split; [by eapply Hfin|]; repeat split; try done.
    all: eexists; reflexivity.
Qed.


End StartTxnMore.

Section WriteOneBatch.
Context {hash Q : Type} `{ShashAny hash} `{QuotaManager hash Q}.
Implicit Type s : State hash Q.
Implicit Type t : Transaction hash.

Lemma memcpy_length dst off src n :
  0 ≤ off → 0 ≤ n ≤ Z.of_nat (length src) → off + n ≤ Z.of_nat (length dst) →
  length (memcpy dst off src n) = length dst.
Proof.
  intros Hoff Hn Hfit. unfold memcpy. rewrite !length_app, !length_take, length_drop. lia.
Qed.

Lemma memcpy_take dst off src n :
  0 ≤ off → 0 ≤ n ≤ Z.of_nat (length src) → off + n ≤ Z.of_nat (length dst) →
  take (Z.to_nat (off + n)) (memcpy dst off src n)
  = take (Z.to_nat off) dst ++ take (Z.to_nat n) src.
Proof.
  intros Hoff Hn Hfit. unfold memcpy. rewrite app_assoc.
  rewrite take_app_length'; [done|].
  rewrite length_app, !length_take. lia.
Qed.

(** X5.  A Write that completes in one batch, that is, one that fits
    into what is left of the buffer, or into the whole buffer when that is
    full, loses nothing: when no system call fails, the staging file followed
    by the waiting bytes is afterwards what it was before, followed by the
    bytes written. *)
Theorem Write_one_batch buf size t s ino data :
  staged t (os s) ino data →
  w_script (os s) = [] →
  length (buffer t) = Z.to_nat kBufferSize →
  0 ≤ buf_pos t ≤ kBufferSize →
  0 ≤ size ≤ Z.of_nat (length buf) →
  size ≤ (if decide (buf_pos t = kBufferSize) then kBufferSize
          else kBufferSize - buf_pos t) →
  ¬ (expected_size t ≠ kSizeUnknown ∧ u64 (txn_size t + size) > expected_size t) →
  ∃ b p s' data',
    let t' := set_txn_size (u64 (txn_size t + size)) (set_buf_pos p (set_buffer b t)) in
    Write buf size t s = Ret ((size, t'), s')
    ∧ staged t' (os s') ino data'
    ∧ data' ++ pending t' = data ++ pending t ++ take (Z.to_nat size) buf
    ∧ length b = Z.to_nat kBufferSize
    ∧ 0 ≤ p ≤ kBufferSize
    ∧ mgr s' = mgr s
    ∧ w_dir (os s') = w_dir (os s)
    ∧ w_script (os s') = []
    ∧ w_next_fd (os s') = w_next_fd (os s).
Proof.
  intros Hstaged Hscript Hlen Hpos Hsize Hfits Hcheck. unfold kBufferSize in *.
  destruct (decide (buf_pos t + size ≤ 4096)) as [Hin|Hout].
  - exists (memcpy (buffer t) (buf_pos t) buf size), (buf_pos t + size), s, data.
    cbv zeta. split; [apply Write_buffered_aux; [lia|lia|unfold kBufferSize; lia|done]|].
    split; [exact Hstaged|]. split.
    { unfold pending. cbn [buf_pos buffer set_txn_size set_buf_pos set_buffer].
      rewrite memcpy_take by lia. done. }
    split; [rewrite memcpy_length; lia|]. repeat split; try done; lia.
  - destruct (decide (buf_pos t = 4096)) as [Hfull|Hnotfull]; [|lia].
    destruct (Flush_appends_aux t s ino data) as (s1 & Hflush & Hst1 & Hm1 & Hd1 & Hs1 & Hn1 & _);
      [done|done|unfold kBufferSize; lia|lia|].
    exists (memcpy (buffer t) 0 buf size), size, s1, (data ++ pending t).
    cbv zeta. split; [|split; [exact Hst1|]].
    + unfold Write. rewrite (Write_check_passes _ _ Hcheck).
      destruct (Z.to_nat size) as [|fuel] eqn:Hfuel; [lia|].
      cbn [Write_loop]. unfold kBufferSize.
      rewrite (decide_True (P:=0 < size)) by lia.
      rewrite bind_eq. rewrite (decide_True (P:=buf_pos t = 4096)) by done.
      rewrite bind_eq, Hflush.
      rewrite (decide_False (P:=0 ≠ 0)) by (intros Hne; by apply Hne).
      cbn [mret M_ret buf_pos set_buf_pos buffer].
      rewrite !Z.sub_0_r, (u64_small size), (u64_small 4096) by lia.
      rewrite Z.min_l by lia. rewrite !Z.add_0_l, (u64_small size) by lia.
      rewrite Write_loop_done by lia.
      rewrite i64_small, u32_small by lia. done.
    + pose proof (memcpy_take (buffer t) 0 buf size) as Hcopied.
      change (0 + size) with size in Hcopied.
      split.
      { unfold pending. cbn [buf_pos buffer set_txn_size set_buf_pos set_buffer].
        rewrite Hcopied by lia. cbn. by rewrite <- app_assoc. }
      split; [rewrite memcpy_length; lia|]. repeat split; try done; lia.
Qed.

End WriteOneBatch.

Section OpenFromTxnMore.
Context {hash Q : Type} `{ShashAny hash} `{QuotaManager hash Q}.
Implicit Type s : State hash Q.
Implicit Type t : Transaction hash.


End OpenFromTxnMore.

Section CommitTxnMore.
Context {hash Q : Type} `{ShashAny hash} `{QuotaManager hash Q}.
Implicit Type s : State hash Q.
Implicit Type t : Transaction hash.

Lemma CommitTxn_publishes_aux t s ino data :
  staged t (os s) ino data →
  w_script (os s) = [] →
  0 ≤ buf_pos t ≤ kBufferSize →
  buf_pos t ≤ Z.of_nat (length (buffer t)) →
  ¬ (txn_size t ≠ expected_size t ∧ expected_size t ≠ kSizeUnknown
     ∧ (reports_correct_filesize_ (mgr s) = true ∨ txn_size t ≠ 0)) →
  (is_pinned_type (txn_type t) = true →
   ∃ q, Pin (txn_id t) (txn_size t) (description t)
            (bool_decide (txn_type t = kTypeCatalog)) (quota_mgr_ (mgr s)) = (true, q)) →
  alien_cache_on_nfs_ (mgr s) = false ∨ w_dir (os s) !! final_path t = None →
  ∃ s', CommitTxn t s = Ret (0, s')
        ∧ w_dir (os s') = <[final_path t := ino]> (delete (tmp_path t) (w_dir (os s)))
        ∧ (∃ mode, w_inodes (os s') !! ino
                   = Some {| i_data := data ++ pending t; i_mode := mode |})
        ∧ w_fds (os s') !! fd t = None
        ∧ w_script (os s') = []
        ∧ no_inflight_txns_ (mgr s') = i32 (no_inflight_txns_ (mgr s) - 1).
Proof.
  intros Hstaged Hscript Hpos Hlen Hcheck%size_check_passes HPin Hnfs.
  destruct (Flush_appends_aux t s ino data) as (s1 & Hflush & Hst1 & Hm1 & Hd1 & Hs1 & Hn1 & _);
    [done..|].
  destruct Hst1 as (Hdir1 & [mode Hino1] & Hfd1).
  cbn [tmp_path fd set_buf_pos] in Hdir1, Hfd1.
  assert (Hne : alien_cache_on_nfs_ (mgr s) = true → final_path t ≠ tmp_path t).
  { intros Hon Heq. destruct Hnfs as [Hoff|Habsent]; [congruence|].
    rewrite <- Hd1, Heq, Hdir1 in Habsent. discriminate Habsent. }
  assert (Habsent1 : alien_cache_on_nfs_ (mgr s) = true →
                     w_dir (os s1) !! final_path t = None).
  { intros Hon. rewrite Hd1. destruct Hnfs as [Hoff|Habsent]; [congruence|done]. }
  enough (Hwp : wp true (CommitTxn t)
            (λ r s', r = 0
               ∧ w_dir (os s') = <[final_path t := ino]> (delete (tmp_path t) (w_dir (os s)))
               ∧ (∃ mode, w_inodes (os s') !! ino
                          = Some {| i_data := data ++ pending t; i_mode := mode |})
               ∧ w_fds (os s') !! fd t = None
               ∧ w_script (os s') = []
               ∧ no_inflight_txns_ (mgr s') = i32 (no_inflight_txns_ (mgr s) - 1)) s).
  { apply wp_returns in Hwp as (r & s' & Hrun & -> & Hrest). eauto. }
  destruct s as [[cp tp ac nfs cm c rcf q0 rn] w], s1 as [m1 w1]. cbn in *. subst m1.
  unfold CommitTxn, Rename.
  apply wp_bind. eapply wp_known; [exact Hflush|]. cbv beta.
  cbn [fd tmp_path txn_size expected_size txn_id txn_type description final_path set_buf_pos].
  apply wp_bind. wp_exec_step. wp_cbn. st_simpl. rewrite decide_False by lia.
  apply wp_bind, wp_gets. st_simpl. rewrite Hcheck.
  apply wp_bind.
  destruct (is_pinned_type (txn_type t)) eqn:Hty.
  - destruct (HPin eq_refl) as [q' HP'].
    unfold quota_Pin. apply wp_quota_call_with. intros ok q HP. st_simpl.
    rewrite HP' in HP. injection HP as <- <-. cbn [negb].
    destruct ac, nfs; try specialize (Hne eq_refl); try specialize (Habsent1 eq_refl);
      wp_sym.
    all: split; [done|]; split;
      [rewrite <- ?Hd1; first [done | by rewrite delete_insert_ne by (by apply not_eq_sym)]|].
    all: split; [eexists; first [apply lookup_insert_eq | eassumption]|].
    all: split; [apply lookup_delete_eq|done].
  - apply wp_ret. cbn [negb].
    destruct ac, nfs; try specialize (Hne eq_refl); try specialize (Habsent1 eq_refl);
      wp_sym.
    all: split; [done|]; split;
      [rewrite <- ?Hd1; first [done | by rewrite delete_insert_ne by (by apply not_eq_sym)]|].
    all: split; [eexists; first [apply lookup_insert_eq | eassumption]|].
    all: split; [apply lookup_delete_eq|done].
Qed.

(** X7.  When no system call fails, the size is the expected one
    (or none is expected), the quota collaborator pins a pinned object, and,
    on NFS, no object of that name exists yet, CommitTxn returns 0: the
    staging name is gone, the final path names the file with all bytes of
    the transaction, the descriptor is closed and the counter of
    transactions is one lower. *)
Theorem CommitTxn_publishes t s ino data :
  staged t (os s) ino data →
  w_script (os s) = [] →
  0 ≤ buf_pos t ≤ kBufferSize →
  buf_pos t ≤ Z.of_nat (length (buffer t)) →
  ¬ (txn_size t ≠ expected_size t ∧ expected_size t ≠ kSizeUnknown
     ∧ (reports_correct_filesize_ (mgr s) = true ∨ txn_size t ≠ 0)) →
  (is_pinned_type (txn_type t) = true →
   ∃ q, Pin (txn_id t) (txn_size t) (description t)
            (bool_decide (txn_type t = kTypeCatalog)) (quota_mgr_ (mgr s)) = (true, q)) →
  alien_cache_on_nfs_ (mgr s) = false ∨ w_dir (os s) !! final_path t = None →
  ∃ s', CommitTxn t s = Ret (0, s')
        ∧ w_dir (os s') = <[final_path t := ino]> (delete (tmp_path t) (w_dir (os s)))
        ∧ (∃ mode, w_inodes (os s') !! ino
                   = Some {| i_data := data ++ pending t; i_mode := mode |})
        ∧ w_fds (os s') !! fd t = None
        ∧ w_script (os s') = []
        ∧ no_inflight_txns_ (mgr s') = i32 (no_inflight_txns_ (mgr s) - 1).
Proof. exact (CommitTxn_publishes_aux t s ino data). Qed.

End CommitTxnMore.

Section Open2MemMore.
Context {hash Q : Type} `{ShashAny hash} `{QuotaManager hash Q}.
Implicit Type s : State hash Q.
Implicit Type t : Transaction hash.

Lemma Open2Mem_reads_object_aux id s ino data mode :
  let path := cache_path_ (mgr s) +:+ "/" +:+ MakePathWithoutSuffix id in
  w_dir (os s) !! path = Some ino →
  w_inodes (os s) !! ino = Some {| i_data := data; i_mode := mode |} →
  w_script (os s) = [] →
  Z.of_nat (length data) < 2 ^ 64 →
  ∃ s', Open2Mem id s
        = Ret ((true, if decide (data = []) then None else Some data,
                Z.of_nat (length data)), s')
        ∧ w_dir (os s') = w_dir (os s)
        ∧ w_inodes (os s') = w_inodes (os s)
        ∧ w_fds (os s') !! Z.of_nat (w_next_fd (os s)) = None
        ∧ w_script (os s') = [].
Proof.
  intros path Hdir Hino Hscript Hlen. subst path.
  destruct s as [c w]. cbn [mgr os] in *.
  enough (Hwp : wp true (Open2Mem id)
            (λ r s', r = (true, if decide (data = []) then None else Some data,
                          Z.of_nat (length data))
                     ∧ w_dir (os s') = w_dir w
                     ∧ w_inodes (os s') = w_inodes w
                     ∧ w_fds (os s') !! Z.of_nat (w_next_fd w) = None
                     ∧ w_script (os s') = [])
            (mkState c w)).
  { apply wp_returns in Hwp as (r & s' & Hrun & -> & Hrest). eauto. }
  unfold Open2Mem, Open, GetSize, Pread, Close.
  destruct (decide (data = [])) as [->|Hne].
  - wp_exec. repeat split; try done. apply lookup_delete_eq.
  - assert (Hpos : 0 < Z.of_nat (length data)) by (destruct data; [done|cbn; lia]).
    wp_exec. rewrite (u64_small (Z.of_nat (length data))) by lia.
    wp_exec. rewrite Nat2Z.id, firstn_all. wp_exec.
    change (drop (Z.to_nat 0) data) with data.
    rewrite (u64_small (Z.of_nat (length data))) by lia.
    wp_exec. repeat split; try done. apply lookup_delete_eq.
Qed.

(** X8.  When the object is in the cache and no system call
    fails, Open2Mem returns true with the size and all bytes of the object,
    a null buffer for an empty object, and leaves no descriptor open; the
    directory and the files are unchanged. *)
Theorem Open2Mem_reads_object id s ino data mode :
  let path := cache_path_ (mgr s) +:+ "/" +:+ MakePathWithoutSuffix id in
  w_dir (os s) !! path = Some ino →
  w_inodes (os s) !! ino = Some {| i_data := data; i_mode := mode |} →
  w_script (os s) = [] →
  Z.of_nat (length data) < 2 ^ 64 →
  ∃ s', Open2Mem id s
        = Ret ((true, if decide (data = []) then None else Some data,
                Z.of_nat (length data)), s')
        ∧ w_dir (os s') = w_dir (os s)
        ∧ w_inodes (os s') = w_inodes (os s)
        ∧ w_fds (os s') !! Z.of_nat (w_next_fd (os s)) = None
        ∧ w_script (os s') = [].
Proof. exact (Open2Mem_reads_object_aux id s ino data mode). Qed.

End Open2MemMore.

Section RoundTrip.
Context {hash Q : Type} `{ShashAny hash} `{QuotaManager hash Q}.
Implicit Type s : State hash Q.
Implicit Type t : Transaction hash.

Lemma staged_CtrlTxn desc type flags t (w : World hash) ino data :
  staged t w ino data → staged (CtrlTxn desc type flags t) w ino data.
Proof. done. Qed.

(** X9.  A buffer of at most kBufferSize bytes that is
    committed with CommitFromMem is read back unchanged by Open2Mem, when no
    system call fails and the quota collaborator admits the size. *)
Theorem CommitFromMem_Open2Mem_small id buf desc s :
  let size := Z.of_nat (length buf) in
  let name := mkstemp_name (txn_template_path_ (mgr s)) (w_tmp_seq (os s)) in
  let final := cache_path_ (mgr s) +:+ "/" +:+ MakePathWithoutSuffix id in
  size ≤ kBufferSize →
  cache_mode_ (mgr s) = kCacheReadWrite →
  size ≤ u64 (GetMaxFileSize (quota_mgr_ (mgr s))) →
  w_script (os s) = [] →
  is_template (txn_template_path_ (mgr s)) = true →
  w_dir (os s) !! name = None →
  alien_cache_on_nfs_ (mgr s) = false ∨ (w_dir (os s) !! final = None ∧ final ≠ name) →
  ∃ s1 s2,
    CommitFromMem id buf size desc s = Ret (true, s1)
    ∧ Open2Mem id s1
      = Ret ((true, if decide (buf = []) then None else Some buf, size), s2).
Proof.
  intros size name final Hsmall Hrw Hmax Hscript Htemplate Hfresh Hnfs.
  unfold kBufferSize in Hsmall.
  destruct (StartTxn_staging_aux id size s) as (s1 & Hstart & Hst1 & Hd1 & Hf1 & Hs1 & Hn1 & q1 & Hm1);
    [done|right; split; [done|left; unfold kBufferSize, kBigFile in *; lia]|done..|].
  fold name in Hstart, Hst1, Hd1. fold final in Hstart, Hst1.
  set (t0 := mkTransaction (replicate (Z.to_nat kBufferSize) x00) 0 0 size
               (Z.of_nat (w_next_fd (os s))) kTypeRegular name final "" id) in *.
  set (t1 := CtrlTxn desc kTypeRegular 0 t0).
  assert (Hwrite : Write buf size t1 s1 =
            Ret ((size, set_txn_size (u64 (txn_size t1 + size))
                          (set_buf_pos (buf_pos t1 + size)
                             (set_buffer (memcpy (buffer t1) (buf_pos t1) buf size) t1))),
                 s1)).
  { apply Write_buffered_aux; cbn; unfold kBufferSize; try lia.
    intros [_ Hover]. rewrite u64_small in Hover by lia. lia. }
  set (t2 := set_txn_size _ _) in Hwrite.
  assert (Hpending : pending t2 = buf).
  { unfold pending, t2. cbn [buf_pos buffer set_txn_size set_buf_pos set_buffer CtrlTxn t1 t0].
    pose proof (memcpy_take (replicate (Z.to_nat kBufferSize) x00) 0 buf size) as Hcopied.
    change (0 + size) with size in *. rewrite Hcopied.
    - cbn. unfold size. by rewrite Nat2Z.id, firstn_all.
    - done.
    - lia.
    - rewrite length_replicate. unfold kBufferSize. lia. }
  destruct (CommitTxn_publishes_aux t2 s1 (w_next_ino (os s)) [])
    as (s2 & Hcommit & Hd2 & [mode Hi2] & _ & Hs2 & _).
  { exact Hst1. }
  { done. }
  { cbn. unfold kBufferSize. lia. }
  { cbn. rewrite memcpy_length; cbn; rewrite ?length_replicate; unfold kBufferSize; lia. }
  { intros [Hmis _]. apply Hmis. cbn. apply u64_small. lia. }
  { intros Hp. discriminate Hp. }
  { rewrite Hm1, Hd1. cbn [alien_cache_on_nfs_ set_no_inflight_txns set_quota_mgr final_path
                             t2 set_txn_size set_buf_pos set_buffer t1 CtrlTxn t0].
    destruct Hnfs as [Hoff|[Habsent Hne]]; [by left|right].
    by rewrite lookup_insert_ne. }
  assert (Hpath : cache_path_ (mgr s2) = cache_path_ (mgr s)).
  { from_run (CommitTxn_effect _ _) as [[q Hm2] _]. by rewrite Hm2, Hm1. }
  destruct (Open2Mem_reads_object_aux id s2 (w_next_ino (os s)) buf mode)
    as (s3 & Hopen & _).
  { rewrite Hpath, Hd2. apply lookup_insert_eq. }
  { by rewrite Hi2, Hpending. }
  { done. }
  { lia. }
  exists s2, s3. split; [|exact Hopen].
  apply wp_returns_eq. unfold CommitFromMem.
  apply wp_bind. eapply wp_known; [exact Hstart|]. cbv beta iota.
  rewrite decide_False by lia.
  fold t1. apply wp_bind. eapply wp_known; [exact Hwrite|]. cbv beta iota.
  rewrite (bool_decide_eq_false_2 (size < 0)) by lia.
  rewrite (bool_decide_eq_false_2 (u64 size ≠ size))
    by (rewrite u64_small by lia; intros Hne; by apply Hne).
  cbn [orb]. apply wp_bind. eapply wp_known; [exact Hcommit|]. cbv beta iota.
  by apply wp_ret.
Qed.

End RoundTrip.

Section AbortTxnMore.
Context {hash Q : Type} `{ShashAny hash} `{QuotaManager hash Q}.
Implicit Type s : State hash Q.
Implicit Type t : Transaction hash.

Lemma AbortTxn_outcomes_aux t s :
  (∀ r s', AbortTxn t s = Ret (r, s') →
     (r = 0 ∨ r < 0)
     ∧ w_log (os s') =
         w_log (os s)
         ++ [EvSys (SysClose (fd t)); EvSys (SysUnlink (tmp_path t));
             EvAtomicDec (i32 (no_inflight_txns_ (mgr s) - 1))]
     ∧ (r = 0 → w_dir (os s') !! tmp_path t = None)
     ∧ (∀ p, p ≠ tmp_path t → w_dir (os s') !! p = w_dir (os s) !! p))
  ∧ (∀ ino data,
       staged t (os s) ino data → w_script (os s) = [] →
       ∃ s', AbortTxn t s = Ret (0, s')
             ∧ w_dir (os s') = delete (tmp_path t) (w_dir (os s))
             ∧ w_fds (os s') = delete (fd t) (w_fds (os s))
             ∧ w_script (os s') = []
             ∧ mgr s' = set_no_inflight_txns (i32 (no_inflight_txns_ (mgr s) - 1)) (mgr s)).
Proof.
  split.
  - intros r s' Hrun.
    enough (Hwp : wp false (AbortTxn t)
              (λ r s', (r = 0 ∨ r < 0)
                 ∧ w_log (os s') =
                     w_log (os s)
                     ++ [EvSys (SysClose (fd t)); EvSys (SysUnlink (tmp_path t));
                         EvAtomicDec (i32 (no_inflight_txns_ (mgr s) - 1))]
                 ∧ (r = 0 → w_dir (os s') !! tmp_path t = None)
                 ∧ (∀ p, p ≠ tmp_path t → w_dir (os s') !! p = w_dir (os s) !! p)) s).
    { exact (wp_Ret _ _ _ _ _ _ Hwp Hrun). }
    unfold AbortTxn. wp_go.
    all: match goal with
         | Hc : sys_close _ _ = _ |- _ => apply sys_close_frame in Hc as [Hd1 _]
         end.
    all: match goal with
         | Hu : sys_unlink _ _ = _ |- _ =>
             pose proof (sys_unlink_errno _ _ _ _ Hu) as Herr;
             pose proof (sys_unlink_result _ _ _ _ Hu) as Hres;
             apply sys_unlink_frame in Hu as [Hd2 _]
         end.
    all: cbn [w_dir w_emit] in *.
    all: split; [lia|]; split; [log_norm; done|]; split.
    all: try (intros Hz; destruct Hres as [[_ Hgone]|[Hneg _]]; [exact Hgone|lia]).
    all: try (intros Hz; lia).
    all: intros p Hp; destruct Hd2 as [-> | ->]; rewrite ?Hd1;
      [by rewrite lookup_delete_ne|done].
  - intros ino data (Hdir & _ & Hfd) Hscript.
    apply wp_returns_with. unfold AbortTxn. wp_exec. done.
Qed.

(** X10.  AbortTxn closes the descriptor, unlinks the staging file
    and decrements the counter of transactions, in this order and whatever
    fails; it returns 0 or a negative errno, after 0 the staging name is
    gone, and no other name is touched.  When no system call fails it
    returns 0. *)
Theorem AbortTxn_outcomes t s :
  (∀ r s', AbortTxn t s = Ret (r, s') →
     (r = 0 ∨ r < 0)
     ∧ w_log (os s') =
         w_log (os s)
         ++ [EvSys (SysClose (fd t)); EvSys (SysUnlink (tmp_path t));
             EvAtomicDec (i32 (no_inflight_txns_ (mgr s) - 1))]
     ∧ (r = 0 → w_dir (os s') !! tmp_path t = None)
     ∧ (∀ p, p ≠ tmp_path t → w_dir (os s') !! p = w_dir (os s) !! p))
  ∧ (∀ ino data,
       staged t (os s) ino data → w_script (os s) = [] →
       ∃ s', AbortTxn t s = Ret (0, s')
             ∧ w_dir (os s') = delete (tmp_path t) (w_dir (os s))
             ∧ w_fds (os s') = delete (fd t) (w_fds (os s))
             ∧ w_script (os s') = []
             ∧ mgr s' = set_no_inflight_txns (i32 (no_inflight_txns_ (mgr s) - 1)) (mgr s)).
Proof. exact (AbortTxn_outcomes_aux t s). Qed.

End AbortTxnMore.

Section StartAbort.
Context {hash Q : Type} `{ShashAny hash} `{QuotaManager hash Q}.
Implicit Type s : State hash Q.
Implicit Type t : Transaction hash.

(** X11.  A transaction that is started and then aborted
    leaves no trace when no system call fails: the directory, the table of
    descriptors and the counter of transactions are as before StartTxn. *)
Theorem StartTxn_AbortTxn_no_trace id size s :
  cache_mode_ (mgr s) = kCacheReadWrite →
  size = kSizeUnknown
  ∨ (size ≤ u64 (GetMaxFileSize (quota_mgr_ (mgr s)))
     ∧ (size ≤ kBigFile ∨ size ≤ u64 (GetCapacity (quota_mgr_ (mgr s))))) →
  w_script (os s) = [] →
  is_template (txn_template_path_ (mgr s)) = true →
  w_dir (os s) !! mkstemp_name (txn_template_path_ (mgr s)) (w_tmp_seq (os s)) = None →
  w_fds (os s) !! Z.of_nat (w_next_fd (os s)) = None →
  ∃ fd t s1 s2,
    StartTxn id size s = Ret ((fd, Some t), s1)
    ∧ AbortTxn t s1 = Ret (0, s2)
    ∧ w_dir (os s2) = w_dir (os s)
    ∧ w_fds (os s2) = w_fds (os s)
    ∧ no_inflight_txns_ (mgr s2) = i32 (no_inflight_txns_ (mgr s)).
Proof.
  intros Hrw Hearly Hscript Htemplate Hfresh Hfree.
  destruct (StartTxn_staging_aux id size s) as (s1 & Hstart & Hst1 & Hd1 & Hf1 & Hs1 & Hn1 & q1 & Hm1);
    [done..|].
  destruct (AbortTxn_outcomes_aux
              (mkTransaction (replicate (Z.to_nat kBufferSize) x00) 0 0 size
                 (Z.of_nat (w_next_fd (os s))) kTypeRegular
                 (mkstemp_name (txn_template_path_ (mgr s)) (w_tmp_seq (os s)))
                 (cache_path_ (mgr s) +:+ "/" +:+ MakePathWithoutSuffix id) "" id) s1)
    as [_ Habort].
  destruct (Habort _ _ Hst1 Hs1) as (s2 & Hrun & Hd2 & Hf2 & _ & Hm2).
  eexists _, _, s1, s2. split; [exact Hstart|]. split; [exact Hrun|].
  cbn [tmp_path fd] in *. split; [|split].
  - rewrite Hd2, Hd1. by apply delete_insert_id.
  - rewrite Hf2, Hf1. by apply delete_insert_id.
  - rewrite Hm2, Hm1. cbn. apply i32_inc_dec.
Qed.

End StartAbort.

Section ResetMore.
Context {hash Q : Type} `{ShashAny hash} `{QuotaManager hash Q}.
Implicit Type s : State hash Q.
Implicit Type t : Transaction hash.

(** X12.  Reset leaves the transaction with size 0 and an empty buffer,
    also when it fails, and does not touch the manager; it seeks and, where
    that succeeded, truncates.  When no system call fails it returns 0 and
    the staging file is empty again. *)
Theorem Reset_outcomes t s :
  (∀ r t' s', Reset t s = Ret ((r, t'), s') →
     t' = set_txn_size 0 (set_buf_pos 0 t)
     ∧ mgr s' = mgr s
     ∧ ((r < 0 ∧ w_log (os s') = w_log (os s) ++ [EvSys (SysLseek (fd t))])
        ∨ ((r = 0 ∨ r < 0)
           ∧ w_log (os s') =
               w_log (os s) ++ [EvSys (SysLseek (fd t)); EvSys (SysFtruncate (fd t))])))
  ∧ (∀ ino data,
       staged t (os s) ino data → w_script (os s) = [] →
       ∃ s', Reset t s = Ret ((0, set_txn_size 0 (set_buf_pos 0 t)), s')
             ∧ staged (set_txn_size 0 (set_buf_pos 0 t)) (os s') ino []
             ∧ w_dir (os s') = w_dir (os s)
             ∧ w_script (os s') = []).
Proof.
  split.
  - intros r t' s' Hrun.
    enough (Hwp : wp false (Reset t)
              (λ '(r, t') s',
                 t' = set_txn_size 0 (set_buf_pos 0 t)
                 ∧ mgr s' = mgr s
                 ∧ ((r < 0 ∧ w_log (os s') = w_log (os s) ++ [EvSys (SysLseek (fd t))])
                    ∨ ((r = 0 ∨ r < 0)
                       ∧ w_log (os s') =
                           w_log (os s)
                           ++ [EvSys (SysLseek (fd t)); EvSys (SysFtruncate (fd t))]))) s).
    { exact (wp_Ret _ _ _ _ _ _ Hwp Hrun). }
    unfold Reset. cbn [fd set_txn_size set_buf_pos]. wp_go.
    all: split; [done|]; split; [done|].
    + left. split; [|done].
      match goal with Hc : sys_lseek0 _ _ = _ |- _ => apply sys_lseek0_errno in Hc; lia end.
    + right. split; [|log_norm; done]. right.
      match goal with
      | Hc : sys_ftruncate0 _ _ = _ |- _ => apply sys_ftruncate0_errno in Hc; lia
      end.
    + right. split; [by left|log_norm; done].
  - intros ino data (Hdir & [mode Hino] & Hfd) Hscript.
    apply wp_returns_with. unfold Reset. cbn [fd set_txn_size set_buf_pos].
    wp_exec. split; [done|]. split; [|done].
    unfold staged. cbn. rewrite !lookup_insert_eq. split; [done|]. split; [by exists mode|done].
Qed.

End ResetMore.

Section OpenMore.
Context {hash Q : Type} `{ShashAny hash} `{QuotaManager hash Q}.
Implicit Type s : State hash Q.
Implicit Type t : Transaction hash.


End OpenMore.

Section TearDownMore.
Context {hash Q : Type} `{ShashAny hash} `{QuotaManager hash Q}.
Implicit Type s : State hash Q.
Implicit Type t : Transaction hash.

Lemma drain_loop_waits fuel s :
  no_inflight_txns_ (mgr s) ≠ 0 → drain_loop fuel s = OutOfFuel.
Proof.
  intros Hbusy. induction fuel as [|fuel IH]; [done|].
  cbn [drain_loop]. rewrite bind_eq. cbn [atomic_read32 gets].
  rewrite decide_True by done. rewrite bind_eq. cbn [SafeSleepMs mret M_ret]. exact IH.
Qed.

Lemma TearDown2ReadOnly_outcomes_aux s :
  (no_inflight_txns_ (mgr s) ≠ 0 → ∀ fuel, TearDown2ReadOnly fuel s = OutOfFuel)
  ∧ (no_inflight_txns_ (mgr s) = 0 →
     ∀ fuel,
       TearDown2ReadOnly (S fuel) s =
         Ret (tt,
              mkState
                (mkPosixCacheManager (cache_path_ (mgr s)) (txn_template_path_ (mgr s))
                   (alien_cache_ (mgr s)) (alien_cache_on_nfs_ (mgr s)) kCacheReadOnly 0
                   (reports_correct_filesize_ (mgr s)) NoopQuotaManager
                   (repository_name_ (mgr s)))
                (sys_unlink ("running." +:+ repository_name_ (mgr s)) (os s)).2)).
Proof.
  split.
  - intros Hbusy fuel. unfold TearDown2ReadOnly.
    rewrite bind_eq. cbn [set_cache_mode]. rewrite bind_eq.
    rewrite drain_loop_waits; [done|]. done.
  - intros Hidle fuel. destruct s as [[cp tp ac nfs cm c rcf q0 rn] w]. cbn in Hidle. subst c.
    unfold TearDown2ReadOnly.
    rewrite bind_eq. cbn [set_cache_mode]. rewrite bind_eq.
    rewrite drain_loop_returns by done.
    rewrite !bind_eq. cbn [gets mgr os]. rewrite bind_eq. unfold sys. cbn.
    by destruct (sys_unlink _ _).
Qed.

(** X14.  TearDown2ReadOnly does not return while a
    transaction is open.  With none open it returns with the read-only
    mode set, the quota collaborator replaced by the no-op one, and the file
    running.<repository name> unlinked; nothing else of the manager
    changes. *)
Theorem TearDown2ReadOnly_outcomes s :
  (no_inflight_txns_ (mgr s) ≠ 0 → ∀ fuel, TearDown2ReadOnly fuel s = OutOfFuel)
  ∧ (no_inflight_txns_ (mgr s) = 0 →
     ∀ fuel,
       TearDown2ReadOnly (S fuel) s =
         Ret (tt,
              mkState
                (mkPosixCacheManager (cache_path_ (mgr s)) (txn_template_path_ (mgr s))
                   (alien_cache_ (mgr s)) (alien_cache_on_nfs_ (mgr s)) kCacheReadOnly 0
                   (reports_correct_filesize_ (mgr s)) NoopQuotaManager
                   (repository_name_ (mgr s)))
                (sys_unlink ("running." +:+ repository_name_ (mgr s)) (os s)).2)).
Proof. exact (TearDown2ReadOnly_outcomes_aux s). Qed.

End TearDownMore.

Section QuotaNotifications.
Context {hash Q : Type} `{ShashAny hash} `{QuotaManager hash Q}.
Implicit Type s : State hash Q.
Implicit Type t : Transaction hash.

Lemma quota_calls_app (l1 l2 : list (event hash)) :
  quota_calls (l1 ++ l2) = quota_calls l1 ++ quota_calls l2.
Proof. apply omap_app. Qed.

Lemma Rename_syscalls_only strict old new s :
  wp strict (Rename old new)
     (λ _ s', mgr s' = mgr s
              ∧ ∃ evs, w_log (os s') = w_log (os s) ++ evs ∧ quota_calls evs = []) s.
Proof.
  unfold Rename. wp_go; (split; [done|]); log_norm; eexists; (split; [reflexivity|done]).
Qed.

(** X15.  What CommitTxn tells the quota
    collaborator.  A commit that succeeds makes exactly one call, Insert,
    InsertVolatile or Pin by the type of the object.  A commit that fails
    makes none, or for a pinned object the Pin alone, or the Pin followed by
    the Remove that takes it back. *)
Theorem CommitTxn_quota_notifications t s r s' :
  CommitTxn t s = Ret (r, s') →
  let pin := QPin (txn_id t) (txn_size t) (description t)
                  (bool_decide (txn_type t = kTypeCatalog)) in
  ∃ evs,
    w_log (os s') = w_log (os s) ++ evs
    ∧ (¬ r < 0 →
       quota_calls evs =
         match txn_type t with
         | kTypeRegular => [QInsert (txn_id t) (txn_size t) (description t)]
         | kTypeVolatile => [QInsertVolatile (txn_id t) (txn_size t) (description t)]
         | kTypeCatalog | kTypePinned => [pin]
         end)
    ∧ (r < 0 →
       quota_calls evs = []
       ∨ (is_pinned_type (txn_type t) = true
          ∧ (quota_calls evs = [pin] ∨ quota_calls evs = [pin; QRemove (txn_id t)]))).
Proof.
  intros Hrun pin. subst pin.
  enough (Hwp : wp false (CommitTxn t)
            (λ r s', ∃ evs,
               w_log (os s') = w_log (os s) ++ evs
               ∧ (¬ r < 0 →
                  quota_calls evs =
                    match txn_type t with
                    | kTypeRegular => [QInsert (txn_id t) (txn_size t) (description t)]
                    | kTypeVolatile =>
                        [QInsertVolatile (txn_id t) (txn_size t) (description t)]
                    | kTypeCatalog | kTypePinned =>
                        [QPin (txn_id t) (txn_size t) (description t)
                              (bool_decide (txn_type t = kTypeCatalog))]
                    end)
               ∧ (r < 0 →
                  quota_calls evs = []
                  ∨ (is_pinned_type (txn_type t) = true
                     ∧ (quota_calls evs =
                          [QPin (txn_id t) (txn_size t) (description t)
                                (bool_decide (txn_type t = kTypeCatalog))]
                        ∨ quota_calls evs =
                            [QPin (txn_id t) (txn_size t) (description t)
                                  (bool_decide (txn_type t = kTypeCatalog));
                             QRemove (txn_id t)])))) s).
  { exact (wp_Ret _ _ _ _ _ _ Hwp Hrun). }
  unfold CommitTxn. apply wp_bind, wp_frame. intros [res t1] s1 Hflush.
  destruct (Flush_frame _ _ _ _ _ Hflush) as (Hm & Ht1 & _ & (evs & Hevs & Hwrite) & _).
  unfold set_buf_pos in Ht1. rewrite Ht1.
  cbn [fd tmp_path txn_size expected_size txn_id txn_type description final_path].
  assert (Hflushed : quota_calls evs = []) by (by destruct Hwrite as [->|[n ->]]).
  clear Hwrite Ht1 Hflush.
  destruct (txn_type t) eqn:Hty;
    change (is_pinned_type kTypeRegular) with false;
    change (is_pinned_type kTypeVolatile) with false;
    change (is_pinned_type kTypeCatalog) with true;
    change (is_pinned_type kTypePinned) with true;
    cbv iota; wp_go.
  all: try (eapply wp_mono; [apply Rename_syscalls_only|];
            intros ? [? ?] (? & ? & ? & ?); wp_cbn; wp_go).
  all: try discriminate.
  all: repeat first
         [ progress cbn [w_log w_emit os mgr]
         | match goal with
           | Hlog : w_log ?w = _ |- context [w_log ?w] => rewrite Hlog
           end ];
       rewrite <- ?app_assoc.
  all: eexists; (split; [reflexivity|]).
  all: rewrite ?quota_calls_app;
       repeat match goal with Hq : quota_calls _ = [] |- _ => rewrite Hq; clear Hq end;
       unfold quota_calls; cbn.
  all: unfold EIO, ENOSPC.
  all: split; intros Hr;
       first [ done | lia | by left
             | right; split; [done|]; first [by left | by right] ].
Qed.

End QuotaNotifications.

Section OSQuiet.
Context {hash : Type}.
Implicit Type w : World hash.

Ltac quiet_crush :=
  cbv beta delta [enter fail w_new_fd w_new_inode do_write file_of_fd]; cbn;
  intros Hquiet; rewrite ?Hquiet; cbn;
  repeat (case_match; cbn in *; simplify_eq; try done);
  intros; simplify_eq; cbn.

Lemma sys_close_quiet fd w r w' :
  w_script w = [] → sys_close fd w = (r, w') →
  w_script w' = [] ∧ w_dir w' = w_dir w ∧ w_fds w' !! fd = None.
Proof.
  unfold sys_close. quiet_crush; repeat split; try done. apply lookup_delete_eq.
Qed.

Lemma sys_unlink_quiet path w r w' :
  w_script w = [] → sys_unlink path w = (r, w') →
  w_script w' = [] ∧ w_dir w' = delete path (w_dir w) ∧ w_fds w' = w_fds w.
Proof.
  unfold sys_unlink. quiet_crush; repeat split; try done. symmetry. by apply delete_id.
Qed.

Lemma sys_write_quiet fd bytes w r w' :
  w_script w = [] → sys_write fd bytes w = (r, w') →
  w_script w' = [] ∧ w_dir w' = w_dir w.
Proof. unfold sys_write. quiet_crush; by repeat split. Qed.

Lemma sys_chmod_quiet path mode w r w' :
  w_script w = [] → sys_chmod path mode w = (r, w') →
  w_script w' = [] ∧ w_dir w' = w_dir w ∧ w_fds w' = w_fds w.
Proof. unfold sys_chmod. quiet_crush; by repeat split. Qed.

Lemma sys_rename_quiet old new w r w' :
  w_script w = [] → sys_rename old new w = (r, w') →
  w_script w' = [] ∧ w_fds w' = w_fds w
  ∧ ((r = 0 ∧ ∃ ino, w_dir w' = <[new := ino]> (delete old (w_dir w)))
     ∨ (r < 0 ∧ w_dir w' = w_dir w ∧ w_dir w !! old = None ∧ 0 < w_errno w')).
Proof.
  unfold sys_rename. quiet_crush; (split; [done|]); (split; [done|]).
  - left. eauto.
  - right. by repeat split.
Qed.

Lemma sys_link_quiet old new w r w' :
  w_script w = [] → sys_link old new w = (r, w') →
  w_script w' = [] ∧ w_fds w' = w_fds w
  ∧ ((r = 0 ∧ ∃ ino, w_dir w' = <[new := ino]> (w_dir w))
     ∨ (r < 0 ∧ w_dir w' = w_dir w ∧ 0 < w_errno w')).
Proof.
  unfold sys_link. quiet_crush; (split; [done|]); (split; [done|]).
  all: first [left; by eauto | right; by repeat split].
Qed.

Lemma CopyPath2Path_os_quiet src dest w r w' :
  w_script w = [] → CopyPath2Path_os src dest w = (r, w') →
  w_script w' = [] ∧ w_fds w' = w_fds w
  ∧ (w_dir w' = w_dir w ∨ ∃ ino, w_dir w' = <[dest := ino]> (w_dir w)).
Proof.
  unfold CopyPath2Path_os. quiet_crush; (split; [done|]); (split; [done|]).
  all: first [by left | right; by eauto].
Qed.

End OSQuiet.

(** Bringing in what each system call made so far leaves of the directory
    and the descriptor table, on a machine without faults. *)
Ltac quiet_step :=
  match goal with
  | Hc : sys_close _ _ = _ |- _ =>
      apply sys_close_quiet in Hc as (? & ? & ?); [|by cbn]
  | Hc : sys_unlink _ _ = _ |- _ =>
      apply sys_unlink_quiet in Hc as (? & ? & ?); [|by cbn]
  | Hc : sys_chmod _ _ _ = _ |- _ =>
      apply sys_chmod_quiet in Hc as (? & ? & ?); [|by cbn]
  | Hc : sys_rename _ _ _ = _ |- _ =>
      apply sys_rename_quiet in Hc as (? & ? & [(? & ? & ?)|(? & ? & ? & ?)]); [| |by cbn]
  | Hc : sys_link _ _ _ = _ |- _ =>
      apply sys_link_quiet in Hc as (? & ? & [(? & ? & ?)|(? & ? & ?)]); [| |by cbn]
  | Hc : CopyPath2Path_os _ _ _ = _ |- _ =>
      apply CopyPath2Path_os_quiet in Hc as (? & ? & [?|(? & ?)]); [| |by cbn]
  end.

Section CommitTxnCleansUp.
Context {hash Q : Type} `{ShashAny hash} `{QuotaManager hash Q}.
Implicit Type s : State hash Q.
Implicit Type t : Transaction hash.

Lemma Flush_quiet t s res t1 s1 :
  Flush t s = Ret ((res, t1), s1) → w_script (os s) = [] →
  w_script (os s1) = [] ∧ w_dir (os s1) = w_dir (os s).
Proof.
  intros Hflush Hscript.
  destruct (Flush_frame _ _ _ _ _ Hflush) as (_ & _ & Hdir & _ & Hs). auto.
Qed.

(** X16.  Whatever CommitTxn returns, when no system call fails
    the staging file is gone from the directory and the descriptor of the
    transaction is closed afterwards. *)
Theorem CommitTxn_cleans_up t s r s' :
  CommitTxn t s = Ret (r, s') →
  w_script (os s) = [] →
  (alien_cache_on_nfs_ (mgr s) = false → tmp_path t ≠ final_path t) →
  w_dir (os s') !! tmp_path t = None
  ∧ w_fds (os s') !! fd t = None
  ∧ w_script (os s') = [].
Proof.
  intros Hrun Hscript Hne.
  enough (Hwp : wp false (CommitTxn t)
            (λ _ s', w_dir (os s') !! tmp_path t = None
                     ∧ w_fds (os s') !! fd t = None
                     ∧ w_script (os s') = []) s).
  { exact (wp_Ret _ _ _ _ _ _ Hwp Hrun). }
  unfold CommitTxn, Rename. apply wp_bind, wp_frame. intros [res t1] s1 Hflush.
  destruct (Flush_quiet _ _ _ _ _ Hflush Hscript) as [Hs1 Hd1].
  destruct (Flush_frame _ _ _ _ _ Hflush) as (Hm & Ht1 & _).
  unfold set_buf_pos in Ht1. rewrite Ht1.
  cbn [fd tmp_path txn_size expected_size txn_id txn_type description final_path].
  clear Ht1 Hflush. destruct s as [c w], s1 as [c1 w1]. cbn in Hm, Hs1, Hd1, Hscript, Hne.
  subst c1. wp_go.
  all: repeat (quiet_step; cbn [w_dir w_fds w_script w_emit] in * ).
  all: cbn [w_dir w_fds w_script w_emit]; split; [|split; [|done]].
  all: try lia.
  all: try match goal with
           | Hb : bool_decide (?a < 0) && _ = true, Ha : ?a = 0 |- _ =>
               rewrite Ha in Hb; discriminate Hb
           end.
  all: repeat first
         [ assumption
         | apply lookup_delete_eq
         | match goal with
           | Heq : w_dir ?w0 = _ |- context [w_dir ?w0] => rewrite Heq
           | Heq : w_fds ?w0 = _ |- context [w_fds ?w0] => rewrite Heq
           end ].
  all: rewrite lookup_insert_ne; [apply lookup_delete_eq|].
  all: apply not_eq_sym, Hne; by destruct (alien_cache_on_nfs_ c).
Qed.

End CommitTxnCleansUp.

Section Configuration.
Context {hash Q : Type} `{ShashAny hash} `{QuotaManager hash Q}.
Implicit Type s : State hash Q.

Lemma effect_configuration ups s s' :
  effect ups s s' → configuration (mgr s') = configuration (mgr s).
Proof. intros [[q ->] _]. done. Qed.

Lemma step_configuration s live s' live' :
  step (s, live) (s', live') →
  configuration (mgr s') = configuration (mgr s)
  ∧ (cache_mode_ (mgr s') = cache_mode_ (mgr s) ∨ cache_mode_ (mgr s') = kCacheReadOnly).
Proof.
  inversion 1; subst.
  - from_run (StartTxn_effect _ _ _) as [_ Heff].
    split; [by eapply effect_configuration|left; by eapply effect_cache_mode].
  - from_run (StartTxn_effect _ _ _) as [_ Heff].
    split; [by eapply effect_configuration|left; by eapply effect_cache_mode].
  - auto.
  - from_run (Write_effect _ _ _ _) as Heff.
    split; [by eapply effect_configuration|left; by eapply effect_cache_mode].
  - from_run (Reset_effect _ _) as Heff.
    split; [by eapply effect_configuration|left; by eapply effect_cache_mode].
  - from_run (OpenFromTxn_effect _ _) as Heff.
    split; [by eapply effect_configuration|left; by eapply effect_cache_mode].
  - from_run (CommitTxn_effect _ _) as Heff.
    split; [by eapply effect_configuration|left; by eapply effect_cache_mode].
  - from_run (AbortTxn_effect _ _) as Heff.
    split; [by eapply effect_configuration|left; by eapply effect_cache_mode].
  - from_run (Open_effect _ _) as Heff.
    split; [by eapply effect_configuration|left; by eapply effect_cache_mode].
  - from_run (GetSize_effect _ _) as Heff.
    split; [by eapply effect_configuration|left; by eapply effect_cache_mode].
  - from_run (Pread_effect _ _ _ _) as Heff.
    split; [by eapply effect_configuration|left; by eapply effect_cache_mode].
  - from_run (Close_effect _ _) as Heff.
    split; [by eapply effect_configuration|left; by eapply effect_cache_mode].
  - from_run (Open2Mem_effect _ _) as Heff.
    split; [by eapply effect_configuration|left; by eapply effect_cache_mode].
  - from_run (CommitFromMem_effect _ _ _ _ _) as Heff.
    split; [by eapply effect_configuration|left; by eapply effect_cache_mode].
  - from_run (TearDown2ReadOnly_effect _ _) as (Hro & Hz & _).
    destruct fuel as [|fuel].
    { match goal with Hrun : TearDown2ReadOnly 0 _ = _ |- _ =>
        unfold TearDown2ReadOnly in Hrun; rewrite bind_eq in Hrun;
        cbn [set_cache_mode] in Hrun; rewrite bind_eq in Hrun; discriminate Hrun
      end. }
    match goal with Hrun : TearDown2ReadOnly _ _ = _ |- _ =>
      destruct (TearDown2ReadOnly_outcomes_aux s) as [_ Hidle];
      rewrite (Hidle Hz fuel) in Hrun; injection Hrun as <-
    end.
    split; [done|by right].
Qed.

Lemma steps_configuration (c c' : State hash Q * list (Transaction hash)) :
  steps c c' →
  configuration (mgr c'.1) = configuration (mgr c.1)
  ∧ (cache_mode_ (mgr c'.1) = cache_mode_ (mgr c.1)
     ∨ cache_mode_ (mgr c'.1) = kCacheReadOnly).
Proof.
  intros Hsteps.
  induction Hsteps as [c|c1 c2 c3 Hsteps IH Hstep]; [auto|].
  destruct c2 as [s2 l2], c3 as [s3 l3].
  apply step_configuration in Hstep as [Hcfg Hmode]. cbn [fst snd] in *.
  destruct IH as [IHcfg IHmode]. split; [congruence|].
  destruct Hmode as [Hmode|Hmode]; [rewrite Hmode; exact IHmode|by right].
Qed.

(** X17.  No call of the interface changes where the cache is
    or of which kind: the paths, the alien and NFS flags, the file-size flag
    and the repository name stay what they were; the mode stays or becomes
    read-only; GetPathInCache keeps giving the same path for an object. *)
Theorem configuration_is_fixed (c c' : State hash Q * list (Transaction hash)) :
  steps c c' →
  configuration (mgr c'.1) = configuration (mgr c.1)
  ∧ (cache_mode_ (mgr c'.1) = cache_mode_ (mgr c.1)
     ∨ cache_mode_ (mgr c'.1) = kCacheReadOnly)
  ∧ ∀ id, GetPathInCache id c'.1 = Ret (cache_path_ (mgr c.1) +:+ "/"
                                         +:+ MakePathWithoutSuffix id, c'.1).
Proof.
  intros Hsteps.
  destruct (steps_configuration c c' Hsteps) as [Hcfg Hmode].
  split; [done|]. split; [done|].
  intros id. unfold GetPathInCache, gets.
  injection Hcfg as -> _ _ _ _ _. done.
Qed.

End Configuration.

Section WriteAllOrError.
Context {hash Q : Type} `{ShashAny hash} `{QuotaManager hash Q}.
Implicit Type s : State hash Q.
Implicit Type t : Transaction hash.

Lemma Flush_full_result t s r t1 s1 :
  buf_pos t = kBufferSize →
  Flush t s = Ret ((r, t1), s1) →
  (r = 0 ∧ t1 = set_buf_pos 0 t) ∨ (r < 0 ∧ 0 ≤ buf_pos t1 ≤ kBufferSize).
Proof.
  intros Hfull Hflush.
  destruct (sys_write (fd t) (pending t) (os s)) as [r0 w'] eqn:Hw.
  destruct (Flush_outcomes_aux t s) as [_ Hout].
  destruct (Hout ltac:(rewrite Hfull; unfold kBufferSize; lia) r0 w' Hw)
    as (Hneg & Hshort & Hall).
  pose proof (sys_write_result _ _ _ _ _ Hw) as Hr0.
  destruct (decide (r0 < 0)) as [Hlt|Hge].
  - destruct (Hneg Hlt) as [Hrun Herr]. rewrite Hrun in Hflush.
    injection Hflush as <- <- <-. right. rewrite Hfull. unfold kBufferSize. lia.
  - destruct (decide (r0 = buf_pos t)) as [Heq|Hne].
    + rewrite (Hall Heq) in Hflush. injection Hflush as <- <- <-. by left.
    + destruct (Hshort ltac:(lia) Hne) as [Hrun Hlt]. rewrite Hrun in Hflush.
      injection Hflush as <- <- <-. right. cbn. unfold EIO, kBufferSize in *. lia.
Qed.

Lemma Write_loop_result fuel buf size written t s r t' s' :
  0 ≤ written ≤ size → size < 2 ^ 63 → 0 ≤ buf_pos t ≤ kBufferSize →
  Write_loop fuel buf size written t s = Ret ((r, t'), s') →
  ((r = size ∧ txn_size t' = u64 (txn_size t + size)) ∨ r < 0)
  ∧ 0 ≤ buf_pos t' ≤ kBufferSize.
Proof.
  revert written t s. induction fuel as [|fuel IH]; intros written t s Hw Hsize Hpos.
  { cbn [Write_loop]. case_decide as Hlt; [intros Hrun; discriminate Hrun|].
    intros [= <- <- <-]. cbn. split; [|done]. left.
    assert (written = size) as -> by lia. split; [apply i64_small; lia|done]. }
  cbn [Write_loop]. case_decide as Hlt.
  2:{ intros [= <- <- <-]. cbn. split; [|done]. left.
      assert (written = size) as -> by lia. split; [apply i64_small; lia|done]. }
  assert (Hstep : ∀ t0 s0, 0 ≤ buf_pos t0 < kBufferSize → txn_size t0 = txn_size t →
            Write_loop fuel buf size
              (u64 (written + Z.min (u64 (size - written)) (u64 (kBufferSize - buf_pos t0))))
              (set_buf_pos
                 (u32 (buf_pos t0
                       + Z.min (u64 (size - written)) (u64 (kBufferSize - buf_pos t0))))
                 (set_buffer
                    (memcpy (buffer t0) (buf_pos t0) buf
                       (Z.min (u64 (size - written)) (u64 (kBufferSize - buf_pos t0))))
                    t0)) s0
            = Ret ((r, t'), s') →
            ((r = size ∧ txn_size t' = u64 (txn_size t + size)) ∨ r < 0)
            ∧ 0 ≤ buf_pos t' ≤ kBufferSize).
  { intros t0 s0 Hpos0 Htxn. unfold kBufferSize in *.
    rewrite (u64_small (size - written)), (u64_small (4096 - buf_pos t0)) by lia.
    intros Hrun. apply IH in Hrun.
    - cbn [txn_size set_buf_pos set_buffer] in Hrun. by rewrite Htxn in Hrun.
    - rewrite u64_small by lia. lia.
    - done.
    - cbn. rewrite u32_small by lia. lia. }
  rewrite bind_eq. case_decide as Hfull.
  - rewrite bind_eq. destruct (Flush t s) as [[[r1 t1] s1]| |] eqn:Hflush;
      [|intros Hrun; discriminate Hrun..].
    destruct (Flush_full_result _ _ _ _ _ Hfull Hflush) as [[-> ->]|[Hneg Hpos1]].
    + rewrite decide_False by (intros Hne; by apply Hne). cbn [mret M_ret].
      intros Hrun. apply (Hstep (set_buf_pos 0 t) s1); [cbn; unfold kBufferSize; lia|done|].
      exact Hrun.
    + rewrite decide_True by lia. cbn [mret M_ret]. intros [= <- <- <-].
      split; [by right|done].
  - cbn [mret M_ret]. intros Hrun. apply (Hstep t s); [lia|done|]. exact Hrun.
Qed.

(** X18.  Write returns for every size below 2^63: either the
    full number of bytes, with the size of the transaction raised by it, or
    a negative error code, never a short count; buf_pos stays within the
    buffer. *)
Theorem Write_all_or_error buf size t s :
  0 ≤ size < 2 ^ 63 → 0 ≤ buf_pos t ≤ kBufferSize →
  ∃ r t' s',
    Write buf size t s = Ret ((r, t'), s')
    ∧ ((r = size ∧ txn_size t' = u64 (txn_size t + size)) ∨ r < 0)
    ∧ 0 ≤ buf_pos t' ≤ kBufferSize.
Proof.
  intros Hsize Hpos.
  destruct (Write_returns buf size t s) as (r & t' & s' & Hrun);
    [lia|unfold kBufferSize in *; lia|].
  exists r, t', s'. split; [done|].
  unfold Write in Hrun. case_match.
  - injection Hrun as <- <- <-. split; [right; unfold ENOSPC; lia|done].
  - eapply Write_loop_result in Hrun; [|lia|lia|done]. done.
Qed.

End WriteAllOrError.

Section OSBadFd.
Context {hash : Type}.
Implicit Type w : World hash.

Lemma sys_close_bad fd w :
  w_script w = [] → w_fds w !! fd = None →
  sys_close fd w = (-1, w_set_errno EBADF (w_emit (EvSys (SysClose fd)) w)).
Proof.
  intros Hs Hf. unfold sys_close. rewrite enter_ok by done. cbn. by rewrite Hf.
Qed.

Lemma sys_fstat_bad fd w :
  w_script w = [] → w_fds w !! fd = None →
  sys_fstat fd w = (-1, 0, w_set_errno EBADF (w_emit (EvSys (SysFstat fd)) w)).
Proof.
  intros Hs Hf. unfold sys_fstat, file_of_fd. rewrite enter_ok by done. cbn. by rewrite Hf.
Qed.

Lemma sys_pread_bad fd count offset w :
  w_script w = [] → w_fds w !! fd = None →
  sys_pread fd count offset w
  = (-1, [], w_set_errno EBADF (w_emit (EvSys (SysPread fd count offset)) w)).
Proof.
  intros Hs Hf. unfold sys_pread, file_of_fd. rewrite enter_ok by done. cbn. by rewrite Hf.
Qed.

Lemma sys_pread_quiet fd count offset w :
  w_script w = [] →
  sys_pread fd count offset w =
    match file_of_fd fd w with
    | Some (f, i) =>
        let got := take (Z.to_nat count) (drop (Z.to_nat offset) (i_data i)) in
        (Z.of_nat (length got), got, w_emit (EvSys (SysPread fd count offset)) w)
    | None => (-1, [], w_set_errno EBADF (w_emit (EvSys (SysPread fd count offset)) w))
    end.
Proof.
  intros Hs. unfold sys_pread, file_of_fd. rewrite enter_ok by done. cbn.
  repeat case_match; simplify_eq; done.
Qed.

End OSBadFd.

Ltac os_known ::=
  cbn [os];
  first
    [ eassumption
    | erewrite sys_open_rdonly_ok by os_side; reflexivity
    | erewrite sys_open_rdonly_miss by os_side; reflexivity
    | erewrite sys_fstat_ok by os_side; reflexivity
    | erewrite sys_pread_ok by os_side; reflexivity
    | erewrite sys_close_ok by os_side; reflexivity
    | erewrite sys_write_ok by os_side; reflexivity
    | erewrite sys_unlink_ok by os_side; reflexivity
    | erewrite sys_rename_ok by os_side; reflexivity
    | erewrite sys_link_ok by os_side; reflexivity
    | erewrite sys_chmod_ok by os_side; reflexivity
    | erewrite sys_lseek0_ok by os_side; reflexivity
    | erewrite sys_ftruncate0_ok by os_side; reflexivity
    | cbv beta; erewrite sys_mkstemp_ok by os_side; reflexivity
    | erewrite sys_close_bad by os_side; reflexivity
    | erewrite sys_fstat_bad by os_side; reflexivity
    | erewrite sys_pread_bad by os_side; reflexivity ].

Section Descriptors.
Context {hash Q : Type} `{ShashAny hash} `{QuotaManager hash Q}.
Implicit Type s : State hash Q.

(** X19.  When no system call fails, Close on an open
    descriptor returns 0 and removes it; GetSize, Pread and a second Close
    on the closed descriptor return -EBADF. *)
Theorem closed_descriptor_is_rejected fd s f :
  w_script (os s) = [] →
  w_fds (os s) !! fd = Some f →
  ∃ s1, Close fd s = Ret (0, s1)
        ∧ w_fds (os s1) = delete fd (w_fds (os s))
        ∧ (∃ s2, GetSize fd s1 = Ret (- EBADF, s2))
        ∧ (∀ size offset, ∃ s2, Pread fd size offset s1 = Ret ((- EBADF, []), s2))
        ∧ (∃ s2, Close fd s1 = Ret (- EBADF, s2)).
Proof.
  intros Hscript Hfd.
  apply wp_returns_with. unfold Close at 1. wp_exec.
  split; [done|]. split; [done|]. split; [|split].
  - eexists. apply wp_returns_eq. unfold GetSize. wp_exec. done.
  - intros size offset. eexists. apply wp_returns_eq. unfold Pread. wp_exec. done.
  - eexists. apply wp_returns_eq. unfold Close. wp_exec. done.
Qed.

(** X20.  TearDown2ReadOnly leaves the open descriptors
    and the files as they are and removes no name but running.<repository
    name>; when no system call fails, a Pread gives afterwards what it gave
    before. *)
Theorem TearDown2ReadOnly_keeps_reads fuel s s' :
  TearDown2ReadOnly fuel s = Ret (tt, s') →
  w_fds (os s') = w_fds (os s)
  ∧ w_inodes (os s') = w_inodes (os s)
  ∧ (∀ p, p ≠ "running." +:+ repository_name_ (mgr s) →
          w_dir (os s') !! p = w_dir (os s) !! p)
  ∧ (w_script (os s) = [] →
     ∀ fd size offset r s1,
       Pread fd size offset s = Ret (r, s1) →
       ∃ s2, Pread fd size offset s' = Ret (r, s2)).
Proof.
  intros Hrun.
  from_run (TearDown2ReadOnly_effect _ _) as (_ & Hz & _).
  destruct fuel as [|fuel].
  { unfold TearDown2ReadOnly in Hrun. rewrite bind_eq in Hrun.
    cbn [set_cache_mode] in Hrun. rewrite bind_eq in Hrun. discriminate Hrun. }
  destruct (TearDown2ReadOnly_outcomes_aux s) as [_ Hidle].
  rewrite (Hidle Hz fuel) in Hrun. injection Hrun as <-. cbn [os mgr].
  destruct (sys_unlink _ (os s)) as [r0 w'] eqn:Hunlink. cbn [snd].
  assert (Hframe : w_fds w' = w_fds (os s) ∧ w_inodes w' = w_inodes (os s)
                   ∧ (w_script (os s) = [] → w_script w' = [])).
  { revert Hunlink. unfold sys_unlink, enter, fail. cbn.
    repeat (case_match; cbn in *; simplify_eq; try done);
      intros; simplify_eq; cbn; done. }
  destruct Hframe as (Hf & Hi & Hs).
  apply sys_unlink_frame in Hunlink as [Hd _].
  split; [done|]. split; [done|]. split.
  - intros p Hp. destruct Hd as [-> | ->]; [by rewrite lookup_delete_ne|done].
  - intros Hscript fd size offset r s1. unfold Pread. rewrite !bind_eq. unfold sys.
    cbn [os]. rewrite !sys_pread_quiet by auto. unfold file_of_fd. rewrite Hf, Hi.
    destruct (w_fds (os s) !! fd) as [f|]; [destruct (w_inodes (os s) !! of_ino f)|].
    all: cbn; repeat case_decide; try lia; cbn; intros [= <- _]; eauto.
Qed.

End Descriptors.


Section Templates.

Lemma substring_append_r (a b : string) (n m : nat) :
  substring (String.length a + n) m (a +:+ b) = substring n m b.
Proof.
  induction a as [|c a IH]; [done|].
  change (String c a +:+ b) with (String c (a +:+ b)). exact IH.
Qed.

Lemma length_append (a b : string) :
  String.length (a +:+ b) = (String.length a + String.length b)%nat.
Proof.
  induction a as [|c a IH]; [done|].
  change (String c a +:+ b) with (String c (a +:+ b)). cbn. by rewrite IH.
Qed.

Lemma is_template_fetch (cache_path : string) :
  is_template (cache_path +:+ "/txn/fetchXXXXXX") = true.
Proof.
  unfold is_template. apply bool_decide_eq_true_2.
  rewrite length_append. cbn [String.length].
  replace (String.length cache_path + 16 - 6)%nat with (String.length cache_path + 10)%nat
    by lia.
  by rewrite substring_append_r.
Qed.

End Templates.

Section Legacy.
Context {hash : Type} `{ShashAny hash}.
Implicit Type w : World hash.
Implicit Type g : cache.Globals.

Lemma cache_CommitTransaction_publishes_aux g final_path temp_path cvmfs_path id volatile size
    w ino i :
  w_script w = [] →
  w_dir w !! temp_path = Some ino →
  w_inodes w !! ino = Some i →
  cache.alien_cache_on_nfs_ g = false ∨ w_dir w !! final_path = None →
  ∃ w', cache.CommitTransaction g final_path temp_path cvmfs_path id volatile size w
        = Ret (0, w')
        ∧ w_dir w' = <[final_path := ino]> (delete temp_path (w_dir w))
        ∧ w_inodes w' !! ino
          = Some {| i_data := i_data i;
                    i_mode := if cache.alien_cache_ g then 432 else i_mode i |}
        ∧ w_fds w' = w_fds w
        ∧ w_script w' = [].
Proof.
  intros Hscript Hdir Hino Hnfs.
  unfold cache.CommitTransaction, cache.Rename.
  assert (Hchmod : ∃ w0,
            (if cache.alien_cache_ g
             then let '(retval, w) := sys_chmod temp_path 432 w in
                  if bool_decide (retval = 0) then Ret (tt, w) else Aborted
             else Ret (tt, w)) = Ret (tt, w0)
            ∧ w_script w0 = [] ∧ w_dir w0 = w_dir w ∧ w_fds w0 = w_fds w
            ∧ w_inodes w0 !! ino
              = Some {| i_data := i_data i;
                        i_mode := if cache.alien_cache_ g then 432 else i_mode i |}).
  { destruct (cache.alien_cache_ g).
    - erewrite sys_chmod_ok by done. eexists. split; [reflexivity|]. cbn.
      repeat split; try done. apply lookup_insert_eq.
    - exists w. repeat split; try done. by destruct i. }
  destruct Hchmod as (w0 & -> & Hs0 & Hd0 & Hf0 & Hi0).
  rewrite <- Hd0 in Hdir, Hnfs. rewrite <- Hd0, <- Hf0. clear Hd0 Hf0 Hino Hscript.
  destruct (cache.alien_cache_on_nfs_ g) eqn:Hon; cbn [negb].
  - destruct Hnfs as [Hoff|Habsent]; [discriminate Hoff|].
    assert (Hne : final_path ≠ temp_path) by congruence.
    erewrite sys_link_ok by done. cbn [w_errno w_set_dir w_emit].
    rewrite (bool_decide_eq_false_2 (0 < 0)) by lia. cbn [andb].
    erewrite sys_unlink_ok; [|done|by cbn; rewrite lookup_insert_ne].
    rewrite decide_False by lia. eexists. split; [reflexivity|]. cbn.
    split; [by rewrite delete_insert_ne by done|done].
  - erewrite sys_rename_ok by done. rewrite decide_False by lia.
    eexists. split; [reflexivity|]. cbn. done.
Qed.

(** X21.  cache::CommitTransaction, when no system
    call fails, the staging file exists and, on NFS, no object of the final
    name exists yet: it returns 0, the final path names the file of the
    staging path, which is gone, the bytes are kept, and the mode is 0660 in
    an alien cache and unchanged otherwise. *)
Theorem cache_CommitTransaction_publishes g final_path temp_path cvmfs_path id volatile size
    w ino i :
  w_script w = [] →
  w_dir w !! temp_path = Some ino →
  w_inodes w !! ino = Some i →
  cache.alien_cache_on_nfs_ g = false ∨ w_dir w !! final_path = None →
  ∃ w', cache.CommitTransaction g final_path temp_path cvmfs_path id volatile size w
        = Ret (0, w')
        ∧ w_dir w' = <[final_path := ino]> (delete temp_path (w_dir w))
        ∧ w_inodes w' !! ino
          = Some {| i_data := i_data i;
                    i_mode := if cache.alien_cache_ g then 432 else i_mode i |}
        ∧ w_fds w' = w_fds w
        ∧ w_script w' = [].
Proof. exact (cache_CommitTransaction_publishes_aux g final_path temp_path cvmfs_path id volatile size w ino i). Qed.

(** X22.  cache::CommitFromMem stores a buffer of any
    length below 2^63 whole: in read-write mode and when no system call
    fails it returns true, the final path of the object names a new file
    that holds exactly the buffer, and no descriptor is left open. *)
Theorem cache_CommitFromMem_stores g id buffer cvmfs_path w :
  let size := Z.of_nat (length buffer) in
  let name := mkstemp_name (cache.GetTempName g) (w_tmp_seq w) in
  let final := cache.GetPathInCache g id in
  let ino := w_next_ino w in
  size < 2 ^ 63 →
  cache.cache_mode_ g = kCacheReadWrite →
  w_script w = [] →
  w_dir w !! name = None →
  cache.alien_cache_on_nfs_ g = false ∨ (w_dir w !! final = None ∧ final ≠ name) →
  ∃ w', cache.CommitFromMem g id buffer size cvmfs_path w = Ret (true, w')
        ∧ w_dir w' = <[final := ino]> (w_dir w)
        ∧ w_inodes w' !! ino
          = Some {| i_data := buffer;
                    i_mode := if cache.alien_cache_ g then 432 else 384 |}
        ∧ w_fds w' !! Z.of_nat (w_next_fd w) = None
        ∧ w_script w' = [].
Proof.
  intros size name final ino Hsize Hrw Hscript Hfresh Hnfs. subst size final ino.
  unfold cache.CommitFromMem, cache.StartTransaction.
  rewrite Hrw. rewrite decide_False by done.
  rewrite sys_mkstemp_ok; [|done|apply is_template_fetch|done].
  fold name. cbn [w_errno]. rewrite (decide_False (P:=Z.of_nat (w_next_fd w) = -1)) by lia.
  rewrite (decide_False (P:=Z.of_nat (w_next_fd w) < 0)) by lia.
  rewrite Nat2Z.id, firstn_all.
  erewrite sys_write_ok; [|reflexivity|apply lookup_insert_eq|reflexivity|apply lookup_insert_eq].
  wp_cbn.
  change (write_at [] (Z.to_nat 0) buffer) with (write_at [] (length (@nil byte)) buffer).
  rewrite (write_at_end [] buffer). cbn [app].
  erewrite sys_close_ok; [|reflexivity|apply lookup_insert_eq]. wp_cbn.
  rewrite i64_small by lia. rewrite u64_small by lia.
  rewrite (bool_decide_eq_false_2 (Z.of_nat (length buffer) < 0)) by lia.
  rewrite bool_decide_eq_false_2 by (intros Hne; by apply Hne). cbn [orb].
  match goal with
  | |- context [cache.CommitTransaction g ?f name ?p id ?v ?n ?w0] =>
      destruct (cache_CommitTransaction_publishes_aux g f name p id v n w0 (w_next_ino w)
                  {| i_data := buffer; i_mode := 384 |})
        as (w' & -> & Hd & Hi & Hf & Hs)
  end.
  - done.
  - cbn. apply lookup_insert_eq.
  - cbn. apply lookup_insert_eq.
  - cbn. destruct Hnfs as [Hoff|[Habsent Hne]]; [by left|right].
    by rewrite lookup_insert_ne.
  - exists w'. split; [done|]. cbn in Hd, Hi, Hf. split; [|split; [done|split; [|done]]].
    + rewrite Hd. f_equal. by apply delete_insert_id.
    + rewrite Hf. apply lookup_delete_eq.
Qed.

Lemma sys_rename_result old new w r w' :
  sys_rename old new w = (r, w') →
  (r = 0 ∨ (r = -1 ∧ 0 < w_errno w')) ∧ w_log w' = w_log w ++ [EvSys (SysRename old new)].
Proof.
  intros Hr. split; [|by rewrite <- (sys_rename_log old new w), Hr].
  revert Hr. unfold sys_rename, enter, fail. cbn.
  repeat (case_match; cbn in *; simplify_eq; try done);
    intros; simplify_eq; cbn; unfold ENOENT; lia.
Qed.

Lemma sys_link_result old new w r w' :
  sys_link old new w = (r, w') →
  (r = 0 ∨ (r = -1 ∧ 0 < w_errno w')) ∧ w_log w' = w_log w ++ [EvSys (SysLink old new)].
Proof.
  intros Hr. split; [|by rewrite <- (sys_link_log old new w), Hr].
  revert Hr. unfold sys_link, enter, fail. cbn.
  repeat (case_match; cbn in *; simplify_eq; try done);
    intros; simplify_eq; cbn; unfold ENOENT, EEXIST; lia.
Qed.

Lemma sys_unlink_result_log path w r w' :
  sys_unlink path w = (r, w') →
  (r = 0 ∨ (r = -1 ∧ 0 < w_errno w')) ∧ w_log w' = w_log w ++ [EvSys (SysUnlink path)].
Proof.
  intros Hr. split; [|by rewrite <- (sys_unlink_log path w), Hr].
  apply sys_unlink_result in Hr. destruct Hr as [[-> _]|[-> ?]]; auto.
Qed.

(** X23.  cache::CommitTransaction returns 0 or a
    negative errno, and a failed commit ends by unlinking the staging
    file. *)
Theorem cache_CommitTransaction_result g final_path temp_path cvmfs_path id volatile size
    w r w' :
  cache.CommitTransaction g final_path temp_path cvmfs_path id volatile size w = Ret (r, w') →
  (r = 0 ∨ r < 0)
  ∧ (r < 0 → ∃ evs, w_log w' = w_log w ++ evs ++ [EvSys (SysUnlink temp_path)]).
Proof.
  unfold cache.CommitTransaction, cache.Rename.
  assert (Hchmod : ∀ o,
            (if cache.alien_cache_ g
             then let '(retval, w) := sys_chmod temp_path 432 w in
                  if bool_decide (retval = 0) then Ret (tt, w) else Aborted
             else Ret (tt, w)) = o →
            match o with
            | Ret (_, w0) => ∃ evs, w_log w0 = w_log w ++ evs
            | _ => True
            end).
  { intros o <-. destruct (cache.alien_cache_ g).
    - destruct (sys_chmod temp_path 432 w) as [r0 w0] eqn:Hc.
      destruct (bool_decide (r0 = 0)); [|done]. exists [EvSys (SysChmod temp_path 432)].
      by rewrite <- (sys_chmod_log temp_path 432 w), Hc.
    - exists []. by rewrite app_nil_r. }
  specialize (Hchmod _ eq_refl). revert Hchmod.
  destruct (if cache.alien_cache_ g then _ else _) as [[u w0]| |].
  2,3: intros _ Hrun; discriminate Hrun.
  intros [evs0 Hlog0].
  destruct (negb (cache.alien_cache_on_nfs_ g)).
  - destruct (sys_rename temp_path final_path w0) as [r1 w1] eqn:Hren.
    apply sys_rename_result in Hren as [Hr1 Hlog1].
    destruct (decide (r1 < 0)).
    + destruct (sys_unlink temp_path w1) as [r2 w2] eqn:Hun.
      apply sys_unlink_result_log in Hun as [_ Hlog2].
      intros [= <- <-]. split; [right; lia|]. intros _.
      exists (evs0 ++ [EvSys (SysRename temp_path final_path)]).
      by rewrite Hlog2, Hlog1, Hlog0, <- !app_assoc.
    + intros [= <- <-]. split; [left; lia|lia].
  - destruct (sys_link temp_path final_path w0) as [r1 w1] eqn:Hlink.
    apply sys_link_result in Hlink as [Hr1 Hlog1].
    destruct (bool_decide (r1 < 0) && negb (bool_decide (w_errno w1 = EEXIST))) eqn:Hcond.
    + destruct (decide (r1 < 0)).
      * destruct (sys_unlink temp_path w1) as [rb wb] eqn:Hun.
        apply sys_unlink_result_log in Hun as [_ Hlogb].
        intros [= <- <-]. split; [right; lia|]. intros _.
        exists (evs0 ++ [EvSys (SysLink temp_path final_path)]).
        by rewrite Hlogb, Hlog1, Hlog0, <- !app_assoc.
      * intros [= <- <-]. split; [left; lia|lia].
    + destruct (sys_unlink temp_path w1) as [rb wb] eqn:Hun.
      apply sys_unlink_result_log in Hun as [Hrb Hlogb].
      destruct (decide (rb < 0)).
      * destruct (sys_unlink temp_path wb) as [rc wc] eqn:Hunc.
        apply sys_unlink_result_log in Hunc as [_ Hlogc].
        intros [= <- <-]. split; [right; lia|]. intros _.
        exists (evs0 ++ [EvSys (SysLink temp_path final_path); EvSys (SysUnlink temp_path)]).
        rewrite Hlogc, Hlogb, Hlog1, Hlog0, <- !app_assoc. done.
      * intros [= <- <-]. split; [left; lia|lia].
Qed.

End Legacy.

Section CallGuardFacts.
Implicit Type g : cache.Globals.






Lemma Drainout_loop_waits fuel g :
  cache.num_inflight_calls_ g ≠ 0 → cache.CallGuard.Drainout_loop fuel g = OutOfFuel.
Proof.
  intros Hbusy. induction fuel as [|fuel IH]; [done|].
  cbn [cache.CallGuard.Drainout_loop]. by rewrite decide_True.
Qed.

Lemma CallGuard_Drainout_aux g :
  let g1 := if decide (cache.global_drainout_ g = 0)
            then cache.set_global_drainout 1 g else g in
  (cache.num_inflight_calls_ g ≠ 0 → ∀ fuel, cache.CallGuard.Drainout fuel g = OutOfFuel)
  ∧ (cache.num_inflight_calls_ g = 0 →
     ∀ fuel, cache.CallGuard.Drainout (S fuel) g = Ret (tt, g1))
  ∧ cache.global_drainout_ g1 ≠ 0
  ∧ cache.CallGuard.ctor g1 = (true, g1)
  ∧ cache.CallGuard.dtor true g1 = g1.
Proof.
  intros g1. subst g1. split; [|split; [|split; [|split]]].
  - intros Hbusy fuel. unfold cache.CallGuard.Drainout.
    apply Drainout_loop_waits. by case_decide.
  - intros Hidle fuel. unfold cache.CallGuard.Drainout.
    cbn [cache.CallGuard.Drainout_loop]. rewrite decide_False; [done|].
    case_decide; cbn; intros Hne; by apply Hne.
  - case_decide; [cbn; lia|done].
  - unfold cache.CallGuard.ctor. rewrite bool_decide_eq_true_2; [done|].
    case_decide; [cbn; lia|done].
  - done.
Qed.

(** X25.  CallGuard::Drainout does not return while
    num_inflight_calls_ is not 0; otherwise it returns with the drain-out
    flag set.  A guard constructed with the flag set has drainout_ true and
    changes no counter, nor does its destruction. *)
Theorem CallGuard_Drainout g :
  let g1 := if decide (cache.global_drainout_ g = 0)
            then cache.set_global_drainout 1 g else g in
  (cache.num_inflight_calls_ g ≠ 0 → ∀ fuel, cache.CallGuard.Drainout fuel g = OutOfFuel)
  ∧ (cache.num_inflight_calls_ g = 0 →
     ∀ fuel, cache.CallGuard.Drainout (S fuel) g = Ret (tt, g1))
  ∧ cache.global_drainout_ g1 ≠ 0
  ∧ cache.CallGuard.ctor g1 = (true, g1)
  ∧ cache.CallGuard.dtor true g1 = g1.
Proof. exact (CallGuard_Drainout_aux g). Qed.

End CallGuardFacts.


Section LegacyTearDown.
Context {hash : Type} `{ShashAny hash}.
Implicit Type w : World hash.
Implicit Type g : cache.Globals.


End LegacyTearDown.

Section TemplateValid.
Context {hash Q : Type} `{ShashAny hash} `{QuotaManager hash Q}.

(** X27.  The template that the constructor derives
    from the cache path, <cache path>/txn/fetchXXXXXX, ends in the six X
    that mkstemp requires, and no call of the interface changes it. *)
Theorem staging_template_stays_valid cache_path alien repository_name (w : World hash)
    (live : list (Transaction hash)) (c' : State hash Q * list (Transaction hash)) :
  steps (mkState (new_PosixCacheManager cache_path alien repository_name) w, live) c' →
  txn_template_path_ (mgr c'.1) = cache_path +:+ "/txn/fetchXXXXXX"
  ∧ is_template (txn_template_path_ (mgr c'.1)) = true.
Proof.
  intros Hsteps.
  destruct (steps_configuration _ _ Hsteps) as [Hcfg _]. cbn [fst mgr] in Hcfg.
  injection Hcfg as _ Htpl _ _ _ _. cbn in Htpl. rewrite Htpl.
  split; [done|apply is_template_fetch].
Qed.

End TemplateValid.

(** ** The properties on the examples *)

(** Evaluation of a closed side condition. *)
Ltac evaluated :=
  vm_compute; repeat split;
  first [reflexivity | discriminate | intros [? _]; discriminate | intros ?; discriminate].

Lemma staged_started : staged started_txn (os started) 0 [].
Proof. split; [|split]; [vm_compute; reflexivity|eexists; vm_compute; reflexivity|vm_compute; reflexivity]. Qed.

Lemma staged_short : staged short_txn (os short_state0) 0 [].
Proof. split; [|split]; [vm_compute; reflexivity|eexists; vm_compute; reflexivity|vm_compute; reflexivity]. Qed.

Lemma staged_abc : staged abc_catalog_txn (os abc_state0) 0 [].
Proof. split; [|split]; [vm_compute; reflexivity|eexists; vm_compute; reflexivity|vm_compute; reflexivity]. Qed.

Lemma Write_buffered_witness :
  0 ≤ buf_pos started_txn ∧ buf_pos started_txn + 3 ≤ kBufferSize
  ∧ Write abc 3 started_txn started =
      Ret ((3,
            set_txn_size (u64 (txn_size started_txn + 3))
              (set_buf_pos (buf_pos started_txn + 3)
                 (set_buffer (memcpy (buffer started_txn) (buf_pos started_txn) abc 3)
                    started_txn))), started).
Proof.
  assert (H1 : 0 ≤ buf_pos started_txn) by evaluated.
  assert (H2 : 0 ≤ 3) by evaluated.
  assert (H3 : buf_pos started_txn + 3 ≤ kBufferSize) by evaluated.
  assert (H4 : ¬ (expected_size started_txn ≠ kSizeUnknown
                  ∧ u64 (txn_size started_txn + 3) > expected_size started_txn)).
  { intros [Hne _]. apply Hne. vm_compute. reflexivity. }
  split; [exact H1|]. split; [exact H3|].
  exact (Write_buffered abc 3 started_txn started H1 H2 H3 H4).
Defined.

Lemma Flush_appends_witness :
  staged short_txn (os short_state0) 0 []
  ∧ w_script (os short_state0) = []
  ∧ ∃ s', Flush short_txn short_state0 = Ret ((0, set_buf_pos 0 short_txn), s')
          ∧ staged (set_buf_pos 0 short_txn) (os s') 0 ([] ++ pending short_txn).
Proof.
  assert (H1 : w_script (os short_state0) = []) by evaluated.
  assert (H2 : 0 ≤ buf_pos short_txn ≤ kBufferSize) by evaluated.
  assert (H3 : buf_pos short_txn ≤ Z.of_nat (length (buffer short_txn))) by evaluated.
  split; [exact staged_short|]. split; [exact H1|].
  destruct (Flush_appends short_txn short_state0 0 [] staged_short H1 H2 H3)
    as (s' & Hrun & Hstaged & _).
  exists s'. split; [exact Hrun|exact Hstaged].
Defined.

Lemma run_write_enospc :
  sys_write (fd short_txn) (pending short_txn) (os enospc_state0)
  = (-1, (sys_write (fd short_txn) (pending short_txn) (os enospc_state0)).2).
Proof. vm_compute. reflexivity. Qed.

Lemma run_write_partial :
  sys_write (fd short_txn) (pending short_txn) (os partial_state0)
  = (1, (sys_write (fd short_txn) (pending short_txn) (os partial_state0)).2).
Proof. vm_compute. reflexivity. Qed.

Lemma Flush_outcomes_witness :
  (∃ s', Flush short_txn enospc_state0 = Ret ((- 28, short_txn), s'))
  ∧ (∃ s', Flush short_txn partial_state0 = Ret ((- EIO, set_buf_pos 2 short_txn), s')).
Proof.
  assert (Hpos : 0 < buf_pos short_txn ≤ kBufferSize) by evaluated.
  split.
  - destruct (Flush_outcomes short_txn enospc_state0) as [_ Hwrite].
    destruct (Hwrite Hpos _ _ run_write_enospc) as (Hfail & _).
    destruct Hfail as [Hrun _]; [evaluated|].
    eexists. exact Hrun.
  - destruct (Flush_outcomes short_txn partial_state0) as [_ Hwrite].
    destruct (Hwrite Hpos _ _ run_write_partial) as (_ & Hshort & _).
    destruct Hshort as [Hrun _]; [evaluated|evaluated|].
    eexists. exact Hrun.
Defined.


Lemma staged_full : staged full_txn (os started) 0 [].
Proof. split; [|split]; [vm_compute; reflexivity|eexists; vm_compute; reflexivity|vm_compute; reflexivity]. Qed.

Lemma Write_one_batch_witness :
  staged full_txn (os started) 0 []
  ∧ buf_pos full_txn = kBufferSize
  ∧ ∃ t' s' data',
      Write ["B"%byte] 1 full_txn started = Ret ((1, t'), s')
      ∧ staged t' (os s') 0 data'
      ∧ data' ++ pending t' = [] ++ pending full_txn ++ take (Z.to_nat 1) ["B"%byte].
Proof.
  assert (H1 : w_script (os started) = []) by evaluated.
  assert (H2 : length (buffer full_txn) = Z.to_nat kBufferSize) by evaluated.
  assert (H3 : 0 ≤ buf_pos full_txn ≤ kBufferSize) by evaluated.
  assert (H4 : 0 ≤ 1 ≤ Z.of_nat (length ["B"%byte])) by evaluated.
  assert (H5 : 1 ≤ (if decide (buf_pos full_txn = kBufferSize) then kBufferSize
                    else kBufferSize - buf_pos full_txn)) by evaluated.
  assert (H6 : ¬ (expected_size full_txn ≠ kSizeUnknown
                  ∧ u64 (txn_size full_txn + 1) > expected_size full_txn)).
  { intros [Hne _]. apply Hne. vm_compute. reflexivity. }
  assert (H7 : buf_pos full_txn = kBufferSize) by evaluated.
  split; [exact staged_full|]. split; [exact H7|].
  destruct (Write_one_batch ["B"%byte] 1 full_txn started 0 [] staged_full H1 H2 H3 H4 H5 H6)
    as (b & p & s' & data' & Hrun & Hstaged & Hdata & _).
  eexists _, s', data'. split; [exact Hrun|]. split; [exact Hstaged|exact Hdata].
Defined.


Lemma CommitTxn_publishes_witness :
  staged abc_catalog_txn (os abc_state0) 0 []
  ∧ is_pinned_type (txn_type abc_catalog_txn) = true
  ∧ ∃ s', CommitTxn abc_catalog_txn abc_state0 = Ret (0, s')
          ∧ w_dir (os s') =
              <[final_path abc_catalog_txn := 0%nat]>
                (delete (tmp_path abc_catalog_txn) (w_dir (os abc_state0)))
          ∧ ∃ mode, w_inodes (os s') !! 0%nat
                    = Some {| i_data := [] ++ pending abc_catalog_txn; i_mode := mode |}.
Proof.
  assert (H1 : w_script (os abc_state0) = []) by evaluated.
  assert (H2 : 0 ≤ buf_pos abc_catalog_txn ≤ kBufferSize) by evaluated.
  assert (H3 : buf_pos abc_catalog_txn ≤ Z.of_nat (length (buffer abc_catalog_txn)))
    by evaluated.
  assert (H4 : ¬ (txn_size abc_catalog_txn ≠ expected_size abc_catalog_txn
                  ∧ expected_size abc_catalog_txn ≠ kSizeUnknown
                  ∧ (reports_correct_filesize_ (mgr abc_state0) = true
                     ∨ txn_size abc_catalog_txn ≠ 0))).
  { intros [Hne _]. apply Hne. vm_compute. reflexivity. }
  assert (H5 : is_pinned_type (txn_type abc_catalog_txn) = true →
               ∃ q, Pin (txn_id abc_catalog_txn) (txn_size abc_catalog_txn)
                        (description abc_catalog_txn)
                        (bool_decide (txn_type abc_catalog_txn = kTypeCatalog))
                        (quota_mgr_ (mgr abc_state0)) = (true, q)).
  { intros _. eexists. vm_compute. reflexivity. }
  assert (H6 : alien_cache_on_nfs_ (mgr abc_state0) = false
               ∨ w_dir (os abc_state0) !! final_path abc_catalog_txn = None).
  { left. vm_compute. reflexivity. }
  assert (H7 : is_pinned_type (txn_type abc_catalog_txn) = true) by evaluated.
  split; [exact staged_abc|]. split; [exact H7|].
  destruct (CommitTxn_publishes abc_catalog_txn abc_state0 0 [] staged_abc H1 H2 H3 H4 H5 H6)
    as (s' & Hrun & Hdir & Hino & _).
  exists s'. split; [exact Hrun|]. split; [exact Hdir|exact Hino].
Defined.

Lemma Open2Mem_reads_object_witness :
  w_dir (os abc_committed) !! (cache_path_ (mgr abc_committed) +:+ "/"
                               +:+ MakePathWithoutSuffix h1) = Some 0%nat
  ∧ w_inodes (os abc_committed) !! 0%nat = Some {| i_data := abc; i_mode := 384 |}
  ∧ ∃ s', Open2Mem h1 abc_committed
          = Ret ((true, if decide (abc = []) then None else Some abc,
                  Z.of_nat (length abc)), s').
Proof.
  assert (H1 : w_dir (os abc_committed) !! (cache_path_ (mgr abc_committed) +:+ "/"
                                            +:+ MakePathWithoutSuffix h1) = Some 0%nat)
    by evaluated.
  assert (H2 : w_inodes (os abc_committed) !! 0%nat = Some {| i_data := abc; i_mode := 384 |})
    by evaluated.
  assert (H3 : w_script (os abc_committed) = []) by evaluated.
  assert (H4 : Z.of_nat (length abc) < 2 ^ 64) by evaluated.
  split; [exact H1|]. split; [exact H2|].
  destruct (Open2Mem_reads_object h1 abc_committed 0 abc 384 H1 H2 H3 H4) as (s' & Hrun & _).
  exists s'. exact Hrun.
Defined.

Lemma CommitFromMem_Open2Mem_small_witness :
  Z.of_nat (length abc) ≤ kBufferSize
  ∧ ∃ s1 s2,
      CommitFromMem h1 abc (Z.of_nat (length abc)) "abc" (fresh false []) = Ret (true, s1)
      ∧ Open2Mem h1 s1
        = Ret ((true, if decide (abc = []) then None else Some abc, Z.of_nat (length abc)),
               s2).
Proof.
  assert (H1 : Z.of_nat (length abc) ≤ kBufferSize) by evaluated.
  assert (H2 : cache_mode_ (mgr (fresh false [])) = kCacheReadWrite) by evaluated.
  assert (H3 : Z.of_nat (length abc) ≤ u64 (GetMaxFileSize (quota_mgr_ (mgr (fresh false [])))))
    by evaluated.
  assert (H4 : w_script (os (fresh false [])) = []) by evaluated.
  assert (H5 : is_template (txn_template_path_ (mgr (fresh false []))) = true) by evaluated.
  assert (H6 : w_dir (os (fresh false []))
               !! mkstemp_name (txn_template_path_ (mgr (fresh false [])))
                    (w_tmp_seq (os (fresh false []))) = None) by evaluated.
  split; [exact H1|].
  exact (CommitFromMem_Open2Mem_small h1 abc "abc" (fresh false []) H1 H2 H3 H4 H5 H6
           (or_introl eq_refl)).
Defined.

Lemma AbortTxn_outcomes_witness :
  staged started_txn (os started) 0 []
  ∧ ∃ s', AbortTxn started_txn started = Ret (0, s')
          ∧ w_dir (os s') !! tmp_path started_txn = None
          ∧ w_dir (os s') = delete (tmp_path started_txn) (w_dir (os started)).
Proof.
  assert (H1 : w_script (os started) = []) by evaluated.
  split; [exact staged_started|].
  destruct (AbortTxn_outcomes started_txn started) as [Hany Hquiet].
  destruct (Hquiet 0%nat [] staged_started H1) as (s' & Hrun & Hdir & _).
  exists s'. split; [exact Hrun|]. split; [|exact Hdir].
  destruct (Hany 0 s' Hrun) as (_ & _ & Hgone & _). exact (Hgone eq_refl).
Defined.

Lemma StartTxn_AbortTxn_no_trace_witness :
  let s := fresh false [] in
  cache_mode_ (mgr s) = kCacheReadWrite
  ∧ ∃ fd t s1 s2,
      StartTxn h1 kSizeUnknown s = Ret ((fd, Some t), s1)
      ∧ AbortTxn t s1 = Ret (0, s2)
      ∧ w_dir (os s2) = w_dir (os s)
      ∧ w_fds (os s2) = w_fds (os s)
      ∧ no_inflight_txns_ (mgr s2) = i32 (no_inflight_txns_ (mgr s)).
Proof.
  intros s.
  assert (H1 : cache_mode_ (mgr s) = kCacheReadWrite) by evaluated.
  assert (H2 : w_script (os s) = []) by evaluated.
  assert (H3 : is_template (txn_template_path_ (mgr s)) = true) by evaluated.
  assert (H4 : w_dir (os s) !! mkstemp_name (txn_template_path_ (mgr s)) (w_tmp_seq (os s))
               = None) by evaluated.
  assert (H5 : w_fds (os s) !! Z.of_nat (w_next_fd (os s)) = None) by evaluated.
  split; [exact H1|].
  exact (StartTxn_AbortTxn_no_trace h1 kSizeUnknown s H1 (or_introl eq_refl) H2 H3 H4 H5).
Defined.

Lemma staged_short_flushed : staged short_flushed_txn (os short_flushed) 0 abc.
Proof. split; [|split]; [vm_compute; reflexivity|eexists; vm_compute; reflexivity|vm_compute; reflexivity]. Qed.

Lemma Reset_outcomes_witness :
  staged short_flushed_txn (os short_flushed) 0 abc
  ∧ ∃ s', Reset short_flushed_txn short_flushed
          = Ret ((0, set_txn_size 0 (set_buf_pos 0 short_flushed_txn)), s')
          ∧ staged (set_txn_size 0 (set_buf_pos 0 short_flushed_txn)) (os s') 0 [].
Proof.
  assert (H1 : w_script (os short_flushed) = []) by evaluated.
  split; [exact staged_short_flushed|].
  destruct (Reset_outcomes short_flushed_txn short_flushed) as [_ Hquiet].
  destruct (Hquiet 0%nat abc staged_short_flushed H1) as (s' & Hrun & Hstaged & _).
  exists s'. split; [exact Hrun|exact Hstaged].
Defined.


Lemma TearDown2ReadOnly_outcomes_witness :
  no_inflight_txns_ (mgr started) ≠ 0
  ∧ (∀ fuel, TearDown2ReadOnly fuel started = OutOfFuel)
  ∧ no_inflight_txns_ (mgr abc_committed) = 0
  ∧ ∃ s', TearDown2ReadOnly 1 abc_committed = Ret (tt, s').
Proof.
  assert (H1 : no_inflight_txns_ (mgr started) ≠ 0) by evaluated.
  assert (H2 : no_inflight_txns_ (mgr abc_committed) = 0) by evaluated.
  split; [exact H1|]. split; [|split; [exact H2|]].
  - destruct (TearDown2ReadOnly_outcomes started) as [Hbusy _]. exact (Hbusy H1).
  - destruct (TearDown2ReadOnly_outcomes abc_committed) as [_ Hidle].
    eexists. exact (Hidle H2 0%nat).
Defined.

Lemma run_CommitTxn_catalog :
  CommitTxn abc_catalog_txn abc_state0
  = Ret (0, state_after (CommitTxn abc_catalog_txn) abc_state0).
Proof. vm_compute. reflexivity. Qed.

Lemma run_CommitTxn_short :
  CommitTxn short_txn short_state0
  = Ret (- EIO, state_after (CommitTxn short_txn) short_state0).
Proof. vm_compute. reflexivity. Qed.

Lemma CommitTxn_quota_notifications_witness :
  CommitTxn abc_catalog_txn abc_state0
  = Ret (0, state_after (CommitTxn abc_catalog_txn) abc_state0)
  ∧ ∃ evs,
      w_log (os (state_after (CommitTxn abc_catalog_txn) abc_state0))
      = w_log (os abc_state0) ++ evs
      ∧ quota_calls evs = [QPin h1 3 "catalog" true].
Proof.
  split; [exact run_CommitTxn_catalog|].
  destruct (CommitTxn_quota_notifications _ _ _ _ run_CommitTxn_catalog)
    as (evs & Hlog & Hok & _).
  exists evs. split; [exact Hlog|]. apply Hok. evaluated.
Defined.

Lemma CommitTxn_cleans_up_witness :
  CommitTxn short_txn short_state0
  = Ret (- EIO, state_after (CommitTxn short_txn) short_state0)
  ∧ w_dir (os (state_after (CommitTxn short_txn) short_state0)) !! tmp_path short_txn = None
  ∧ w_fds (os (state_after (CommitTxn short_txn) short_state0)) !! fd short_txn = None.
Proof.
  assert (H1 : w_script (os short_state0) = []) by evaluated.
  assert (H2 : alien_cache_on_nfs_ (mgr short_state0) = false →
               tmp_path short_txn ≠ final_path short_txn).
  { intros _. evaluated. }
  split; [exact run_CommitTxn_short|].
  destruct (CommitTxn_cleans_up _ _ _ _ run_CommitTxn_short H1 H2) as (Hdir & Hfd & _).
  split; [exact Hdir|exact Hfd].
Defined.

Lemma steps_to_committed : steps (fresh false [], []) (committed, []).
Proof.
  eapply steps_step; [eapply steps_step; [apply steps_refl|]|].
  - eapply step_StartTxn_ok. exact run_StartTxn_started.
  - apply (step_CommitTxn started [] started_txn [] 0 committed).
    exact run_CommitTxn_started.
Qed.

Lemma configuration_is_fixed_witness :
  steps (fresh false [], []) (committed, [])
  ∧ configuration (mgr committed) = configuration (mgr (fresh false []))
  ∧ GetPathInCache h1 committed
    = Ret (cache_path_ (mgr (fresh false [])) +:+ "/" +:+ MakePathWithoutSuffix h1,
           committed).
Proof.
  split; [exact steps_to_committed|].
  destruct (configuration_is_fixed _ _ steps_to_committed) as (Hcfg & _ & Hpath).
  split; [exact Hcfg|exact (Hpath h1)].
Defined.

Lemma Write_all_or_error_witness :
  0 ≤ 4097 < 2 ^ 63
  ∧ ∃ r t' s',
      Write blob_4097 4097 started_txn started = Ret ((r, t'), s')
      ∧ ((r = 4097 ∧ txn_size t' = u64 (txn_size started_txn + 4097)) ∨ r < 0)
      ∧ 0 ≤ buf_pos t' ≤ kBufferSize.
Proof.
  assert (H1 : 0 ≤ 4097 < 2 ^ 63) by evaluated.
  assert (H2 : 0 ≤ buf_pos started_txn ≤ kBufferSize) by evaluated.
  split; [exact H1|].
  exact (Write_all_or_error blob_4097 4097 started_txn started H1 H2).
Defined.

Lemma closed_descriptor_is_rejected_witness :
  w_fds (os started) !! 3 = Some {| of_ino := 0; of_writable := true; of_pos := 0 |}
  ∧ ∃ s1, Close 3 started = Ret (0, s1)
          ∧ (∃ s2, GetSize 3 s1 = Ret (- EBADF, s2))
          ∧ (∃ s2, Pread 3 1 0 s1 = Ret ((- EBADF, []), s2))
          ∧ (∃ s2, Close 3 s1 = Ret (- EBADF, s2)).
Proof.
  assert (H1 : w_script (os started) = []) by evaluated.
  assert (H2 : w_fds (os started) !! 3
               = Some {| of_ino := 0; of_writable := true; of_pos := 0 |}) by evaluated.
  split; [exact H2|].
  destruct (closed_descriptor_is_rejected 3 started _ H1 H2)
    as (s1 & Hclose & _ & Hsize & Hread & Hagain).
  exists s1. split; [exact Hclose|]. split; [exact Hsize|]. split; [exact (Hread 1 0)|].
  exact Hagain.
Defined.

Lemma run_TearDown2ReadOnly_opened :
  TearDown2ReadOnly 1 abc_opened = Ret (tt, state_after (TearDown2ReadOnly 1) abc_opened).
Proof. vm_compute. reflexivity. Qed.

Lemma run_Pread_opened :
  Pread 4 2 1 abc_opened = Ret ((2, ["b"; "c"]%byte), state_after (Pread 4 2 1) abc_opened).
Proof. vm_compute. reflexivity. Qed.

Lemma TearDown2ReadOnly_keeps_reads_witness :
  TearDown2ReadOnly 1 abc_opened = Ret (tt, state_after (TearDown2ReadOnly 1) abc_opened)
  ∧ w_fds (os (state_after (TearDown2ReadOnly 1) abc_opened)) = w_fds (os abc_opened)
  ∧ ∃ s2, Pread 4 2 1 (state_after (TearDown2ReadOnly 1) abc_opened)
          = Ret ((2, ["b"; "c"]%byte), s2).
Proof.
  assert (H1 : w_script (os abc_opened) = []) by evaluated.
  split; [exact run_TearDown2ReadOnly_opened|].
  destruct (TearDown2ReadOnly_keeps_reads _ _ _ run_TearDown2ReadOnly_opened)
    as (Hfds & _ & _ & Hread).
  split; [exact Hfds|]. exact (Hread H1 _ _ _ _ _ run_Pread_opened).
Defined.

Lemma run_legacy_StartTransaction :
  cache.StartTransaction legacy_globals h1 "" "" (boot [])
  = (3, "/var/lib/cvmfs/shared/a1/b2c3d4e5f60718293a4b5c6d7e8f9012345678",
     "/var/lib/cvmfs/shared/txn/fetch000000", legacy_started).
Proof. vm_compute. reflexivity. Qed.

Lemma cache_CommitTransaction_publishes_witness :
  w_dir legacy_started !! "/var/lib/cvmfs/shared/txn/fetch000000" = Some 0%nat
  ∧ ∃ w', cache.CommitTransaction legacy_globals
            "/var/lib/cvmfs/shared/a1/b2c3d4e5f60718293a4b5c6d7e8f9012345678"
            "/var/lib/cvmfs/shared/txn/fetch000000" "" h1 false 0 legacy_started
          = Ret (0, w')
          ∧ w_dir w' =
              <["/var/lib/cvmfs/shared/a1/b2c3d4e5f60718293a4b5c6d7e8f9012345678" := 0%nat]>
                (delete "/var/lib/cvmfs/shared/txn/fetch000000" (w_dir legacy_started)).
Proof.
  assert (H1 : w_script legacy_started = []) by evaluated.
  assert (H2 : w_dir legacy_started !! "/var/lib/cvmfs/shared/txn/fetch000000" = Some 0%nat)
    by evaluated.
  assert (H3 : w_inodes legacy_started !! 0%nat = Some {| i_data := []; i_mode := 384 |})
    by evaluated.
  split; [exact H2|].
  destruct (cache_CommitTransaction_publishes legacy_globals
              "/var/lib/cvmfs/shared/a1/b2c3d4e5f60718293a4b5c6d7e8f9012345678"
              "/var/lib/cvmfs/shared/txn/fetch000000" "" h1 false 0 legacy_started 0 _
              H1 H2 H3 (or_introl eq_refl)) as (w' & Hrun & Hdir & _).
  exists w'. split; [exact Hrun|exact Hdir].
Defined.

Lemma cache_CommitFromMem_stores_witness :
  Z.of_nat (length blob_4097) < 2 ^ 63
  ∧ cache.cache_mode_ legacy_globals = kCacheReadWrite
  ∧ ∃ w', cache.CommitFromMem legacy_globals h1 blob_4097 (Z.of_nat (length blob_4097))
            "blob" (boot []) = Ret (true, w')
          ∧ w_inodes w' !! w_next_ino (boot [] : World string)
            = Some {| i_data := blob_4097;
                      i_mode := if cache.alien_cache_ legacy_globals then 432 else 384 |}.
Proof.
  assert (H1 : Z.of_nat (length blob_4097) < 2 ^ 63) by evaluated.
  assert (H2 : cache.cache_mode_ legacy_globals = kCacheReadWrite) by evaluated.
  assert (H3 : w_script (boot [] : World string) = []) by evaluated.
  assert (H4 : w_dir (boot [] : World string)
               !! mkstemp_name (cache.GetTempName legacy_globals)
                    (w_tmp_seq (boot [] : World string)) = None) by evaluated.
  split; [exact H1|]. split; [exact H2|].
  destruct (cache_CommitFromMem_stores legacy_globals h1 blob_4097 "blob" (boot [])
              H1 H2 H3 H4 (or_introl eq_refl)) as (w' & Hrun & _ & Hino & _).
  exists w'. split; [exact Hrun|exact Hino].
Defined.

Lemma run_legacy_CommitTransaction_failed :
  cache.CommitTransaction legacy_globals "/var/lib/cvmfs/shared/a1/b2" "/nowhere" ""
    h1 false 0 (boot []) = Ret (- ENOENT, legacy_failed).
Proof. vm_compute. reflexivity. Qed.

Lemma cache_CommitTransaction_result_witness :
  cache.CommitTransaction legacy_globals "/var/lib/cvmfs/shared/a1/b2" "/nowhere" ""
    h1 false 0 (boot []) = Ret (- ENOENT, legacy_failed)
  ∧ ∃ evs, w_log legacy_failed
           = w_log (boot [] : World string) ++ evs ++ [EvSys (SysUnlink "/nowhere")].
Proof.
  split; [exact run_legacy_CommitTransaction_failed|].
  destruct (cache_CommitTransaction_result _ _ _ _ _ _ _ _ _ _
              run_legacy_CommitTransaction_failed) as [_ Hfailed].
  apply Hfailed. evaluated.
Defined.



Lemma CallGuard_Drainout_witness :
  cache.num_inflight_calls_ (cache.CallGuard.ctor legacy_globals).2 ≠ 0
  ∧ (∀ fuel, cache.CallGuard.Drainout fuel (cache.CallGuard.ctor legacy_globals).2 = OutOfFuel)
  ∧ cache.CallGuard.Drainout 1 legacy_globals
    = Ret (tt, if decide (cache.global_drainout_ legacy_globals = 0)
               then cache.set_global_drainout 1 legacy_globals else legacy_globals).
Proof.
  assert (H1 : cache.num_inflight_calls_ (cache.CallGuard.ctor legacy_globals).2 ≠ 0)
    by evaluated.
  split; [exact H1|]. split.
  - destruct (CallGuard_Drainout (cache.CallGuard.ctor legacy_globals).2) as [Hbusy _].
    exact (Hbusy H1).
  - destruct (CallGuard_Drainout legacy_globals) as (_ & Hidle & _).
    exact (Hidle eq_refl 0%nat).
Defined.



Lemma staging_template_stays_valid_witness :
  steps (fresh false [], []) (committed, [])
  ∧ txn_template_path_ (mgr committed) = "/var/lib/cvmfs/shared" +:+ "/txn/fetchXXXXXX"
  ∧ is_template (txn_template_path_ (mgr committed)) = true.
Proof.
  split; [exact steps_to_committed|].
  exact (staging_template_stays_valid "/var/lib/cvmfs/shared" false "example.cern.ch"
           (boot []) [] (committed, []) steps_to_committed).
Defined.
